(** * Distill: the request-time pipeline of the chatbot backend

    A shallow embedding of the Cloudflare-Worker backend of the Distill
    toolkit: keyword retrieval (rag-retrieval.js), the dual-window rate
    limiter (rate-limiter.js), the provider-agnostic generation call
    (ai-integration.js) and the worker that routes and answers requests
    (index.js).

    Modelling conventions.
    - JavaScript strings are modelled by [string]; the texts handled are
      taken to be ASCII, so [toLowerCase] folds the letters A-Z and the
      classes \w and \s are their ASCII members.
    - JavaScript numbers that hold counters, scores and unix seconds are
      modelled by [Z].
    - A property that may be absent from an object ([undefined]) is an
      [option]; truthiness is written out where the source relies on it.
    - The key-value store, the clock and the provider are external: the
      store is threaded as explicit state, the clock reading is an
      argument, and the outcome of the provider call is an argument. *)

From Stdlib Require Import ZArith QArith Ascii String DecimalString.
From stdpp Require Import gmap strings list fin_maps sorting.

Set Warnings "-register-all".

Local Open Scope string_scope.
Local Open Scope Z_scope.

(** ** JavaScript string primitives *)

Module JsString.

Definition isUpper (c : ascii) : bool :=
  let n := nat_of_ascii c in (65 <=? n)%nat && (n <=? 90)%nat.

Definition isLowerOrDigit (c : ascii) : bool :=
  let n := nat_of_ascii c in
  ((97 <=? n)%nat && (n <=? 122)%nat) || ((48 <=? n)%nat && (n <=? 57)%nat).

(** The class \w: letters, digits and the underscore. *)
Definition isWord (c : ascii) : bool :=
  isUpper c || isLowerOrDigit c || (nat_of_ascii c =? 95)%nat.

(** The class \s: space, tab, line feed, vertical tab, form feed,
    carriage return. *)
Definition isSpace (c : ascii) : bool :=
  let n := nat_of_ascii c in (n =? 32)%nat || ((9 <=? n)%nat && (n <=? 13)%nat).

Definition lowerChar (c : ascii) : ascii :=
  if isUpper c then ascii_of_nat (nat_of_ascii c + 32) else c.

Fixpoint mapChars (f : ascii -> ascii) (s : string) : string :=
  match s with
  | EmptyString => EmptyString
  | String c r => String (f c) (mapChars f r)
  end.

(** Every character of [s] satisfies [P]. *)
Fixpoint allChars (P : ascii -> Prop) (s : string) : Prop :=
  match s with
  | EmptyString => True
  | String c r => P c /\ allChars P r
  end.

(** The number of occurrences of the character [c] in [s]. *)
Fixpoint countChar (c : ascii) (s : string) : nat :=
  match s with
  | EmptyString => 0
  | String d r => (if Ascii.eqb d c then 1 else 0) + countChar c r
  end.

(** [s.toLowerCase()] *)
Definition toLowerCase (s : string) : string := mapChars lowerChar s.

(** [s.startsWith(p)] *)
Definition startsWith (s p : string) : bool := String.prefix p s.

(** [s.includes(sub)]: [sub] occurs in [s] at some position. *)
Fixpoint includes (s sub : string) : bool :=
  startsWith s sub ||
  match s with
  | EmptyString => false
  | String _ r => includes r sub
  end.

(** [s.split(/\s+/)]: the pieces between the maximal runs of white
    space; a leading or trailing run leaves an empty piece, as in
    JavaScript.  [cur] is the piece being read, [inRun] tells whether
    the previous character belonged to a separator. *)
Fixpoint splitWs (cur : string) (inRun : bool) (s : string) : list string :=
  match s with
  | EmptyString => [cur]
  | String c r =>
      if isSpace c then
        if inRun then splitWs EmptyString true r
        else cur :: splitWs EmptyString true r
      else splitWs (cur +:+ String c EmptyString) false r
  end.

Definition splitWhitespace (s : string) : list string :=
  splitWs EmptyString false s.

Fixpoint dropLeadingSpace (s : string) : string :=
  match s with
  | EmptyString => EmptyString
  | String c r => if isSpace c then dropLeadingSpace r else s
  end.

Fixpoint dropTrailingSpace (s : string) : string :=
  match s with
  | EmptyString => EmptyString
  | String c r =>
      match dropTrailingSpace r with
      | EmptyString => if isSpace c then EmptyString else String c EmptyString
      | r' => String c r'
      end
  end.

(** [s.trim()] *)
Definition trim (s : string) : string := dropTrailingSpace (dropLeadingSpace s).

(** [parts.join(sep)] *)
Fixpoint join (sep : string) (parts : list string) : string :=
  match parts with
  | [] => EmptyString
  | [p] => p
  | p :: rest => p +:+ sep +:+ join sep rest
  end.

(** [arr.slice(0, end)] for an integer [end]: a negative [end] counts
    from the end of the array. *)
Definition slice0 {A} (l : list A) (end_ : Z) : list A :=
  if end_ <? 0 then take (Z.to_nat (Z.of_nat (length l) + end_)) l
  else take (Z.to_nat end_) l.

(** Decimal rendering of a non-negative counter, as a template literal
    prints it. *)
Definition showNat (n : nat) : string :=
  DecimalString.NilEmpty.string_of_uint (Nat.to_uint n).

(** Decimal rendering of an integer. *)
Definition showZ (z : Z) : string :=
  if z <? 0 then "-" +:+ showNat (Z.to_nat (- z)) else showNat (Z.to_nat z).

End JsString.

Import JsString.

(** ** JavaScript values and exceptions *)

Module JsValue.

(** What a [throw] carries, by the place that raises it. *)
Inductive JsError : Type :=
| TypeError                                   (* property read or call on a value that has none *)
| SyntaxError                                 (* [response.json()] / [request.json()] on a body that is not JSON *)
| NetworkError                                (* [fetch] rejects *)
| UnknownProvider (providerName : string)
| ApiError (providerName : string) (status : Z)
| NoResponse (providerName : string).

(** The completion of a computation that may throw. *)
Inductive Completion (A : Type) : Type :=
| Normal (a : A)
| Throw (error : JsError).

Arguments Normal {A} a.
Arguments Throw {A} error.

Definition bindC {A B} (m : Completion A) (f : A -> Completion B) : Completion B :=
  match m with
  | Normal a => f a
  | Throw e => Throw e
  end.

Notation "x <~ m ;; k" := (bindC m (fun x => k))
  (at level 100, m at next level, right associativity).

(** A parsed JSON value.  [undefined] is not a JSON value: a read that
    may yield it has type [option Json]. *)
Inductive Json : Type :=
| JNull
| JBool (b : bool)
| JNum (q : Q)
| JStr (s : string)
| JArr (items : list Json)
| JObj (props : list (string * Json)).

Fixpoint lookupProp (name : string) (props : list (string * Json)) : option Json :=
  match props with
  | [] => None
  | (k, v) :: rest => if String.eqb k name then Some v else lookupProp name rest
  end.

(** [!v] is false. *)
Definition isTruthy (v : option Json) : bool :=
  match v with
  | None | Some JNull => false
  | Some (JBool b) => b
  | Some (JNum q) => negb (Qeq_bool q 0)
  | Some (JStr s) => negb (String.eqb s "")
  | Some (JArr _) | Some (JObj _) => true
  end.

(** [v.name] for a name that no built-in prototype defines: a read on
    [undefined] or [null] throws, an object yields its own property,
    any other value yields [undefined]. *)
Definition getProp (v : option Json) (name : string) : Completion (option Json) :=
  match v with
  | None | Some JNull => Throw TypeError
  | Some (JObj props) => Normal (lookupProp name props)
  | Some _ => Normal None
  end.

(** [v.length] *)
Definition getLength (v : option Json) : Completion (option Json) :=
  match v with
  | None | Some JNull => Throw TypeError
  | Some (JArr items) => Normal (Some (JNum (inject_Z (Z.of_nat (length items)))))
  | Some (JStr s) => Normal (Some (JNum (inject_Z (Z.of_nat (String.length s)))))
  | Some (JObj props) => Normal (lookupProp "length" props)
  | Some _ => Normal None
  end.

(** [v[0]] *)
Definition getFirst (v : option Json) : Completion (option Json) :=
  match v with
  | None | Some JNull => Throw TypeError
  | Some (JArr items) => Normal (head items)
  | Some (JStr (String c _)) => Normal (Some (JStr (String c EmptyString)))
  | Some (JObj props) => Normal (lookupProp "0" props)
  | Some _ => Normal None
  end.

(** [v === 0] *)
Definition isZero (v : option Json) : bool :=
  match v with
  | Some (JNum q) => Qeq_bool q 0
  | _ => false
  end.

(** [v.trim()]: only a string has the method. *)
Definition callTrim (v : option Json) : Completion string :=
  match v with
  | Some (JStr s) => Normal (trim s)
  | _ => Throw TypeError
  end.

End JsValue.

Import JsValue.

(** ** The incoming request and the environment *)

(** The parts of the [Request] the worker reads.  [req_body] is [None]
    when the body is not JSON, so that [request.json()] rejects. *)
Record Request : Type := mkRequest {
  req_method : string;
  req_pathname : string;
  req_origin : option string;             (* Origin *)
  req_sessionHeader : option string;      (* X-Session-ID *)
  req_connectingIP : option string;       (* CF-Connecting-IP *)
  req_forwardedFor : option string;       (* X-Forwarded-For *)
  req_userAgent : option string;          (* User-Agent *)
  req_body : option Json
}.

(** The bindings of the worker, apart from the KV namespace. *)
Record Env : Type := mkEnv {
  AI_PROVIDER : option string;
  AI_MODEL : option string;
  OPENAI_API_KEY : option string;
  ANTHROPIC_API_KEY : option string
}.

(** ** The knowledge base entry *)

(** One parsed line of the JSONL knowledge base.  Every property is
    optional at run time: a missing property reads as [undefined]. *)
Record Entry : Type := mkEntry {
  entry_id : option string;
  entry_type : option string;
  entry_topic : option string;
  entry_title : option string;
  entry_content : option string;
  entry_question : option string;
  entry_answer : option string;
  entry_confidence : option string;
  entry_tags : option (list string)
}.

(** Truthiness of a property holding a string: [undefined] and the empty
    string are falsy. *)
Definition truthy (v : option string) : bool :=
  match v with
  | Some s => negb (String.eqb s "")
  | None => false
  end.

(** [a || b] on string-valued properties. *)
Definition jsOr (a b : option string) : option string :=
  if truthy a then a else b.

(** [v || ''] *)
Definition orEmpty (v : option string) : string :=
  match jsOr v (Some "") with
  | Some s => s
  | None => ""
  end.

(** [v === 'lit'] for a string-valued property. *)
Definition strictEq (v : option string) (lit : string) : bool :=
  match v with
  | Some s => String.eqb s lit
  | None => false
  end.

(** How a template literal prints a string-valued property. *)
Definition interpolate (v : option string) : string :=
  match v with
  | Some s => s
  | None => "undefined"
  end.

(** ** rag-retrieval.js *)

Module Retrieval.

Definition stopWords : list string :=
  [ "a"; "an"; "and"; "are"; "as"; "at"; "be"; "by"; "for";
    "from"; "has"; "he"; "she"; "in"; "is"; "it"; "its"; "of"; "on";
    "that"; "the"; "to"; "was"; "will"; "with"; "what"; "when";
    "where"; "who"; "how"; "does"; "did"; "can"; "could"; "would";
    "should"; "about"; "me"; "tell"; "you"; "your"; "my"; "i";
    "do"; "have"; "been"; "their"; "they"; "this"; "which"; "some" ].

Definition isStopWord (word : string) : bool :=
  existsb (String.eqb word) stopWords.

(** [.replace(/[^\w\s]/g, ' ')] *)
Definition stripPunctuation (s : string) : string :=
  mapChars (fun c => if isWord c || isSpace c then c else " "%char) s.

Definition extractKeywords (question : string) : list string :=
  filter (fun word => Is_true ((2 <? String.length word)%nat && negb (isStopWord word)))
         (splitWhitespace (stripPunctuation (toLowerCase question))).

(** The four per-keyword additions of the first [forEach]. *)
Definition scoreKeyword (content topic title : string) (tags : list string)
    (score : Z) (keyword : string) : Z :=
  let score := if includes content keyword then score + 3 else score in
  let score := if includes topic keyword then score + 2 else score in
  let score := if includes title keyword then score + 2 else score in
  let score := if existsb (fun tag => includes tag keyword) tags then score + 1 else score in
  score.

(** The addition of the second [forEach] (question boost). *)
Definition scoreQuestion (questionLower : string) (score : Z) (kw : string) : Z :=
  if includes questionLower kw then score + 5 else score.

Definition scoreEntry (entry : Entry) (keywords : list string) : Z :=
  let score := 0 in
  let content := toLowerCase (orEmpty (jsOr (entry_content entry) (entry_answer entry))) in
  let topic := toLowerCase (orEmpty (entry_topic entry)) in
  let title := toLowerCase (orEmpty (entry_title entry)) in
  let tags := map toLowerCase (default [] (entry_tags entry)) in
  let score := foldl (scoreKeyword content topic title tags) score keywords in
  let score :=
    if strictEq (entry_type entry) "qa_pair" && truthy (entry_question entry) then
      let questionLower := toLowerCase (interpolate (entry_question entry)) in
      foldl (scoreQuestion questionLower) score keywords
    else score in
  let score := if strictEq (entry_confidence entry) "verified" then score + 1 else score in
  score.

(** The code's test that a keyword occurs in one of the fields it
    reads: the primary text, the topic, the title, a tag, or the stored
    question, each taken in lower case. *)
Definition keywordMatches (entry : Entry) (keyword : string) : bool :=
  includes (toLowerCase (orEmpty (jsOr (entry_content entry) (entry_answer entry)))) keyword
  || includes (toLowerCase (orEmpty (entry_topic entry))) keyword
  || includes (toLowerCase (orEmpty (entry_title entry))) keyword
  || existsb (fun tag => includes tag keyword)
       (map toLowerCase (default [] (entry_tags entry)))
  || includes (toLowerCase (orEmpty (entry_question entry))) keyword.

(** The pair [{ entry, score }] built by [retrieveEntries]. *)
Record ScoredItem : Type := mkItem {
  item_entry : Entry;
  item_score : Z
}.

(** [Array.prototype.sort] with the comparator [(a, b) => b.score -
    a.score].  The sort is stable; the result of a stable sort is
    determined by the input and the comparator, and is computed here by
    insertion from the right: an item is placed before the first item
    the comparator does not order strictly before it. *)
Definition compareItems (a b : ScoredItem) : Z := item_score b - item_score a.

Fixpoint insertItem (x : ScoredItem) (l : list ScoredItem) : list ScoredItem :=
  match l with
  | [] => [x]
  | y :: r => if compareItems x y <=? 0 then x :: y :: r else y :: insertItem x r
  end.

Definition sortItems (l : list ScoredItem) : list ScoredItem :=
  foldr insertItem [] l.

(** [a] may stand before [b] in an array sorted by the comparator. *)
Definition descending (a b : ScoredItem) : Prop := item_score b <= item_score a.

(** An item carries the score of its entry. *)
Definition coherent (keywords : list string) (item : ScoredItem) : Prop :=
  item_score item = scoreEntry (item_entry item) keywords.

(** Lines 78-81: score, drop the zero scores, sort by descending score. *)
Definition scoredItems (knowledgeBase : list Entry) (keywords : list string)
    : list ScoredItem :=
  sortItems
    (filter (fun item => Is_true (0 <? item_score item))
       (map (fun entry => mkItem entry (scoreEntry entry keywords)) knowledgeBase)).

Definition retrieveEntries (question : string) (knowledgeBase : list Entry) (topN : Z)
    : list Entry :=
  let keywords := extractKeywords question in
  if (length keywords =? 0)%nat then
    slice0
      (filter (fun e => Is_true (strictEq (entry_type e) "narrative" &&
                                 strictEq (entry_topic e) "about"))
              knowledgeBase)
      topN
  else
    let scored := scoredItems knowledgeBase keywords in
    map item_entry (slice0 scored topN).

(** The header line of the block at position [index] (from 0). *)
Definition entryMarker (index : nat) : string :=
  "[Entry " +:+ showNat (index + 1) +:+ "]
".

(** The lines of a block below its header line, for an entry whose tags
    are [tags]. *)
Definition entryFields (entry : Entry) (tags : list string) : string :=
  "Type: " +:+ interpolate (entry_type entry) +:+ "
" +:+ "Topic: " +:+ interpolate (entry_topic entry) +:+ "
" +:+ (if truthy (entry_title entry)
       then "Title: " +:+ interpolate (entry_title entry) +:+ "
"
       else "")
  +:+ (if strictEq (entry_type entry) "qa_pair"
       then "Question: " +:+ interpolate (entry_question entry) +:+ "
" +:+ "Answer: " +:+ interpolate (entry_answer entry) +:+ "
"
       else "Content: " +:+ interpolate (entry_content entry) +:+ "
")
  +:+ "Confidence: " +:+ interpolate (entry_confidence entry) +:+ "
" +:+ "Tags: " +:+ join ", " tags +:+ "
".

(** What the formatter needs of an entry: [tags] is an array (a
    required field of the schema, see validate.js). *)
Definition wellFormed (entry : Entry) : Prop := is_Some (entry_tags entry).

(** No text of the entry contains an opening bracket, the character
    that starts a marker line. *)
Definition bracketFree (entry : Entry) : Prop :=
  Forall (fun v => countChar "["%char (interpolate v) = 0%nat)
    [ entry_type entry; entry_topic entry; entry_title entry; entry_question entry;
      entry_answer entry; entry_content entry; entry_confidence entry ] /\
  Forall (fun tag => countChar "["%char tag = 0%nat) (default [] (entry_tags entry)).

(** The block of one entry; [index] is the position in the array,
    counted from 0.  [entry.tags.join] throws when [tags] is missing. *)
Definition formatEntry (entry : Entry) (index : nat) : Completion string :=
  let formatted := "[Entry " +:+ showNat (index + 1) +:+ "]
" in
  let formatted := formatted +:+ "Type: " +:+ interpolate (entry_type entry) +:+ "
" in
  let formatted := formatted +:+ "Topic: " +:+ interpolate (entry_topic entry) +:+ "
" in
  let formatted :=
    if truthy (entry_title entry)
    then formatted +:+ "Title: " +:+ interpolate (entry_title entry) +:+ "
"
    else formatted in
  let formatted :=
    if strictEq (entry_type entry) "qa_pair" then
      formatted +:+ "Question: " +:+ interpolate (entry_question entry) +:+ "
" +:+ "Answer: " +:+ interpolate (entry_answer entry) +:+ "
"
    else formatted +:+ "Content: " +:+ interpolate (entry_content entry) +:+ "
" in
  let formatted := formatted +:+ "Confidence: " +:+ interpolate (entry_confidence entry) +:+ "
" in
  match entry_tags entry with
  | None => Throw TypeError
  | Some tags => Normal (formatted +:+ "Tags: " +:+ join ", " tags +:+ "
")
  end.

(** [entries.map((entry, index) => ...)] from position [index] on. *)
Fixpoint formatBlocks (index : nat) (entries : list Entry) : Completion (list string) :=
  match entries with
  | [] => Normal []
  | entry :: rest =>
      block <~ formatEntry entry index ;;
      blocks <~ formatBlocks (S index) rest ;;
      Normal (block :: blocks)
  end.

Definition divider : string := "
---

".

Definition formatEntriesForContext (entries : list Entry) : Completion string :=
  blocks <~ formatBlocks 0 entries ;;
  Normal (join divider blocks).

End Retrieval.

Import Retrieval.

(** ** rate-limiter.js *)

Module RateLimiter.

Definition VISITOR_LIMIT : Z := 10.
Definition IP_LIMIT : Z := 100.
Definition HOUR_IN_SECONDS : Z := 3600.
Definition DAY_IN_SECONDS : Z := 86400.

(** The JSON object [{ count, resetAt }] kept under a key. *)
Record RateWindow : Type := mkWindow {
  count : Z;
  resetAt : Z
}.

(** A stored value with the instant (unix seconds) at which the store
    drops it: the instant of the [put] plus its [expirationTtl]. *)
Record KVRecord : Type := mkRecord {
  kv_value : RateWindow;
  kv_expiration : Z
}.

(** One [put] as the store receives it. *)
Record KVWrite : Type := mkWrite {
  write_key : string;
  write_value : RateWindow;
  write_ttl : Z
}.

(** The KV namespace: the live records, and the log of the writes it
    has received, oldest first. *)
Record KVNamespace : Type := mkKV {
  kv_data : gmap string KVRecord;
  kv_log : list KVWrite
}.

Definition kvEmpty : KVNamespace := mkKV ∅ [].

(** Computations over the store at clock reading [now]. *)
Definition KV (A : Type) : Type := KVNamespace -> A * KVNamespace.

Definition ret {A} (a : A) : KV A := fun kv => (a, kv).

Definition bind {A B} (m : KV A) (f : A -> KV B) : KV B :=
  fun kv => let (a, kv') := m kv in f a kv'.

Notation "x <- m ;; k" := (bind m (fun x => k))
  (at level 100, m at next level, right associativity).
Notation "m ;;; k" := (bind m (fun _ => k))
  (at level 100, right associativity).

(** [kv.get(key, { type: 'json' })]: [null] when the key is absent or
    its record has expired. *)
Definition kvGet (now : Z) (key : string) : KV (option RateWindow) :=
  fun kv =>
    (match kv_data kv !! key with
     | Some r => if now <? kv_expiration r then Some (kv_value r) else None
     | None => None
     end, kv).

(** [kv.put(key, JSON.stringify(value), { expirationTtl })] *)
Definition kvPut (now : Z) (key : string) (value : RateWindow) (expirationTtl : Z)
    : KV unit :=
  fun kv =>
    (tt, mkKV (<[key := mkRecord value (now + expirationTtl)]> (kv_data kv))
              (kv_log kv ++ [mkWrite key value expirationTtl])).

Record RateLimitResult : Type := mkResult {
  allowed : bool;
  reason : option string;
  retryAfter : option Z
}.

Definition sessionReason : string :=
  "Rate limit exceeded. You can send " +:+ showZ VISITOR_LIMIT +:+ " messages per hour.".

Definition ipReason : string :=
  "IP rate limit exceeded. Maximum " +:+ showZ IP_LIMIT +:+ " messages per day.".

(** Lines 28-48, the session window.  [Some r] means that the function
    returns [r] at once. *)
Definition sessionWindow (sessionId : string) (now : Z) : KV (option RateLimitResult) :=
  let sessionKey := "session:" +:+ sessionId in
  sessionData <- kvGet now sessionKey ;;
  match sessionData with
  | Some sessionData =>
      if (now <? resetAt sessionData) && (VISITOR_LIMIT <=? count sessionData) then
        ret (Some (mkResult false (Some sessionReason) (Some (resetAt sessionData - now))))
      else
        (if now <? resetAt sessionData then
           kvPut now sessionKey (mkWindow (count sessionData + 1) (resetAt sessionData))
                 HOUR_IN_SECONDS
         else
           kvPut now sessionKey (mkWindow 1 (now + HOUR_IN_SECONDS)) HOUR_IN_SECONDS) ;;;
        ret None
  | None =>
      kvPut now sessionKey (mkWindow 1 (now + HOUR_IN_SECONDS)) HOUR_IN_SECONDS ;;;
      ret None
  end.

(** Lines 50-70, the IP window. *)
Definition ipWindow (ipAddress : string) (now : Z) : KV (option RateLimitResult) :=
  let ipKey := "ip:" +:+ ipAddress in
  ipData <- kvGet now ipKey ;;
  match ipData with
  | Some ipData =>
      if (now <? resetAt ipData) && (IP_LIMIT <=? count ipData) then
        ret (Some (mkResult false (Some ipReason) (Some (resetAt ipData - now))))
      else
        (if now <? resetAt ipData then
           kvPut now ipKey (mkWindow (count ipData + 1) (resetAt ipData)) DAY_IN_SECONDS
         else
           kvPut now ipKey (mkWindow 1 (now + DAY_IN_SECONDS)) DAY_IN_SECONDS) ;;;
        ret None
  | None =>
      kvPut now ipKey (mkWindow 1 (now + DAY_IN_SECONDS)) DAY_IN_SECONDS ;;;
      ret None
  end.

(** [checkRateLimit(sessionId, ipAddress, kv)] with
    [now = Math.floor(Date.now() / 1000)]. *)
Definition checkRateLimit (sessionId ipAddress : string) (now : Z) : KV RateLimitResult :=
  denied <- sessionWindow sessionId now ;;
  match denied with
  | Some result => ret result
  | None =>
      denied <- ipWindow ipAddress now ;;
      match denied with
      | Some result => ret result
      | None => ret (mkResult true None None)
      end
  end.

(** What a reader of the store sees under a key at [now]. *)
Definition stored (kv : KVNamespace) (now : Z) (key : string) : option RateWindow :=
  fst (kvGet now key kv).

Definition sessionKeyOf (sessionId : string) : string := "session:" +:+ sessionId.
Definition ipKeyOf (ipAddress : string) : string := "ip:" +:+ ipAddress.

(** The condition of line 33: the session window refuses the request. *)
Definition sessionDenies (kv : KVNamespace) (now : Z) (sessionId : string) : bool :=
  match stored kv now (sessionKeyOf sessionId) with
  | Some sessionData => (now <? resetAt sessionData) && (VISITOR_LIMIT <=? count sessionData)
  | None => false
  end.

(** The condition of line 55: the IP window refuses the request. *)
Definition ipDenies (kv : KVNamespace) (now : Z) (ipAddress : string) : bool :=
  match stored kv now (ipKeyOf ipAddress) with
  | Some ipData => (now <? resetAt ipData) && (IP_LIMIT <=? count ipData)
  | None => false
  end.

(** The record an admitting window writes back: one more request in the
    running window, or a fresh window of [windowLength] seconds. *)
Definition nextWindow (windowLength : Z) (data : option RateWindow) (now : Z) : RateWindow :=
  match data with
  | Some data =>
      if now <? resetAt data then mkWindow (count data + 1) (resetAt data)
      else mkWindow 1 (now + windowLength)
  | None => mkWindow 1 (now + windowLength)
  end.

(** The store after the session window has admitted a request. *)
Definition afterSession (sessionId : string) (now : Z) (kv : KVNamespace) : KVNamespace :=
  snd (kvPut now (sessionKeyOf sessionId)
         (nextWindow HOUR_IN_SECONDS (stored kv now (sessionKeyOf sessionId)) now)
         HOUR_IN_SECONDS kv).

(** The store after the IP window has admitted a request. *)
Definition afterIp (ipAddress : string) (now : Z) (kv : KVNamespace) : KVNamespace :=
  snd (kvPut now (ipKeyOf ipAddress)
         (nextWindow DAY_IN_SECONDS (stored kv now (ipKeyOf ipAddress)) now)
         DAY_IN_SECONDS kv).

(** The record under [key] is [data] and the store keeps it at least
    until its window ends. *)
Definition holds (kv : KVNamespace) (key : string) (data : RateWindow) : Prop :=
  exists expiration,
    kv_data kv !! key = Some (mkRecord data expiration) /\ resetAt data <= expiration.

(** The requests of one visitor at the clock readings [times]. *)
Definition visits (sessionId ipAddress : string) (times : list Z)
    : list (string * string * Z) :=
  map (fun now => (sessionId, ipAddress, now)) times.

(** A run of requests, each with its session, its address and its clock
    reading, against one store. *)
Fixpoint runRequests (requests : list (string * string * Z)) (kv : KVNamespace)
    : list RateLimitResult * KVNamespace :=
  match requests with
  | [] => ([], kv)
  | (sessionId, ipAddress, now) :: rest =>
      let (r, kv') := checkRateLimit sessionId ipAddress now kv in
      let (rs, kv'') := runRequests rest kv' in
      (r :: rs, kv'')
  end.

(** [x & x] and [x << 5]: the operand is converted to a signed 32-bit
    integer. *)
Definition toInt32 (z : Z) : Z := (z + 2 ^ 31) mod 2 ^ 32 - 2 ^ 31.

Definition charCode (c : ascii) : Z := Z.of_nat (nat_of_ascii c).

(** One turn of the loop of [hashString]. *)
Definition hashStep (hash : Z) (c : ascii) : Z :=
  let hash := (toInt32 (Z.shiftl (toInt32 hash) 5) - hash) + charCode c in
  toInt32 (Z.land hash hash).

Fixpoint hashLoop (hash : Z) (str : string) : Z :=
  match str with
  | EmptyString => hash
  | String c rest => hashLoop (hashStep hash c) rest
  end.

Definition digit36 (d : Z) : ascii :=
  if d <? 10 then ascii_of_nat (Z.to_nat (48 + d)) else ascii_of_nat (Z.to_nat (87 + d)).

(** [n.toString(36)] for [0 <= n]; seven digits cover [2 ^ 31]. *)
Fixpoint toBase36 (fuel : nat) (n : Z) (acc : string) : string :=
  match fuel with
  | O => acc
  | S fuel =>
      let acc := String (digit36 (n mod 36)) acc in
      if n / 36 =? 0 then acc else toBase36 fuel (n / 36) acc
  end.

Definition hashString (str : string) : string :=
  toBase36 7 (Z.abs (hashLoop 0 str)) EmptyString.

(** [a || 'lit'] on a header value. *)
Definition orLiteral (v : option string) (lit : string) : string :=
  match jsOr v (Some lit) with
  | Some s => s
  | None => lit
  end.

Definition getSessionId (request : Request) : string :=
  if truthy (req_sessionHeader request) then interpolate (req_sessionHeader request)
  else
    let ip := orLiteral (req_connectingIP request) "unknown" in
    let ua := orLiteral (req_userAgent request) "unknown" in
    ip +:+ "-" +:+ hashString ua.

(** [s.split(',')[0]] *)
Fixpoint beforeComma (s : string) : string :=
  match s with
  | EmptyString => EmptyString
  | String c rest => if Ascii.eqb c ","%char then EmptyString else String c (beforeComma rest)
  end.

Definition getClientIP (request : Request) : string :=
  orLiteral
    (jsOr (req_connectingIP request)
          (match req_forwardedFor request with
           | Some xff => Some (beforeComma xff)
           | None => None
           end))
    "unknown".

End RateLimiter.

Import RateLimiter.

(** ** Outbound HTTP calls *)

Module Fetch.

(** One element of a chat-completion message list. *)
Record Message : Type := mkMessage {
  role : string;
  content : string
}.

(** The JSON bodies the repository sends. *)
Inductive RequestBody : Type :=
| OpenAIPayload (model : string) (messages : list Message) (temperature : Q)
    (max_tokens top_p frequency_penalty presence_penalty : Z)
| AnthropicPayload (model : string) (max_tokens : Z) (temperature : Q)
    (system : string) (messages : list Message)
| ChatPayload (message : string) (messageNumber : Z).

(** The arguments of one [fetch(url, init)].  [fetch_signal] is the
    [signal] of [init]: [Some ms] for [AbortSignal.timeout(ms)], [None]
    when [init] has no [signal], in which case nothing aborts the call. *)
Record FetchCall : Type := mkFetch {
  fetch_url : string;
  fetch_method : string;
  fetch_headers : list (string * string);
  fetch_body : RequestBody;
  fetch_signal : option Z
}.

(** What the awaited [fetch] yields: a rejection, or a response with its
    status and its body ([None] when the body is not JSON). *)
Inductive FetchOutcome : Type :=
| Rejected
| Responded (status : Z) (body : option Json).

(** [response.ok] *)
Definition isOk (status : Z) : bool := (200 <=? status) && (status <=? 299).

(** The awaited call did not yield a successful response with a JSON
    body: it was rejected, or answered outside 200-299, or its body does
    not parse. *)
Definition failedOutcome (outcome : FetchOutcome) : Prop :=
  match outcome with
  | Rejected => True
  | Responded status body => isOk status = false \/ body = None
  end.

End Fetch.

Import Fetch.

(** ** ai-integration.js *)

Module AiIntegration.

Definition dquote : string := String (ascii_of_nat 34) EmptyString.

Definition SYSTEM_PROMPT : string :=
"You are an AI assistant for [YOUR NAME], helping visitors learn about their work, experience, and expertise.

CRITICAL RULES:
1. ONLY answer questions using the provided knowledge base entries
2. If information isn't in the knowledge base, say " +:+ dquote +:+
"I don't have that information in my knowledge base" +:+ dquote +:+ "
3. Be professional but approachable
4. Keep responses concise (2-3 paragraphs maximum)
5. Always offer a helpful next step
6. Be honest about limitations — don't guess or make up information

TONE:
- Professional but conversational
- Direct and helpful
- No unnecessary fluff
- Action-oriented

CONVERSATION ENDINGS:
Always conclude with a helpful next step, such as:
- Suggesting they contact [YOUR NAME] directly
- Offering to answer another question
- Pointing them toward a specific page or resource

Remember: You represent [YOUR NAME]'s professional brand. Be helpful, honest, and stick to the knowledge base.".

(** One provider configuration of [PROVIDERS]. *)
Record Provider : Type := mkProvider {
  apiUrl : string;
  defaultModel : string;
  authHeader : option string -> string;
  buildPayload : list Message -> string -> Q -> Z -> RequestBody;
  extractResponse : Json -> Completion string
}.

Definition openai : Provider :=
  mkProvider
    "https://api.openai.com/v1/chat/completions"
    "gpt-3.5-turbo"
    (fun key => "Bearer " +:+ interpolate key)
    (fun messages model temperature maxTokens =>
       OpenAIPayload model messages temperature maxTokens 1 0 0)
    (fun data =>
       choices <~ getProp (Some data) "choices" ;;
       none <~ (if negb (isTruthy choices) then Normal true
                else len <~ getLength choices ;; Normal (isZero len)) ;;
       if none : bool then Throw (NoResponse "OpenAI")
       else
         first <~ getFirst choices ;;
         message <~ getProp first "message" ;;
         content <~ getProp message "content" ;;
         callTrim content).

Definition anthropic : Provider :=
  mkProvider
    "https://api.anthropic.com/v1/messages"
    "claude-haiku-4-5-20251001"
    (fun key => interpolate key)
    (fun messages model temperature maxTokens =>
       let systemMessages := filter (fun m => Is_true (String.eqb (role m) "system")) messages in
       let nonSystemMessages :=
         filter (fun m => Is_true (negb (String.eqb (role m) "system"))) messages in
       let systemText := join "

" (map content systemMessages) in
       AnthropicPayload model maxTokens temperature systemText nonSystemMessages)
    (fun data =>
       content <~ getProp (Some data) "content" ;;
       none <~ (if negb (isTruthy content) then Normal true
                else len <~ getLength content ;; Normal (isZero len)) ;;
       if none : bool then Throw (NoResponse "Anthropic")
       else
         first <~ getFirst content ;;
         text <~ getProp first "text" ;;
         callTrim text).

(** [PROVIDERS[providerName]] on the two configured names. *)
Definition PROVIDERS (providerName : string) : option Provider :=
  if String.eqb providerName "openai" then Some openai
  else if String.eqb providerName "anthropic" then Some anthropic
  else None.

(** The names every object literal inherits from [Object.prototype].
    Under such a name [PROVIDERS[providerName]] is a truthy value that is
    no provider configuration: the guard [!provider] lets it through and
    the call [provider.buildPayload(...)] throws a TypeError. *)
Definition inheritedNames : list string :=
  [ "constructor"; "hasOwnProperty"; "isPrototypeOf"; "propertyIsEnumerable";
    "toLocaleString"; "toString"; "valueOf"; "__proto__";
    "__defineGetter__"; "__defineSetter__"; "__lookupGetter__"; "__lookupSetter__" ].

(** The [options] argument. *)
Record Options : Type := mkOptions {
  opt_provider : option string;
  opt_model : option string
}.

(** [generateResponse(userMessage, ragContext, apiKey, options)].  The
    provider is given by [fetch]; the result is the completion of the
    function together with the calls it has made, oldest first. *)
Definition generateResponse (fetch : FetchCall -> FetchOutcome)
    (userMessage ragContext : string) (apiKey : option string) (options : Options)
    : Completion string * list FetchCall :=
  let providerName := orLiteral (opt_provider options) "openai" in
  match PROVIDERS providerName with
  | None =>
      if existsb (String.eqb providerName) inheritedNames then (Throw TypeError, [])
      else (Throw (UnknownProvider providerName), [])
  | Some provider =>
      let model := orLiteral (opt_model options) (defaultModel provider) in
      let temperature := (7 # 10)%Q in
      let maxTokens := 500 in
      let messages :=
        [ mkMessage "system" SYSTEM_PROMPT;
          mkMessage "system"
            ("Here is the relevant information from the knowledge base:

" +:+ ragContext +:+ "

Use ONLY this information to answer the user's question. If the answer isn't in these entries, say so honestly.");
          mkMessage "user" userMessage ] in
      let payload := buildPayload provider messages model temperature maxTokens in
      let headers := [("Content-Type", "application/json")] in
      let headers :=
        if String.eqb providerName "anthropic" then
          (headers ++ [("x-api-key", authHeader provider apiKey);
                       ("anthropic-version", "2023-06-01")])%list
        else (headers ++ [("Authorization", authHeader provider apiKey)])%list in
      let call := mkFetch (apiUrl provider) "POST" headers payload None in
      (match fetch call with
       | Rejected => Throw NetworkError
       | Responded status body =>
           if negb (isOk status) then Throw (ApiError providerName status)
           else
             match body with
             | None => Throw SyntaxError
             | Some data => extractResponse provider data
             end
       end, [call])
  end.

Definition getFallbackResponse : string :=
  "I'm having trouble connecting right now. Please try again in a moment, or reach out directly through the contact page.".

End AiIntegration.

Import AiIntegration.

(** ** chatbot-widget.js: the call of the widget to the backend *)

Module Widget.

(** The [fetch] of [sendMessageToAPI(message, sessionId)]: the widget
    aborts its own request to the backend after 15000 ms. *)
Definition sendMessageToAPI (apiEndpoint message sessionId : string) (messageCount : Z)
    : FetchCall :=
  mkFetch apiEndpoint "POST"
    [("Content-Type", "application/json"); ("X-Session-ID", sessionId)]
    (ChatPayload message (messageCount + 1))
    (Some 15000).

End Widget.

(** ** index.js: the worker *)

Module Worker.

Definition ALLOWED_ORIGINS : list string :=
  [ "https://yoursite.com";
    "https://www.yoursite.com";
    "http://localhost:3000";
    "http://localhost:8000" ].

Definition NO_MATCH_RESPONSE : string :=
  "I don't have information about that in my knowledge base. Is there something else I can help you with?".

Definition DEFAULT_SUGGESTIONS : list string :=
  [ "What can you tell me about [YOUR NAME]?";
    "What services are available?";
    "How can I get in touch?" ].

(** The [stats] object exported by the generated knowledge-data.js. *)
Record Stats : Type := mkStats {
  totalEntries : Z;
  types : list (string * Z)
}.

(** The [metadata] object of a chat response. *)
Record Metadata : Type := mkMetadata {
  retrievalTime : Z;
  aiGenerationTime : option Z;
  totalTime : option Z;
  entriesFound : Z;
  topics : option (list (option string))
}.

(** The bodies the worker sends, before [JSON.stringify]. *)
Inductive Body : Type :=
| NoBody                                                   (* [null] *)
| TextBody (text : string)
| ErrorBody (error : string)
| RateLimitBody (error : option string) (retryAfter : option Z)
| ChatBody (message : string) (suggestions : list string) (metadata : Metadata)
| HealthBody (status : string) (entries : Z) (types : list (string * Z))
    (provider model : string)
| FailureBody (error message : string).

(** A header value is whatever the object literal holds: [undefined]
    when the allow-list is empty. *)
Record Response : Type := mkResponse {
  resp_body : Body;
  resp_status : Z;
  resp_headers : list (string * option string)
}.

(** The value of a header of a response. *)
Fixpoint header (name : string) (headers : list (string * option string))
    : option (option string) :=
  match headers with
  | [] => None
  | (k, v) :: rest => if String.eqb k name then Some v else header name rest
  end.

(** [origin?.startsWith(allowed)] under [some]: false for every entry
    when the request has no Origin header. *)
Definition originStartsWith (origin : option string) (allowed : string) : bool :=
  match origin with
  | Some o => startsWith o allowed
  | None => false
  end.

(** [[...new Set(xs)]]: the first occurrences, in order. *)
Fixpoint distinct (seen : list (option string)) (xs : list (option string))
    : list (option string) :=
  match xs with
  | [] => []
  | x :: rest =>
      if bool_decide (x ∈ seen) then distinct seen rest
      else x :: distinct (x :: seen) rest
  end.

(** The clock readings of one invocation: the unix seconds seen by the
    rate limiter and the two measured durations in milliseconds. *)
Record Clock : Type := mkClock {
  clock_now : Z;
  clock_ragTimeMs : Z;
  clock_aiTimeMs : Z
}.

(** What one invocation leaves behind: the response, the store, and the
    calls made to the generation provider, oldest first. *)
Record Handled : Type := mkHandled {
  response : Response;
  store : KVNamespace;
  providerCalls : list FetchCall
}.

Section Deployment.

(** [getKnowledgeBase()] and [stats] come from the generated module
    knowledge-data.js; the allow-list is the deployment's. *)
Variable allowedOrigins : list string.
Variable knowledgeBase : list Entry.
Variable stats : Stats.

Definition getCorsHeaders (origin : option string) : list (string * option string) :=
  let isAllowed := existsb (originStartsWith origin) allowedOrigins in
  [ ("Access-Control-Allow-Origin", if isAllowed then origin else head allowedOrigins);
    ("Access-Control-Allow-Methods", Some "POST, GET, OPTIONS");
    ("Access-Control-Allow-Headers", Some "Content-Type, X-Session-ID");
    ("Access-Control-Max-Age", Some "86400") ].

(** The value [getCorsHeaders] gives to Access-Control-Allow-Origin. *)
Definition corsOrigin (origin : option string) : option string :=
  if existsb (originStartsWith origin) allowedOrigins then origin else head allowedOrigins.

(** [{ 'Content-Type': 'application/json', ...getCorsHeaders(origin) }] *)
Definition jsonHeaders (origin : option string) : list (string * option string) :=
  ("Content-Type", Some "application/json") :: getCorsHeaders origin.

(** The response of the outer [catch]. *)
Definition internalError (origin : option string) : Response :=
  mkResponse
    (FailureBody "Internal server error. Please try again." getFallbackResponse)
    500 (jsonHeaders origin).

(** [!message || typeof message !== 'string' || message.trim().length === 0]
    is false: [Some text] is the accepted message. *)
Definition validMessage (message : option Json) : option string :=
  match message with
  | Some (JStr text) =>
      if negb (String.eqb text "") && negb (String.length (trim text) =? 0)%nat
      then Some text else None
  | _ => None
  end.

Definition handleChat (fetch : FetchCall -> FetchOutcome) (clock : Clock)
    (request : Request) (env : Env) (kv : KVNamespace) : Handled :=
  let origin := req_origin request in
  match req_body request with
  | None => mkHandled (internalError origin) kv []
  | Some body =>
      match getProp (Some body) "message" with
      | Throw _ => mkHandled (internalError origin) kv []
      | Normal message =>
          match validMessage message with
          | None =>
              mkHandled
                (mkResponse (ErrorBody "Please provide a message.") 400 (jsonHeaders origin))
                kv []
          | Some message =>
              let sessionId := getSessionId request in
              let ipAddress := getClientIP request in
              let (rateLimitResult, kv) :=
                checkRateLimit sessionId ipAddress (clock_now clock) kv in
              if negb (allowed rateLimitResult) then
                match retryAfter rateLimitResult with
                | None => mkHandled (internalError origin) kv []
                | Some seconds =>
                    mkHandled
                      (mkResponse
                         (RateLimitBody (reason rateLimitResult) (retryAfter rateLimitResult))
                         429
                         (("Content-Type", Some "application/json")
                          :: ("Retry-After", Some (showZ seconds))
                          :: getCorsHeaders origin))
                      kv []
                end
              else
                let retrievedEntries := retrieveEntries message knowledgeBase 5 in
                let ragTimeMs := clock_ragTimeMs clock in
                if (length retrievedEntries =? 0)%nat then
                  mkHandled
                    (mkResponse
                       (ChatBody NO_MATCH_RESPONSE DEFAULT_SUGGESTIONS
                          (mkMetadata ragTimeMs None None 0 None))
                       200 (jsonHeaders origin))
                    kv []
                else
                  match formatEntriesForContext retrievedEntries with
                  | Throw _ => mkHandled (internalError origin) kv []
                  | Normal ragContext =>
                      let provider := toLowerCase (orLiteral (AI_PROVIDER env) "openai") in
                      let apiKey :=
                        if String.eqb provider "anthropic" then ANTHROPIC_API_KEY env
                        else OPENAI_API_KEY env in
                      let (generated, calls) :=
                        generateResponse fetch message ragContext apiKey
                          (mkOptions (Some provider) (jsOr (AI_MODEL env) None)) in
                      let aiResponse :=
                        match generated with
                        | Normal text => text
                        | Throw _ => getFallbackResponse
                        end in
                      let aiTimeMs := clock_aiTimeMs clock in
                      mkHandled
                        (mkResponse
                           (ChatBody aiResponse DEFAULT_SUGGESTIONS
                              (mkMetadata ragTimeMs (Some aiTimeMs) (Some (ragTimeMs + aiTimeMs))
                                 (Z.of_nat (length retrievedEntries))
                                 (Some (distinct [] (map entry_topic retrievedEntries)))))
                           200 (jsonHeaders origin))
                        kv calls
                  end
          end
      end
  end.

Definition handleRequest (fetch : FetchCall -> FetchOutcome) (clock : Clock)
    (request : Request) (env : Env) (kv : KVNamespace) : Handled :=
  let origin := req_origin request in
  if String.eqb (req_method request) "OPTIONS" then
    mkHandled (mkResponse NoBody 204 (getCorsHeaders origin)) kv []
  else if String.eqb (req_method request) "GET" && String.eqb (req_pathname request) "/health" then
    mkHandled
      (mkResponse
         (HealthBody "ok" (totalEntries stats) (types stats)
            (orLiteral (AI_PROVIDER env) "openai") (orLiteral (AI_MODEL env) "default"))
         200 (jsonHeaders origin))
      kv []
  else if String.eqb (req_method request) "POST" && String.eqb (req_pathname request) "/chat" then
    handleChat fetch clock request env kv
  else
    mkHandled (mkResponse (TextBody "Not Found") 404 (getCorsHeaders origin)) kv [].

End Deployment.

End Worker.

Import Worker.

(** ** Further notions used by the properties *)

Module Scoring.

(** A character that can occur in a keyword: a lower-case letter, a
    digit or the underscore. *)
Definition isKeywordChar (c : ascii) : bool :=
  isLowerOrDigit c || (nat_of_ascii c =? 95)%nat.

(** What one keyword adds to the score of an entry: 3, 2, 2 and 1 for
    the primary text, the topic, the title and the tags, and 5 for the
    stored question of a question/answer entry. *)
Definition keywordWeight (entry : Entry) (keyword : string) : Z :=
  (if includes (toLowerCase (orEmpty (jsOr (entry_content entry) (entry_answer entry)))) keyword
   then 3 else 0)
  + (if includes (toLowerCase (orEmpty (entry_topic entry))) keyword then 2 else 0)
  + (if includes (toLowerCase (orEmpty (entry_title entry))) keyword then 2 else 0)
  + (if existsb (fun tag => includes tag keyword)
          (map toLowerCase (default [] (entry_tags entry)))
     then 1 else 0)
  + (if strictEq (entry_type entry) "qa_pair" && truthy (entry_question entry)
        && includes (toLowerCase (interpolate (entry_question entry))) keyword
     then 5 else 0).

(** The sum of a list of integers. *)
Definition sumZ (l : list Z) : Z := foldr Z.add 0 l.

(** The filter of the fallback path of [retrieveEntries]. *)
Definition isOverview (e : Entry) : Prop :=
  Is_true (strictEq (entry_type e) "narrative" && strictEq (entry_topic e) "about").

End Scoring.

Import Scoring.

Module StoreFacts.

(** The limit and the window length that go with a key of the store. *)
Definition limitOf (key : string) : Z :=
  if startsWith key "session:" then VISITOR_LIMIT else IP_LIMIT.

Definition windowOf (key : string) : Z :=
  if startsWith key "session:" then HOUR_IN_SECONDS else DAY_IN_SECONDS.

(** At clock reading [T] every record counts between 1 and the limit of
    its key, is kept by the store until its window ends, and has a
    window that ends within one window length. *)
Definition soundAt (T : Z) (kv : KVNamespace) : Prop :=
  forall key r, kv_data kv !! key = Some r ->
    1 <= count (kv_value r) <= limitOf key /\
    resetAt (kv_value r) <= kv_expiration r /\
    resetAt (kv_value r) <= T + windowOf key.

(** The clock reading of a request of a run. *)
Definition requestTime (request : string * string * Z) : Z := snd request.

(** The requests of one session, each with its address and its clock
    reading, and the requests from one address, each with its session
    and its clock reading. *)
Definition sessionVisits (sessionId : string) (visits : list (string * Z))
    : list (string * string * Z) :=
  map (fun visit => (sessionId, fst visit, snd visit)) visits.

Definition addressVisits (ipAddress : string) (visits : list (string * Z))
    : list (string * string * Z) :=
  map (fun visit => (fst visit, ipAddress, snd visit)) visits.

(** No window is running under [key] at [now]: a reader finds no
    record, or one whose [resetAt] has passed. *)
Definition noWindow (kv : KVNamespace) (now : Z) (key : string) : Prop :=
  match stored kv now key with
  | Some data => resetAt data <= now
  | None => True
  end.

(** The value of a base-36 digit. *)
Definition digitValue (c : ascii) : Z :=
  let n := Z.of_nat (nat_of_ascii c) in if n <? 58 then n - 48 else n - 87.

(** The number a base-36 numeral denotes, read from the left. *)
Fixpoint parseFrom (value : Z) (s : string) : Z :=
  match s with
  | EmptyString => value
  | String c rest => parseFrom (value * 36 + digitValue c) rest
  end.

Definition parseBase36 (s : string) : Z := parseFrom 0 s.

(** The polynomial in 31 of the character codes, without wrap-around. *)
Fixpoint polyFrom (h : Z) (s : string) : Z :=
  match s with
  | EmptyString => h
  | String c rest => polyFrom (h * 31 + charCode c) rest
  end.

Definition polyHash (s : string) : Z := polyFrom 0 s.

End StoreFacts.

Import StoreFacts.

Module Routes.

(** The request is routed to [handleChat]. *)
Definition isChatRoute (request : Request) : bool :=
  String.eqb (req_method request) "POST" && String.eqb (req_pathname request) "/chat".

(** The message of a chat request that passes the check of line 695:
    the body parses, its [message] can be read, and the check accepts
    it. *)
Definition acceptedMessage (request : Request) : option string :=
  match req_body request with
  | Some body =>
      match getProp (Some body) "message" with
      | Normal message => validMessage message
      | Throw _ => None
      end
  | None => None
  end.

(** The provider name [handleChat] passes on. *)
Definition chosenProvider (env : Env) : string :=
  toLowerCase (orLiteral (AI_PROVIDER env) "openai").

(** The text that [generateResponse] gets out of the outcome of its
    call (lines 159-165): none when the call is rejected, answered
    outside 200-299, answered with a body that is not JSON, or answered
    with a JSON body in which the provider's extractor finds no text. *)
Definition answerText (provider : Provider) (outcome : FetchOutcome) : option string :=
  match outcome with
  | Responded status (Some data) =>
      if isOk status then
        match extractResponse provider data with
        | Normal text => Some text
        | Throw _ => None
        end
      else None
  | _ => None
  end.

End Routes.

Import Routes.

(** ** scripts/validate.js *)

Module Validator.

Definition VALID_TYPES : list string :=
  ["fact"; "narrative"; "qa_pair"; "technical"; "fit_assessment"].
Definition VALID_CONFIDENCE : list string := ["verified"; "inferred"; "approximate"].
Definition VALID_FIT_TYPES : list string := ["good_fit"; "not_ideal"; "red_flag"].

(** The items of [ID_PATTERN = /^rag-\d{4}-\d{2}-\d{2}-\d{3}$/]: a
    literal character or a decimal digit. *)
Inductive PatternItem : Type :=
| Lit (c : ascii)
| Digit.

Definition ID_PATTERN : list PatternItem :=
  [ Lit "r"; Lit "a"; Lit "g"; Lit "-"; Digit; Digit; Digit; Digit;
    Lit "-"; Digit; Digit; Lit "-"; Digit; Digit; Lit "-"; Digit; Digit; Digit ].

Definition isDigit (c : ascii) : bool :=
  let n := nat_of_ascii c in (48 <=? n)%nat && (n <=? 57)%nat.

(** [pattern.test(s)] for a pattern anchored at both ends. *)
Fixpoint test (pattern : list PatternItem) (s : string) : bool :=
  match pattern, s with
  | [], EmptyString => true
  | Lit c :: pattern, String d rest => Ascii.eqb d c && test pattern rest
  | Digit :: pattern, String d rest => isDigit d && test pattern rest
  | _, _ => false
  end.

(** One parsed line of the file under validation: the properties the
    retrieval reads, and those only the validator reads.  A property
    that is present is a string, and [tags], when present, is an array
    of strings: on such lines the branch 'tags must be an array' of
    [validateEntry] is not taken. *)
Record KnowledgeLine : Type := mkLine {
  line_entry : Entry;
  line_source : option string;
  line_fit_type : option string;
  line_criteria : option string;
  line_explanation : option string
}.

(** [xs.includes(v)] for a string-valued property. *)
Definition listed (xs : list string) (v : option string) : bool :=
  existsb (String.eqb (interpolate v)) xs.

(** [s !== s.toLowerCase() || s.includes(' ')] *)
Definition notSnakeCase (s : string) : bool :=
  negb (String.eqb s (toLowerCase s)) || includes s " ".

(** [!v || v.trim() === ''] *)
Definition blank (v : option string) : bool :=
  negb (truthy v) || String.eqb (trim (interpolate v)) "".

(** The two arrays [validateEntry] fills, [errors] and [warnings], and
    the two [push]es. *)
Definition Issues : Type := (list string * list string)%type.

Definition pushError (message : string) (issues : Issues) : Issues :=
  ((fst issues ++ [message])%list, snd issues).

Definition pushWarning (message : string) (issues : Issues) : Issues :=
  (fst issues, (snd issues ++ [message])%list).

(** Lines 31-35. *)
Definition checkId (entry : Entry) (issues : Issues) : Issues :=
  if negb (truthy (entry_id entry)) then pushError "Missing required field: id" issues
  else if negb (test ID_PATTERN (interpolate (entry_id entry))) then
    pushError ("Invalid id format: " +:+ dquote +:+ interpolate (entry_id entry) +:+ dquote
               +:+ " (expected: rag-YYYY-MM-DD-###)") issues
  else issues.

(** Lines 37-41. *)
Definition checkType (entry : Entry) (issues : Issues) : Issues :=
  if negb (truthy (entry_type entry)) then pushError "Missing required field: type" issues
  else if negb (listed VALID_TYPES (entry_type entry)) then
    pushError ("Invalid type: " +:+ dquote +:+ interpolate (entry_type entry) +:+ dquote
               +:+ " (expected: " +:+ join ", " VALID_TYPES +:+ ")") issues
  else issues.

(** Lines 43-47. *)
Definition checkTopic (entry : Entry) (issues : Issues) : Issues :=
  if negb (truthy (entry_topic entry)) then pushError "Missing required field: topic" issues
  else if notSnakeCase (interpolate (entry_topic entry)) then
    pushWarning ("Topic " +:+ dquote +:+ interpolate (entry_topic entry) +:+ dquote
                 +:+ " should be snake_case") issues
  else issues.

(** Lines 49-53. *)
Definition checkConfidence (entry : Entry) (issues : Issues) : Issues :=
  if negb (truthy (entry_confidence entry)) then
    pushError "Missing required field: confidence" issues
  else if negb (listed VALID_CONFIDENCE (entry_confidence entry)) then
    pushError ("Invalid confidence: " +:+ dquote +:+ interpolate (entry_confidence entry)
               +:+ dquote +:+ " (expected: " +:+ join ", " VALID_CONFIDENCE +:+ ")") issues
  else issues.

(** Lines 55-57. *)
Definition checkSource (line : KnowledgeLine) (issues : Issues) : Issues :=
  if negb (truthy (line_source line)) then pushError "Missing required field: source" issues
  else issues.

(** Lines 59-76. *)
Definition checkTags (entry : Entry) (issues : Issues) : Issues :=
  match entry_tags entry with
  | None => pushError "Missing required field: tags" issues
  | Some tags =>
      if (length tags =? 0)%nat then pushError "tags array must not be empty" issues
      else
        let issues :=
          if truthy (entry_confidence entry)
             && negb (existsb (String.eqb (interpolate (entry_confidence entry))) tags)
          then pushWarning ("tags should include confidence level " +:+ dquote
                            +:+ interpolate (entry_confidence entry) +:+ dquote) issues
          else issues in
        foldl (fun issues tag =>
                 if notSnakeCase tag then
                   pushWarning ("Tag " +:+ dquote +:+ tag +:+ dquote +:+ " should be snake_case")
                               issues
                 else issues)
              issues tags
  end.

(** Lines 79-83. *)
Definition checkContent (entry : Entry) (issues : Issues) : Issues :=
  if strictEq (entry_type entry) "fact" || strictEq (entry_type entry) "narrative"
     || strictEq (entry_type entry) "technical" then
    if blank (entry_content entry) then
      pushError ("Missing required field for " +:+ interpolate (entry_type entry)
                 +:+ ": content") issues
    else issues
  else issues.

(** Lines 85-89. *)
Definition checkTitle (entry : Entry) (issues : Issues) : Issues :=
  if strictEq (entry_type entry) "narrative" || strictEq (entry_type entry) "technical" then
    if negb (truthy (entry_title entry)) then
      pushWarning (interpolate (entry_type entry)
                   +:+ " entries should have a title field (used in retrieval scoring)") issues
    else issues
  else issues.

(** Lines 91-98. *)
Definition checkQaPair (entry : Entry) (issues : Issues) : Issues :=
  if strictEq (entry_type entry) "qa_pair" then
    let issues :=
      if blank (entry_question entry) then
        pushError "Missing required field for qa_pair: question" issues
      else issues in
    if blank (entry_answer entry) then
      pushError "Missing required field for qa_pair: answer" issues
    else issues
  else issues.

(** Lines 100-112. *)
Definition checkFitAssessment (line : KnowledgeLine) (issues : Issues) : Issues :=
  if strictEq (entry_type (line_entry line)) "fit_assessment" then
    let issues :=
      if negb (truthy (line_fit_type line)) then
        pushError "Missing required field for fit_assessment: fit_type" issues
      else if negb (listed VALID_FIT_TYPES (line_fit_type line)) then
        pushError ("Invalid fit_type: " +:+ dquote +:+ interpolate (line_fit_type line)
                   +:+ dquote +:+ " (expected: " +:+ join ", " VALID_FIT_TYPES +:+ ")") issues
      else issues in
    let issues :=
      if negb (truthy (line_criteria line)) then
        pushError "Missing required field for fit_assessment: criteria" issues
      else issues in
    if negb (truthy (line_explanation line)) then
      pushError "Missing required field for fit_assessment: explanation" issues
    else issues
  else issues.

(** Lines 114-121. *)
Definition checkQuality (entry : Entry) (issues : Issues) : Issues :=
  let content := orEmpty (jsOr (entry_content entry) (entry_answer entry)) in
  let issues :=
    if (0 <? String.length content)%nat && (String.length content <? 20)%nat then
      pushWarning "Content is very short (< 20 chars) — may not be useful for retrieval" issues
    else issues in
  if strictEq (entry_type entry) "narrative" && (String.length content <? 100)%nat then
    pushWarning "Narrative content is short (< 100 chars) — narratives should tell a story"
                issues
  else issues.

(** [validateEntry(entry, lineNumber)]: the errors and the warnings, in
    the order of the pushes.  [lineNumber] is not read by the function. *)
Definition validateEntry (line : KnowledgeLine) : Issues :=
  let entry := line_entry line in
  let issues : Issues := ([], []) in
  let issues := checkId entry issues in
  let issues := checkType entry issues in
  let issues := checkTopic entry issues in
  let issues := checkConfidence entry issues in
  let issues := checkSource line issues in
  let issues := checkTags entry issues in
  let issues := checkContent entry issues in
  let issues := checkTitle entry issues in
  let issues := checkQaPair entry issues in
  let issues := checkFitAssessment line issues in
  checkQuality entry issues.

(** The counters of [main] that decide its result. *)
Record Tally : Type := mkTally {
  totalErrors : nat;
  totalWarnings : nat;
  ids : list string;
  duplicateIds : list (string * nat)
}.

(** The body of [lines.forEach] in [main]; [None] is a line on which
    [JSON.parse] throws.  [lineNumber] counts from 1. *)
Definition checkLine (strict : bool) (tally : Tally) (lineNumber : nat)
    (line : option KnowledgeLine) : Tally :=
  match line with
  | None =>
      mkTally (totalErrors tally + 1) (totalWarnings tally) (ids tally) (duplicateIds tally)
  | Some entry =>
      let id := entry_id (line_entry entry) in
      let duplicates :=
        if truthy id && bool_decide (interpolate id ∈ ids tally)
        then (duplicateIds tally ++ [(interpolate id, lineNumber)])%list
        else duplicateIds tally in
      let seen :=
        if truthy id && negb (bool_decide (interpolate id ∈ ids tally))
        then (ids tally ++ [interpolate id])%list
        else ids tally in
      let '(errors, warnings) := validateEntry entry in
      let total := (totalErrors tally + length errors)%nat in
      if strict then
        mkTally (total + length warnings) (totalWarnings tally) seen duplicates
      else
        mkTally total (totalWarnings tally + length warnings) seen duplicates
  end.

Fixpoint checkLines (strict : bool) (tally : Tally) (lineNumber : nat)
    (lines : list (option KnowledgeLine)) : Tally :=
  match lines with
  | [] => tally
  | line :: rest => checkLines strict (checkLine strict tally lineNumber line) (S lineNumber) rest
  end.

(** The argument of the final [process.exit] of [main]: every duplicate
    id counts as one more error. *)
Definition exitCode (strict : bool) (lines : list (option KnowledgeLine)) : Z :=
  let tally := checkLines strict (mkTally 0 0 [] []) 1 lines in
  let totalErrors := (totalErrors tally + length (duplicateIds tally))%nat in
  if (0 <? totalErrors)%nat then 1 else 0.

End Validator.

Import Validator.

Module ValidatorFacts.

(** The ids of the lines that parse and carry one, in file order. *)
Fixpoint lineIds (lines : list (option KnowledgeLine)) : list string :=
  match lines with
  | [] => []
  | Some line :: rest =>
      if truthy (entry_id (line_entry line))
      then interpolate (entry_id (line_entry line)) :: lineIds rest
      else lineIds rest
  | None :: rest => lineIds rest
  end.

(** [s] is a run of [n] decimal digits. *)
Definition digits (n : nat) (s : string) : Prop :=
  String.length s = n /\ allChars (fun c => isDigit c = true) s.

(** A line counts no error: it parses, [validateEntry] reports no error
    for it and, under [--strict], no warning either. *)
Definition cleanLine (strict : bool) (line : option KnowledgeLine) : Prop :=
  exists entry, line = Some entry /\
    fst (validateEntry entry) = [] /\
    (strict = true -> snd (validateEntry entry) = []).

End ValidatorFacts.

Import ValidatorFacts.

(** ** knowledge-loader.js *)

Module Loader.

(** [counts[key] = (counts[key] || 0) + 1] over the entries, for the
    property read by [key]; a missing property counts under the key
    'undefined'.  Under a name that every object inherits
    ([inheritedNames]) the read [counts[key]] yields the inherited
    member and the sum is no number: the result is [None] then. *)
Definition countBy (key : Entry -> option string) (entries : list Entry)
    : option (gmap string Z) :=
  foldl (fun counts entry =>
           match counts with
           | Some counts =>
               if existsb (String.eqb (interpolate (key entry))) inheritedNames then None
               else Some (<[interpolate (key entry) :=
                              default 0 (counts !! interpolate (key entry)) + 1]> counts)
           | None => None
           end)
        (Some ∅) entries.

(** What the generated module exports. *)
Record KnowledgeModule : Type := mkModule {
  module_knowledgeBase : list Entry;
  module_totalEntries : Z;
  module_types : option (gmap string Z);
  module_topics : option (gmap string Z)
}.

(** [generateKnowledgeModule()] on the lines of knowledge.jsonl, [None]
    being a line on which [JSON.parse] throws: such a line is skipped. *)
Definition generateKnowledgeModule (lines : list (option Entry)) : KnowledgeModule :=
  let entries :=
    foldl (fun entries line =>
             match line with
             | Some entry => (entries ++ [entry])%list
             | None => entries
             end) [] lines in
  mkModule entries (Z.of_nat (length entries))
    (countBy entry_type entries) (countBy entry_topic entries).


End Loader.

Import Loader.

(** ** Sample data *)

(** Entries of the repository's retrieval test suite. *)
Definition test001 : Entry :=
  mkEntry (Some "test-001") (Some "fact") (Some "career_history") None
    (Some "Jane worked at Acme Corp for 8 years as a software engineer specializing in Python and machine learning.")
    None None (Some "verified")
    (Some ["career"; "acme"; "python"; "machine-learning"; "verified"]).

Definition test002 : Entry :=
  mkEntry (Some "test-002") (Some "qa_pair") (Some "skills") None None
    (Some "What programming languages does Jane know?")
    (Some "Jane is proficient in Python, JavaScript, TypeScript, and Go. She has experience with Rust and C++ as well.")
    (Some "verified")
    (Some ["programming"; "languages"; "skills"; "verified"]).

Definition test003 : Entry :=
  mkEntry (Some "test-003") (Some "narrative") (Some "about") (Some "Professional Overview")
    (Some "Jane is a senior software engineer with 12 years of experience building scalable web applications and data pipelines.")
    None None (Some "verified")
    (Some ["overview"; "experience"; "verified"]).

Definition test008 : Entry :=
  mkEntry (Some "test-008") (Some "fact") (Some "skills") None
    (Some "Jane is certified in AWS Solutions Architect and Google Cloud Professional Data Engineer.")
    None None (Some "inferred")
    (Some ["cloud"; "aws"; "gcp"; "certifications"; "inferred"]).

(** A sample invocation: a chat request of a visitor of the first
    allowed site, against the test entries. *)
Definition sampleKnowledgeBase : list Entry := [test001; test002; test003; test008].

Definition sampleStats : Stats :=
  mkStats 4 [("fact", 2); ("qa_pair", 1); ("narrative", 1)].

Definition sampleRequest : Request :=
  mkRequest "POST" "/chat" (Some "https://yoursite.com") (Some "session-1")
    (Some "203.0.113.7") None (Some "Mozilla/5.0")
    (Some (JObj [("message", JStr "What programming languages does Jane know?")])).

Definition sampleEnv : Env := mkEnv None None (Some "sk-test") None.

Definition sampleClock : Clock := mkClock 1700000000 2 350.

(** A store in which the sample visitor has used up the quota of the
    hour, and an environment that names its provider in mixed case. *)
Definition sampleBusyStore : KVNamespace :=
  snd (runRequests (visits "session-1" "203.0.113.7" (repeat 1699999990 10)) kvEmpty).

Definition sampleAnthropicEnv : Env :=
  mkEnv (Some "Anthropic") None None (Some "sk-ant-test").

(** * Properties *)

(** ** JavaScript strings *)

Section StringFacts.

Lemma append_cons (c : ascii) (s t : string) : String c s +:+ t = String c (s +:+ t).
Proof. reflexivity. Qed.

Lemma append_nil (t : string) : EmptyString +:+ t = t.
Proof. reflexivity. Qed.

Lemma startsWith_spec (s p : string) :
  startsWith s p = true <-> exists rest, s = p +:+ rest.
Proof.
  unfold startsWith. revert s.
  induction p as [|c p IH]; intros s.
  - split; [intros _; exists s; reflexivity | intros _; destruct s; reflexivity].
  - destruct s as [|d s]; simpl.
    + split; [discriminate | intros [rest H]; rewrite append_cons in H; discriminate].
    + destruct (Ascii.ascii_dec c d) as [->|Hne].
      * rewrite IH. split; intros [rest H]; exists rest;
          rewrite append_cons in *; congruence.
      * split; [discriminate | intros [rest H]; rewrite append_cons in H; congruence].
Qed.

Lemma startsWith_refl (s : string) : startsWith s s = true.
Proof.
  apply startsWith_spec. exists EmptyString.
  induction s as [|c s IH]; [reflexivity | rewrite append_cons; congruence].
Qed.

Lemma startsWith_mapChars (f : ascii -> ascii) (s p : string) :
  startsWith s p = true -> startsWith (mapChars f s) (mapChars f p) = true.
Proof.
  unfold startsWith. revert s.
  induction p as [|c p IH]; intros s; [destruct s; reflexivity|].
  destruct s as [|d s]; simpl; [discriminate|].
  destruct (Ascii.ascii_dec c d) as [->|Hne]; [|discriminate].
  intros H. destruct (Ascii.ascii_dec (f d) (f d)); [auto | congruence].
Qed.

Lemma includes_nil (sub : string) :
  includes EmptyString sub = startsWith EmptyString sub || false.
Proof. reflexivity. Qed.

Lemma includes_cons (c : ascii) (s sub : string) :
  includes (String c s) sub = startsWith (String c s) sub || includes s sub.
Proof. reflexivity. Qed.

Lemma includes_mapChars (f : ascii -> ascii) (s sub : string) :
  includes s sub = true -> includes (mapChars f s) (mapChars f sub) = true.
Proof.
  induction s as [|c s IH]; intros H.
  - rewrite includes_nil in H. apply orb_true_iff in H as [H|H]; [|discriminate].
    apply (startsWith_mapChars f) in H.
    change (mapChars f EmptyString) with EmptyString in *.
    rewrite includes_nil, H. reflexivity.
  - rewrite includes_cons in H. apply orb_true_iff in H as [H|H].
    + apply (startsWith_mapChars f) in H.
      change (mapChars f (String c s)) with (String (f c) (mapChars f s)) in *.
      rewrite includes_cons, H. reflexivity.
    + change (mapChars f (String c s)) with (String (f c) (mapChars f s)).
      rewrite includes_cons, (IH H). apply orb_true_r.
Qed.

Lemma includes_empty_l (sub : string) : includes EmptyString sub = true -> sub = EmptyString.
Proof.
  rewrite includes_nil. unfold startsWith. destruct sub; simpl; [reflexivity | discriminate].
Qed.

(** [includes] finds exactly the substrings. *)
Lemma includes_spec (s sub : string) :
  includes s sub = true <-> exists before after, s = before +:+ sub +:+ after.
Proof.
  induction s as [|c s IH].
  - rewrite includes_nil, orb_false_r, startsWith_spec. split.
    + intros [rest H]. exists EmptyString, rest. exact H.
    + intros (before & after & H). destruct before as [|b before].
      * exists after. exact H.
      * rewrite append_cons in H. discriminate.
  - rewrite includes_cons, orb_true_iff, startsWith_spec, IH. split.
    + intros [[rest H] | (before & after & H)].
      * exists EmptyString, rest. exact H.
      * exists (String c before), after. rewrite append_cons, H. reflexivity.
    + intros (before & after & H). destruct before as [|b before].
      * left. exists after. exact H.
      * right. rewrite append_cons in H. injection H as _ H.
        exists before, after. exact H.
Qed.

Lemma lowerChar_idem (c : ascii) : lowerChar (lowerChar c) = lowerChar c.
Proof. destruct c as [[] [] [] [] [] [] [] []]; reflexivity. Qed.

Lemma stripped_lower (c : ascii) :
  let c' := lowerChar c in
  lowerChar (if isWord c' || isSpace c' then c' else " "%char)
  = (if isWord c' || isSpace c' then c' else " "%char).
Proof. destruct c as [[] [] [] [] [] [] [] []]; reflexivity. Qed.

Lemma allChars_app P (s t : string) :
  allChars P s -> allChars P t -> allChars P (s +:+ t).
Proof. induction s as [|c s IH]; simpl; [auto | intros [? ?] ?; auto]. Qed.

Lemma allChars_lower_fixed (s : string) :
  allChars (fun c => lowerChar c = c) s -> toLowerCase s = s.
Proof.
  unfold toLowerCase. induction s as [|c s IH]; simpl; [reflexivity|].
  intros [Hc Hs]. rewrite Hc, (IH Hs). reflexivity.
Qed.

Lemma splitWs_allChars P (s cur : string) (inRun : bool) :
  allChars P cur -> allChars P s -> Forall (allChars P) (splitWs cur inRun s).
Proof.
  revert cur inRun. induction s as [|c s IH]; intros cur inRun Hcur Hs; simpl.
  - constructor; [assumption | constructor].
  - destruct Hs as [Hc Hs]. destruct (isSpace c).
    + destruct inRun; [apply IH; simpl; auto|].
      constructor; [assumption | apply IH; simpl; auto].
    + apply IH; [|assumption]. apply allChars_app; simpl; auto.
Qed.

End StringFacts.

(** ** Retrieval *)

Section RetrievalFacts.

Lemma stripPunctuation_lower_fixed (question : string) :
  allChars (fun c => lowerChar c = c) (stripPunctuation (toLowerCase question)).
Proof.
  unfold stripPunctuation, toLowerCase.
  induction question as [|c s IH]; simpl; [exact I|].
  split; [apply stripped_lower | exact IH].
Qed.

(** A keyword produced by [extractKeywords] is not empty and is its own
    lower-case form. *)
Lemma extractKeywords_token (question K : string) :
  K ∈ extractKeywords question -> K <> EmptyString /\ toLowerCase K = K.
Proof.
  unfold extractKeywords. intros H.
  apply list_elem_of_filter in H as [Hlen Hin].
  split.
  - intros ->. simpl in Hlen. exact Hlen.
  - apply allChars_lower_fixed.
    pose proof (splitWs_allChars (fun c => lowerChar c = c)
                  (stripPunctuation (toLowerCase question)) EmptyString false I
                  (stripPunctuation_lower_fixed question)) as Hall.
    rewrite Forall_forall in Hall. apply Hall. exact Hin.
Qed.

(** The per-keyword additions never lower the score. *)
Lemma scoreKeyword_mono content topic title tags score keyword :
  score <= scoreKeyword content topic title tags score keyword.
Proof.
  unfold scoreKeyword.
  destruct (includes content keyword), (includes topic keyword),
    (includes title keyword), (existsb _ tags); lia.
Qed.

Lemma foldl_scoreKeyword_mono content topic title tags keywords score :
  score <= foldl (scoreKeyword content topic title tags) score keywords.
Proof.
  revert score. induction keywords as [|k ks IH]; intros score; simpl; [lia|].
  pose proof (scoreKeyword_mono content topic title tags score k).
  specialize (IH (scoreKeyword content topic title tags score k)). lia.
Qed.

Lemma foldl_scoreQuestion_mono questionLower keywords score :
  score <= foldl (scoreQuestion questionLower) score keywords.
Proof.
  revert score. induction keywords as [|k ks IH]; intros score; simpl; [lia|].
  specialize (IH (scoreQuestion questionLower score k)).
  unfold scoreQuestion in *. destruct (includes questionLower k); lia.
Qed.

Lemma scoreQuestion_hit questionLower score K :
  includes questionLower K = true -> scoreQuestion questionLower score K = score + 5.
Proof. unfold scoreQuestion. intros ->. reflexivity. Qed.

Lemma scoreQuestion_mono questionLower score kw :
  score <= scoreQuestion questionLower score kw.
Proof. unfold scoreQuestion. destruct (includes questionLower kw); lia. Qed.

(** One keyword found in the question is worth at least 5. *)
Lemma foldl_scoreQuestion_boost questionLower keywords K score :
  K ∈ keywords -> includes questionLower K = true ->
  score + 5 <= foldl (scoreQuestion questionLower) score keywords.
Proof.
  revert score. induction keywords as [|k ks IH]; intros score Hin Hinc.
  - inversion Hin.
  - simpl. apply elem_of_cons in Hin as [<-|Hin].
    + pose proof (foldl_scoreQuestion_mono questionLower ks
                    (scoreQuestion questionLower score K)) as Hm.
      rewrite (scoreQuestion_hit _ _ _ Hinc) in Hm |- *. lia.
    + specialize (IH (scoreQuestion questionLower score k) Hin Hinc).
      pose proof (scoreQuestion_mono questionLower score k). lia.
Qed.

(** Keywords that match nothing leave the score where it was. *)
Lemma foldl_scoreKeyword_none content topic title tags keywords score :
  Forall (fun kw => includes content kw = false /\ includes topic kw = false /\
                    includes title kw = false /\
                    existsb (fun tag => includes tag kw) tags = false) keywords ->
  foldl (scoreKeyword content topic title tags) score keywords = score.
Proof.
  intros H. revert score. induction H as [|k ks (Hc & Ht & Hi & Hg) _ IH]; intros score.
  - reflexivity.
  - simpl. replace (scoreKeyword content topic title tags score k) with score; [apply IH|].
    unfold scoreKeyword. rewrite Hc, Ht, Hi, Hg. reflexivity.
Qed.

Lemma foldl_scoreQuestion_none questionLower keywords score :
  Forall (fun kw => includes questionLower kw = false) keywords ->
  foldl (scoreQuestion questionLower) score keywords = score.
Proof.
  intros H. revert score. induction H as [|k ks Hk _ IH]; intros score.
  - reflexivity.
  - simpl. replace (scoreQuestion questionLower score k) with score; [apply IH|].
    unfold scoreQuestion. rewrite Hk. reflexivity.
Qed.

Lemma scoreEntry_nonneg entry keywords : 0 <= scoreEntry entry keywords.
Proof.
  unfold scoreEntry.
  set (base := foldl _ 0 keywords).
  assert (0 <= base) by apply foldl_scoreKeyword_mono.
  destruct (strictEq (entry_type entry) "qa_pair" && truthy (entry_question entry)).
  - pose proof (foldl_scoreQuestion_mono
                  (toLowerCase (interpolate (entry_question entry))) keywords base).
    destruct (strictEq (entry_confidence entry) "verified"); lia.
  - destruct (strictEq (entry_confidence entry) "verified"); lia.
Qed.

End RetrievalFacts.

(** ** The repository's tests, and samples *)

Example extractKeywords_test1 :
  extractKeywords "What programming languages does Jane know?"
  = ["programming"; "languages"; "jane"; "know"].
Proof. vm_compute. reflexivity. Qed.

Example extractKeywords_test2 : extractKeywords "Tell me about the" = [].
Proof. vm_compute. reflexivity. Qed.

Example extractKeywords_test4 :
  extractKeywords "PYTHON and JAVASCRIPT experience" = ["python"; "javascript"; "experience"] /\
  extractKeywords "Tell me about yourself" = ["yourself"] /\
  extractKeywords "a an the" = [] /\
  extractKeywords "AWS cloud certifications" = ["aws"; "cloud"; "certifications"] /\
  extractKeywords "" = [].
Proof. vm_compute. repeat split; reflexivity. Qed.

Example splitWhitespace_edges :
  splitWhitespace " a  b " = [""; "a"; "b"; ""] /\ splitWhitespace "" = [""].
Proof. vm_compute. split; reflexivity. Qed.

Example extractKeywords_test3 :
  extractKeywords "What about machine-learning?" = ["machine"; "learning"].
Proof. vm_compute. reflexivity. Qed.

Example scoreEntry_test1 : scoreEntry test001 ["python"] = 5.
Proof. vm_compute. reflexivity. Qed.

Example scoreEntry_test2 : scoreEntry test002 ["programming"] = 7.
Proof. vm_compute. reflexivity. Qed.

Example scoreEntry_test3 :
  scoreEntry test001 ["quantum"; "blockchain"; "metaverse"] = 1 /\
  scoreEntry test008 ["quantum"; "blockchain"; "metaverse"] = 0.
Proof. vm_compute. split; reflexivity. Qed.

Example retrieveEntries_test1 :
  map entry_id
    (retrieveEntries "What programming languages does Jane know?"
       [test001; test002; test003; test008] 5)
  = [Some "test-002"; Some "test-001"; Some "test-003"; Some "test-008"].
Proof. vm_compute. reflexivity. Qed.

Example retrieveEntries_test2 :
  map entry_id (retrieveEntries "Tell me about the" [test001; test002; test003; test008] 5)
  = [Some "test-003"].
Proof. vm_compute. reflexivity. Qed.

Example checkRateLimit_eleven :
  map allowed
    (fst (runRequests
            (map (fun now => ("s", "1.2.3.4", now)) [0; 1; 2; 3; 4; 5; 6; 7; 8; 9; 10; 3599; 3600])
            kvEmpty))
  = [true; true; true; true; true; true; true; true; true; true; false; false; true].
Proof. vm_compute. reflexivity. Qed.


Example getSessionId_derived :
  hashString "abc" = "22ci" /\
  getSessionId (mkRequest "POST" "/chat" None None (Some "203.0.113.7") None (Some "abc") None)
  = "203.0.113.7-22ci" /\
  getClientIP (mkRequest "POST" "/chat" None None None (Some "198.51.100.4, 10.0.0.1") None None)
  = "198.51.100.4".
Proof. vm_compute. repeat split; reflexivity. Qed.

Example reasons_name_the_limit :
  sessionReason = "Rate limit exceeded. You can send 10 messages per hour." /\
  ipReason = "IP rate limit exceeded. Maximum 100 messages per day.".
Proof. vm_compute. split; reflexivity. Qed.

Example extractResponse_samples :
  extractResponse openai (JObj [("choices", JArr [])]) = Throw (NoResponse "OpenAI") /\
  extractResponse openai (JObj []) = Throw (NoResponse "OpenAI") /\
  extractResponse openai (JObj [("choices", JArr [JObj []])]) = Throw TypeError /\
  extractResponse openai
    (JObj [("choices", JArr [JObj [("message", JObj [("content", JStr " Hello. ")])]])])
  = Normal "Hello." /\
  extractResponse anthropic (JObj [("content", JArr [JObj [("text", JStr "Hi")]])]) = Normal "Hi" /\
  extractResponse anthropic JNull = Throw TypeError.
Proof. vm_compute. repeat split; reflexivity. Qed.

Example buildPayload_samples :
  let testMessages :=
    [ mkMessage "system" "You are a helpful assistant.";
      mkMessage "system" "Knowledge base context here.";
      mkMessage "user" "Tell me about your experience." ] in
  buildPayload anthropic testMessages "claude-haiku-4-5-20251001" (7 # 10)%Q 500
  = AnthropicPayload "claude-haiku-4-5-20251001" 500 (7 # 10)%Q
      "You are a helpful assistant.

Knowledge base context here."
      [mkMessage "user" "Tell me about your experience."] /\
  buildPayload openai testMessages "gpt-3.5-turbo" (7 # 10)%Q 500
  = OpenAIPayload "gpt-3.5-turbo" testMessages (7 # 10)%Q 500 1 0 0.
Proof. vm_compute. split; reflexivity. Qed.

(** ** The comparator sort *)

Section SortFacts.

Lemma insertItem_perm x l : insertItem x l ≡ₚ x :: l.
Proof.
  induction l as [|y r IH]; simpl; [reflexivity|].
  destruct (compareItems x y <=? 0); [reflexivity|].
  rewrite IH. apply Permutation_swap.
Qed.

Lemma sortItems_perm l : sortItems l ≡ₚ l.
Proof.
  induction l as [|x r IH]; simpl; [reflexivity|].
  rewrite insertItem_perm, IH. reflexivity.
Qed.

Lemma insertItem_sorted x l :
  StronglySorted descending l -> StronglySorted descending (insertItem x l).
Proof.
  induction l as [|y r IH]; intros Hs; simpl.
  - repeat constructor.
  - apply StronglySorted_inv in Hs as [Hr Hy].
    destruct (compareItems x y <=? 0) eqn:Hc.
    + apply Z.leb_le in Hc. unfold compareItems in Hc.
      constructor; [constructor; assumption|].
      constructor; [unfold descending; lia|].
      eapply Forall_impl; [exact Hy|]. unfold descending. intros z Hz. lia.
    + apply Z.leb_gt in Hc. unfold compareItems in Hc.
      constructor; [apply IH; assumption|].
      rewrite insertItem_perm. constructor; [unfold descending; lia | assumption].
Qed.

Lemma sortItems_sorted l : StronglySorted descending (sortItems l).
Proof.
  induction l as [|x r IH]; simpl; [constructor | apply insertItem_sorted, IH].
Qed.

(** Stability: the items of one score keep their relative order. *)
Lemma insertItem_stable (s : Z) x l :
  filter (fun y => item_score y = s) (insertItem x l)
  = filter (fun y => item_score y = s) (x :: l).
Proof.
  induction l as [|y r IH]; simpl; [reflexivity|].
  destruct (compareItems x y <=? 0) eqn:Hc; [reflexivity|].
  apply Z.leb_gt in Hc. unfold compareItems in Hc.
  rewrite (filter_cons _ y), IH, !filter_cons.
  destruct (decide (item_score x = s)), (decide (item_score y = s)); try reflexivity.
  exfalso. lia.
Qed.

Lemma sortItems_stable (s : Z) l :
  filter (fun y => item_score y = s) (sortItems l) = filter (fun y => item_score y = s) l.
Proof.
  induction l as [|x r IH]; simpl; [reflexivity|].
  rewrite insertItem_stable, !filter_cons, IH. reflexivity.
Qed.

Lemma slice0_prefix {A} (l : list A) (n : Z) : slice0 l n `prefix_of` l.
Proof. unfold slice0. destruct (n <? 0); apply prefix_take. Qed.

Lemma slice0_length {A} (l : list A) (n : Z) :
  0 <= n -> Z.of_nat (length (slice0 l n)) <= n.
Proof.
  intros Hn. unfold slice0. destruct (Z.ltb_spec n 0); [lia|].
  rewrite length_take. lia.
Qed.

Lemma slice0_all {A} (l : list A) : slice0 l (Z.of_nat (length l)) = l.
Proof.
  unfold slice0. destruct (Z.ltb_spec (Z.of_nat (length l)) 0); [lia|].
  rewrite Nat2Z.id. apply firstn_all.
Qed.

Lemma filter_prefix {A} (P : A -> Prop) `{forall x, Decision (P x)} (l1 l2 : list A) :
  l1 `prefix_of` l2 -> filter P l1 `prefix_of` filter P l2.
Proof. intros [k ->]. rewrite filter_app. apply prefix_app_r. reflexivity. Qed.

Lemma map_prefix {A B} (f : A -> B) (l1 l2 : list A) :
  l1 `prefix_of` l2 -> map f l1 `prefix_of` map f l2.
Proof. intros [k ->]. rewrite map_app. apply prefix_app_r. reflexivity. Qed.

Lemma StronglySorted_prefix {A} (R : A -> A -> Prop) (l1 l2 : list A) :
  l1 `prefix_of` l2 -> StronglySorted R l2 -> StronglySorted R l1.
Proof. intros [k ->] Hs. eapply StronglySorted_app_1_l. exact Hs. Qed.

End SortFacts.

(** ** Ranking *)

Section RankingFacts.

Variable keywords : list string.

Lemma scored_coherent (knowledgeBase : list Entry) :
  Forall (coherent keywords) (scoredItems knowledgeBase keywords).
Proof.
  unfold scoredItems. rewrite sortItems_perm.
  apply Forall_forall. intros item Hin.
  apply list_elem_of_filter in Hin as [_ Hin].
  apply list_elem_of_In, in_map_iff in Hin as (e & <- & _). reflexivity.
Qed.

Lemma scored_positive (knowledgeBase : list Entry) :
  Forall (fun item => 0 < item_score item) (scoredItems knowledgeBase keywords).
Proof.
  unfold scoredItems. rewrite sortItems_perm.
  apply Forall_forall. intros item Hin.
  apply list_elem_of_filter in Hin as [Hpos _].
  apply Is_true_true, Z.ltb_lt in Hpos. exact Hpos.
Qed.

Lemma coherent_sorted (items : list ScoredItem) :
  Forall (coherent keywords) items -> StronglySorted descending items ->
  StronglySorted (fun a b => scoreEntry b keywords <= scoreEntry a keywords)
                 (map item_entry items).
Proof.
  intros Hco Hs. induction Hs as [|x r Hr IH Hx]; simpl; [constructor|].
  apply Forall_cons in Hco as [Hx' Hr'].
  constructor; [apply IH; assumption|].
  apply Forall_forall. intros e He.
  apply list_elem_of_In, in_map_iff in He as (y & <- & Hy).
  apply list_elem_of_In in Hy.
  rewrite Forall_forall in Hx, Hr'.
  specialize (Hx y Hy). specialize (Hr' y Hy).
  unfold descending, coherent in *. lia.
Qed.

Lemma coherent_filter (s : Z) (items : list ScoredItem) :
  Forall (coherent keywords) items ->
  filter (fun e => scoreEntry e keywords = s) (map item_entry items)
  = map item_entry (filter (fun y => item_score y = s) items).
Proof.
  induction 1 as [|x r Hx _ IH]; simpl; [reflexivity|].
  rewrite !filter_cons, IH. unfold coherent in Hx.
  destruct (decide (scoreEntry (item_entry x) keywords = s)),
           (decide (item_score x = s)); try reflexivity; congruence.
Qed.

(** The entries of one score among the kept items are the entries of
    that score in the knowledge base when the score is positive, and
    none otherwise. *)
Lemma kept_of_score (s : Z) (knowledgeBase : list Entry) :
  map item_entry
    (filter (fun y => item_score y = s)
       (filter (fun item => Is_true (0 <? item_score item)) (map (fun entry => mkItem entry (scoreEntry entry keywords)) knowledgeBase)))
  = if 0 <? s then filter (fun e => scoreEntry e keywords = s) knowledgeBase else [].
Proof.
  induction knowledgeBase as [|e kb IH]; simpl.
  - destruct (0 <? s); reflexivity.
  - rewrite (filter_cons _ (mkItem e (scoreEntry e keywords))). simpl.
    destruct (decide (Is_true (0 <? scoreEntry e keywords))) as [Hpos|Hpos].
    + rewrite (filter_cons _ (mkItem e (scoreEntry e keywords))). simpl.
      apply Is_true_true, Z.ltb_lt in Hpos.
      destruct (0 <? s) eqn:Hs.
      * rewrite (filter_cons _ e).
        destruct (decide (scoreEntry e keywords = s)); simpl; rewrite IH; reflexivity.
      * apply Z.ltb_ge in Hs.
        destruct (decide (scoreEntry e keywords = s)); [lia | exact IH].
    + rewrite IH. destruct (0 <? s) eqn:Hs; [|reflexivity].
      apply Z.ltb_lt in Hs. rewrite (filter_cons _ e).
      destruct (decide (scoreEntry e keywords = s)) as [Heq|]; [|reflexivity].
      exfalso. apply Hpos. apply Is_true_true, Z.ltb_lt. lia.
Qed.

End RankingFacts.

(** The keyword path of [retrieveEntries]. *)
Lemma retrieveEntries_keywords (question : string) (knowledgeBase : list Entry) (topN : Z) :
  extractKeywords question <> [] ->
  retrieveEntries question knowledgeBase topN
  = map item_entry (slice0 (scoredItems knowledgeBase (extractKeywords question)) topN).
Proof.
  intros Hkw. unfold retrieveEntries.
  destruct (extractKeywords question); [contradiction | reflexivity].
Qed.

(** The fallback path of [retrieveEntries]. *)
Lemma retrieveEntries_fallback (question : string) (knowledgeBase : list Entry) (topN : Z) :
  extractKeywords question = [] ->
  retrieveEntries question knowledgeBase topN
  = slice0 (filter (fun e => Is_true (strictEq (entry_type e) "narrative" &&
                                       strictEq (entry_topic e) "about"))
                   knowledgeBase) topN.
Proof. intros Hkw. unfold retrieveEntries. rewrite Hkw. reflexivity. Qed.

Lemma ranked_properties (keywords : list string) (knowledgeBase : list Entry) (topN : Z) :
  0 <= topN ->
  let result := map item_entry (slice0 (scoredItems knowledgeBase keywords) topN) in
  Z.of_nat (length result) <= topN /\
  Forall (fun e => scoreEntry e keywords <> 0) result /\
  StronglySorted (fun a b => scoreEntry b keywords <= scoreEntry a keywords) result /\
  forall s : Z,
    filter (fun e => scoreEntry e keywords = s) result
    `prefix_of` filter (fun e => scoreEntry e keywords = s) knowledgeBase.
Proof.
  intros Htop result. unfold result.
  pose proof (slice0_prefix (scoredItems knowledgeBase keywords) topN) as Hpre.
  assert (Hco : Forall (coherent keywords) (slice0 (scoredItems knowledgeBase keywords) topN)).
  { destruct Hpre as [k Hk]. pose proof (scored_coherent keywords knowledgeBase) as H.
    rewrite Hk in H. apply Forall_app in H as [H _]. exact H. }
  repeat split.
  - rewrite length_map. apply slice0_length. exact Htop.
  - destruct Hpre as [k Hk]. pose proof (scored_positive keywords knowledgeBase) as H.
    rewrite Hk in H. apply Forall_app in H as [H _].
    apply Forall_forall. intros e He.
    apply list_elem_of_In, in_map_iff in He as (y & <- & Hy). apply list_elem_of_In in Hy.
    rewrite Forall_forall in H, Hco. specialize (H y Hy). specialize (Hco y Hy).
    unfold coherent in Hco. lia.
  - apply coherent_sorted; [exact Hco|].
    eapply StronglySorted_prefix; [exact Hpre | apply sortItems_sorted].
  - intros s. rewrite (coherent_filter keywords s _ Hco).
    assert (Hstep : map item_entry (filter (fun y => item_score y = s)
                                      (slice0 (scoredItems knowledgeBase keywords) topN))
                    `prefix_of`
                    map item_entry (filter (fun y => item_score y = s)
                                      (scoredItems knowledgeBase keywords))).
    { apply map_prefix, filter_prefix, Hpre. }
    unfold scoredItems in Hstep at 2. rewrite sortItems_stable, kept_of_score in Hstep.
    destruct (0 <? s); [exact Hstep|].
    etrans; [exact Hstep | apply prefix_nil].
Qed.

(** C2.  For a question that yields at least one keyword, and a
    non-negative [topN], [retrieveEntries] returns at most [topN]
    entries, none of score 0, in order of non-increasing score, and the
    entries of any one score appear as they do in the knowledge base:
    they are the first entries of that score of the knowledge base, in
    the order of the knowledge base. *)
Theorem retrieveEntries_ranked (question : string) (knowledgeBase : list Entry) (topN : Z) :
  extractKeywords question <> [] ->
  0 <= topN ->
  let keywords := extractKeywords question in
  let result := retrieveEntries question knowledgeBase topN in
  Z.of_nat (length result) <= topN /\
  Forall (fun e => scoreEntry e keywords <> 0) result /\
  StronglySorted (fun a b => scoreEntry b keywords <= scoreEntry a keywords) result /\
  forall s : Z,
    filter (fun e => scoreEntry e keywords = s) result
    `prefix_of` filter (fun e => scoreEntry e keywords = s) knowledgeBase.
Proof.
  intros Hkw Htop. cbv zeta. rewrite (retrieveEntries_keywords _ _ _ Hkw).
  apply ranked_properties. exact Htop.
Qed.

Lemma retrieveEntries_ranked_witness :
  extractKeywords "What programming languages does Jane know?" <> [] /\
  0 <= 2 /\
  Z.of_nat (length (retrieveEntries "What programming languages does Jane know?"
                      [test001; test002; test003; test008] 2)) <= 2.
Proof.
  split; [vm_compute; discriminate|]. split; [lia|].
  apply (retrieveEntries_ranked "What programming languages does Jane know?"
           [test001; test002; test003; test008] 2); [vm_compute; discriminate | lia].
Defined.

(** ** Scores *)

Section ScoreFacts.

Lemma truthy_Some (s : string) : s <> EmptyString -> truthy (Some s) = true.
Proof.
  intros Hs. unfold truthy. destruct (String.eqb_spec s ""); [contradiction | reflexivity].
Qed.

Lemma truthy_interpolate (v : option string) :
  truthy v = true -> interpolate v = orEmpty v.
Proof.
  unfold orEmpty, jsOr. intros H. rewrite H. destruct v; [reflexivity | discriminate].
Qed.

(** The score splits into the keyword part, the question boost and the
    confidence bonus. *)
Lemma scoreEntry_unfold (entry : Entry) (keywords : list string) :
  scoreEntry entry keywords
  = (let base :=
       foldl (scoreKeyword
                (toLowerCase (orEmpty (jsOr (entry_content entry) (entry_answer entry))))
                (toLowerCase (orEmpty (entry_topic entry)))
                (toLowerCase (orEmpty (entry_title entry)))
                (map toLowerCase (default [] (entry_tags entry)))) 0 keywords in
     let boosted :=
       if strictEq (entry_type entry) "qa_pair" && truthy (entry_question entry)
       then foldl (scoreQuestion (toLowerCase (interpolate (entry_question entry))))
                  base keywords
       else base in
     if strictEq (entry_confidence entry) "verified" then boosted + 1 else boosted).
Proof. reflexivity. Qed.

Lemma keywordMatches_false (entry : Entry) (kw : string) :
  keywordMatches entry kw = false ->
  includes (toLowerCase (orEmpty (jsOr (entry_content entry) (entry_answer entry)))) kw = false /\
  includes (toLowerCase (orEmpty (entry_topic entry))) kw = false /\
  includes (toLowerCase (orEmpty (entry_title entry))) kw = false /\
  existsb (fun tag => includes tag kw) (map toLowerCase (default [] (entry_tags entry))) = false /\
  includes (toLowerCase (orEmpty (entry_question entry))) kw = false.
Proof.
  unfold keywordMatches. intros H.
  repeat (apply orb_false_iff in H as [H ?]). auto.
Qed.

Lemma unmatched_score (entry : Entry) (keywords : list string) :
  Forall (fun kw => keywordMatches entry kw = false) keywords ->
  scoreEntry entry keywords
  = if strictEq (entry_confidence entry) "verified" then 1 else 0.
Proof.
  intros H. rewrite scoreEntry_unfold. cbv zeta.
  rewrite foldl_scoreKeyword_none.
  2:{ eapply Forall_impl; [exact H|]. intros kw Hkw.
      apply keywordMatches_false in Hkw as (? & ? & ? & ? & ?). auto. }
  destruct (strictEq (entry_type entry) "qa_pair" && truthy (entry_question entry)) eqn:Hqa.
  - apply andb_true_iff in Hqa as [_ Hq].
    rewrite (truthy_interpolate _ Hq), foldl_scoreQuestion_none.
    2:{ eapply Forall_impl; [exact H|]. intros kw Hkw.
        apply keywordMatches_false in Hkw as (? & ? & ? & ? & ?). auto. }
    destruct (strictEq (entry_confidence entry) "verified"); reflexivity.
  - destruct (strictEq (entry_confidence entry) "verified"); reflexivity.
Qed.

Lemma scored_member (keywords : list string) (knowledgeBase : list Entry) (entry : Entry) :
  entry ∈ map item_entry (scoredItems knowledgeBase keywords)
  <-> entry ∈ knowledgeBase /\ 0 < scoreEntry entry keywords.
Proof.
  unfold scoredItems. split.
  - intros H. apply list_elem_of_In, in_map_iff in H as (item & <- & Hin).
    apply list_elem_of_In in Hin. rewrite sortItems_perm in Hin.
    apply list_elem_of_filter in Hin as [Hpos Hin].
    apply list_elem_of_In, in_map_iff in Hin as (e & <- & He). simpl in *.
    apply Is_true_true, Z.ltb_lt in Hpos. split; [apply list_elem_of_In; exact He | exact Hpos].
  - intros [Hin Hpos]. apply list_elem_of_In, in_map_iff.
    exists (mkItem entry (scoreEntry entry keywords)). split; [reflexivity|].
    apply list_elem_of_In. rewrite sortItems_perm. apply list_elem_of_filter. split.
    + simpl. apply Is_true_true, Z.ltb_lt. exact Hpos.
    + apply list_elem_of_In, in_map_iff. exists entry.
      split; [reflexivity | apply list_elem_of_In; exact Hin].
Qed.

Lemma retrieved_scored (question : string) (knowledgeBase : list Entry) (topN : Z) (entry : Entry) :
  extractKeywords question <> [] ->
  entry ∈ retrieveEntries question knowledgeBase topN ->
  entry ∈ map item_entry (scoredItems knowledgeBase (extractKeywords question)).
Proof.
  intros Hkw. rewrite (retrieveEntries_keywords _ _ _ Hkw). intros H.
  destruct (slice0_prefix (scoredItems knowledgeBase (extractKeywords question)) topN) as [k Hk].
  rewrite Hk, map_app. apply elem_of_app. left. exact H.
Qed.

End ScoreFacts.

(** C4.  Let [K] be a keyword (one that [extractKeywords] yields for
    some question) in the list [keywords].  A question/answer entry whose
    stored question contains [K] scores at least 5 more than a fact entry
    with the same primary text, topic, title, tags and confidence. *)
Theorem question_boost (keywords : list string) (question K q : string) (qa fact : Entry) :
  K ∈ keywords ->
  K ∈ extractKeywords question ->
  entry_type qa = Some "qa_pair" ->
  entry_question qa = Some q ->
  includes q K = true ->
  entry_type fact = Some "fact" ->
  orEmpty (jsOr (entry_content fact) (entry_answer fact))
  = orEmpty (jsOr (entry_content qa) (entry_answer qa)) ->
  entry_topic fact = entry_topic qa ->
  entry_title fact = entry_title qa ->
  entry_tags fact = entry_tags qa ->
  entry_confidence fact = entry_confidence qa ->
  scoreEntry fact keywords + 5 <= scoreEntry qa keywords.
Proof.
  intros Hin Hkey Hty Hq Hinc Hfact Htext Htopic Htitle Htags Hconf.
  apply extractKeywords_token in Hkey as [Hne Hlow].
  assert (Hq' : q <> EmptyString).
  { intros ->. apply includes_empty_l in Hinc. contradiction. }
  assert (Hfold : includes (toLowerCase q) K = true).
  { rewrite <- Hlow. apply includes_mapChars. exact Hinc. }
  rewrite !scoreEntry_unfold. cbv zeta.
  rewrite Htext, Htopic, Htitle, Htags, Hconf, Hty, Hfact, Hq.
  rewrite (truthy_Some q Hq').
  change (strictEq (Some "qa_pair") "qa_pair") with true.
  change (strictEq (Some "fact") "qa_pair") with false.
  cbn [andb interpolate].
  match goal with
  | |- context [foldl (scoreQuestion ?ql) ?base keywords] =>
      pose proof (foldl_scoreQuestion_boost ql keywords K base Hin Hfold)
  end.
  destruct (strictEq (entry_confidence qa) "verified"); lia.
Qed.

Lemma question_boost_witness :
  scoreEntry (mkEntry (Some "test-002f") (Some "fact") (Some "skills") None
                (entry_answer test002) None None (Some "verified") (entry_tags test002))
             ["programming"; "languages"; "jane"; "know"] + 5
  <= scoreEntry test002 ["programming"; "languages"; "jane"; "know"].
Proof.
  apply (question_boost ["programming"; "languages"; "jane"; "know"]
           "What programming languages does Jane know?" "languages"
           "What programming languages does Jane know?");
    try reflexivity; vm_compute; set_solver.
Defined.

(** C5.  When no keyword of the list occurs in the entry's primary text,
    topic, title, tags or question: an entry of confidence "verified"
    scores exactly 1, passes the score filter of [retrieveEntries] and is
    among the ranked entries, so it is returned when [topN] is large
    enough; an entry of any other confidence ("inferred", "approximate")
    scores 0, fails the filter and is never returned on the keyword
    path. *)
Theorem unmatched_entry (entry : Entry) (keywords : list string) :
  Forall (fun kw => keywordMatches entry kw = false) keywords ->
  if strictEq (entry_confidence entry) "verified" then
    scoreEntry entry keywords = 1 /\
    (0 <? scoreEntry entry keywords) = true /\
    (forall knowledgeBase, entry ∈ knowledgeBase ->
       entry ∈ map item_entry (scoredItems knowledgeBase keywords)) /\
    (forall question knowledgeBase,
       extractKeywords question = keywords -> keywords <> [] -> entry ∈ knowledgeBase ->
       entry ∈ retrieveEntries question knowledgeBase (Z.of_nat (length knowledgeBase)))
  else
    scoreEntry entry keywords = 0 /\
    (0 <? scoreEntry entry keywords) = false /\
    (forall knowledgeBase, entry ∉ map item_entry (scoredItems knowledgeBase keywords)) /\
    (forall question knowledgeBase topN,
       extractKeywords question = keywords -> keywords <> [] ->
       entry ∉ retrieveEntries question knowledgeBase topN).
Proof.
  intros H. pose proof (unmatched_score entry keywords H) as Hscore.
  destruct (strictEq (entry_confidence entry) "verified").
  - rewrite Hscore. split; [reflexivity|]. split; [reflexivity|]. split.
    + intros kb Hin. apply scored_member. split; [exact Hin | lia].
    + intros question kb <- Hkw Hin.
      rewrite (retrieveEntries_keywords _ _ _ Hkw).
      assert (Hlen : (length (scoredItems kb (extractKeywords question)) <= length kb)%nat).
      { unfold scoredItems. rewrite sortItems_perm.
        etrans; [apply length_filter|]. rewrite length_map. reflexivity. }
      unfold slice0. destruct (Z.ltb_spec (Z.of_nat (length kb)) 0); [lia|].
      rewrite Nat2Z.id, take_ge by exact Hlen.
      apply scored_member. split; [exact Hin | lia].
  - rewrite Hscore. split; [reflexivity|]. split; [reflexivity|]. split.
    + intros kb Hin. apply scored_member in Hin as [_ Hpos]. lia.
    + intros question kb topN <- Hkw Hin.
      apply retrieved_scored in Hin; [|exact Hkw].
      apply scored_member in Hin as [_ Hpos]. lia.
Qed.

Lemma unmatched_entry_witness :
  scoreEntry test001 ["quantum"; "blockchain"; "metaverse"] = 1 /\
  scoreEntry test008 ["quantum"; "blockchain"; "metaverse"] = 0.
Proof.
  split.
  - refine (proj1 (unmatched_entry test001 ["quantum"; "blockchain"; "metaverse"] _)).
    repeat (constructor; [vm_compute; reflexivity|]). constructor.
  - refine (proj1 (unmatched_entry test008 ["quantum"; "blockchain"; "metaverse"] _)).
    repeat (constructor; [vm_compute; reflexivity|]). constructor.
Defined.

(** ** The rate limiter *)

Section RateLimitFacts.

Lemma keys_differ (sessionId ipAddress : string) :
  sessionKeyOf sessionId <> ipKeyOf ipAddress.
Proof. unfold sessionKeyOf, ipKeyOf. rewrite !append_cons. discriminate. Qed.

Lemma kvGet_stored (now : Z) (key : string) (kv : KVNamespace) :
  kvGet now key kv = (stored kv now key, kv).
Proof. reflexivity. Qed.

Lemma stored_put_same (kv : KVNamespace) (now : Z) (key : string) (value : RateWindow) (ttl : Z) :
  0 < ttl -> stored (snd (kvPut now key value ttl kv)) now key = Some value.
Proof.
  intros Httl. unfold stored, kvGet, kvPut. simpl.
  rewrite lookup_insert_eq. simpl.
  destruct (Z.ltb_spec now (now + ttl)); [reflexivity | lia].
Qed.

Lemma stored_put_other (kv : KVNamespace) (now t : Z) (key key' : string)
    (value : RateWindow) (ttl : Z) :
  key <> key' -> stored (snd (kvPut now key value ttl kv)) t key' = stored kv t key'.
Proof.
  intros Hne. unfold stored, kvGet, kvPut. simpl.
  rewrite lookup_insert_ne by exact Hne. reflexivity.
Qed.

Lemma sessionWindow_cases (sessionId : string) (now : Z) (kv : KVNamespace) :
  sessionWindow sessionId now kv =
  match stored kv now (sessionKeyOf sessionId) with
  | Some d =>
      if (now <? resetAt d) && (VISITOR_LIMIT <=? count d)
      then (Some (mkResult false (Some sessionReason) (Some (resetAt d - now))), kv)
      else (None, afterSession sessionId now kv)
  | None => (None, afterSession sessionId now kv)
  end.
Proof.
  unfold sessionWindow, afterSession, bind. rewrite kvGet_stored.
  fold (sessionKeyOf sessionId).
  destruct (stored kv now (sessionKeyOf sessionId)) as [d|]; [|reflexivity].
  destruct ((now <? resetAt d) && (VISITOR_LIMIT <=? count d)); [reflexivity|].
  unfold nextWindow. destruct (now <? resetAt d); reflexivity.
Qed.

Lemma ipWindow_cases (ipAddress : string) (now : Z) (kv : KVNamespace) :
  ipWindow ipAddress now kv =
  match stored kv now (ipKeyOf ipAddress) with
  | Some d =>
      if (now <? resetAt d) && (IP_LIMIT <=? count d)
      then (Some (mkResult false (Some ipReason) (Some (resetAt d - now))), kv)
      else (None, afterIp ipAddress now kv)
  | None => (None, afterIp ipAddress now kv)
  end.
Proof.
  unfold ipWindow, afterIp, bind. rewrite kvGet_stored.
  fold (ipKeyOf ipAddress).
  destruct (stored kv now (ipKeyOf ipAddress)) as [d|]; [|reflexivity].
  destruct ((now <? resetAt d) && (IP_LIMIT <=? count d)); [reflexivity|].
  unfold nextWindow. destruct (now <? resetAt d); reflexivity.
Qed.

Lemma stored_afterSession_ip (sessionId ipAddress : string) (now t : Z) (kv : KVNamespace) :
  stored (afterSession sessionId now kv) t (ipKeyOf ipAddress) = stored kv t (ipKeyOf ipAddress).
Proof. apply stored_put_other, keys_differ. Qed.

Lemma stored_afterSession (sessionId : string) (now : Z) (kv : KVNamespace) :
  stored (afterSession sessionId now kv) now (sessionKeyOf sessionId)
  = Some (nextWindow HOUR_IN_SECONDS (stored kv now (sessionKeyOf sessionId)) now).
Proof. apply stored_put_same. reflexivity. Qed.

Lemma stored_afterIp (ipAddress : string) (now : Z) (kv : KVNamespace) :
  stored (afterIp ipAddress now kv) now (ipKeyOf ipAddress)
  = Some (nextWindow DAY_IN_SECONDS (stored kv now (ipKeyOf ipAddress)) now).
Proof. apply stored_put_same. reflexivity. Qed.

Lemma stored_afterIp_session (sessionId ipAddress : string) (now t : Z) (kv : KVNamespace) :
  stored (afterIp ipAddress now kv) t (sessionKeyOf sessionId)
  = stored kv t (sessionKeyOf sessionId).
Proof. apply stored_put_other. intros H. symmetry in H. exact (keys_differ _ _ H). Qed.

Lemma ipDenies_afterSession (sessionId ipAddress : string) (now : Z) (kv : KVNamespace) :
  ipDenies (afterSession sessionId now kv) now ipAddress = ipDenies kv now ipAddress.
Proof. unfold ipDenies. rewrite stored_afterSession_ip. reflexivity. Qed.

(** The three ways [checkRateLimit] ends. *)
Lemma checkRateLimit_cases (sessionId ipAddress : string) (now : Z) (kv : KVNamespace) :
  checkRateLimit sessionId ipAddress now kv =
  if sessionDenies kv now sessionId then
    (mkResult false (Some sessionReason)
       (Some (from_option resetAt 0 (stored kv now (sessionKeyOf sessionId)) - now)), kv)
  else if ipDenies kv now ipAddress then
    (mkResult false (Some ipReason)
       (Some (from_option resetAt 0 (stored kv now (ipKeyOf ipAddress)) - now)),
     afterSession sessionId now kv)
  else
    (mkResult true None None, afterIp ipAddress now (afterSession sessionId now kv)).
Proof.
  unfold checkRateLimit, bind. rewrite sessionWindow_cases. unfold sessionDenies.
  destruct (stored kv now (sessionKeyOf sessionId)) as [d|] eqn:Hs.
  - destruct ((now <? resetAt d) && (VISITOR_LIMIT <=? count d)); [reflexivity|].
    rewrite ipWindow_cases, stored_afterSession_ip. unfold ipDenies.
    destruct (stored kv now (ipKeyOf ipAddress)) as [di|]; [|reflexivity].
    destruct ((now <? resetAt di) && (IP_LIMIT <=? count di)); reflexivity.
  - rewrite ipWindow_cases, stored_afterSession_ip. unfold ipDenies.
    destruct (stored kv now (ipKeyOf ipAddress)) as [di|]; [|reflexivity].
    destruct ((now <? resetAt di) && (IP_LIMIT <=? count di)); reflexivity.
Qed.

End RateLimitFacts.

(** C7.  When the session window refuses the request (the stored
    session count has reached the limit and [resetAt] is in the future),
    [checkRateLimit] returns the refusal and leaves the store as it was:
    no [put] is logged, and every key, the session's and the address's
    among them, reads as before. *)
Theorem session_denial_writes_nothing
    (sessionId ipAddress : string) (now : Z) (kv : KVNamespace) (sessionData : RateWindow) :
  stored kv now (sessionKeyOf sessionId) = Some sessionData ->
  now < resetAt sessionData ->
  VISITOR_LIMIT <= count sessionData ->
  let (result, kv') := checkRateLimit sessionId ipAddress now kv in
  result = mkResult false (Some sessionReason) (Some (resetAt sessionData - now)) /\
  kv' = kv /\
  kv_log kv' = kv_log kv /\
  stored kv' now (sessionKeyOf sessionId) = Some sessionData /\
  stored kv' now (ipKeyOf ipAddress) = stored kv now (ipKeyOf ipAddress).
Proof.
  intros Hs Hnow Hcount. rewrite checkRateLimit_cases. unfold sessionDenies. rewrite Hs.
  destruct (Z.ltb_spec now (resetAt sessionData)); [|lia].
  destruct (Z.leb_spec VISITOR_LIMIT (count sessionData)); [|lia].
  simpl. auto.
Qed.

Lemma session_denial_writes_nothing_witness :
  let kv := snd (runRequests (repeat ("s", "1.2.3.4", 0) 10) kvEmpty) in
  kv_log (snd (checkRateLimit "s" "1.2.3.4" 5 kv)) = kv_log kv.
Proof.
  intros kv.
  pose proof (session_denial_writes_nothing "s" "1.2.3.4" 5 kv (mkWindow 10 3600)) as H.
  destruct (checkRateLimit "s" "1.2.3.4" 5 kv) as [result kv'].
  apply H; [vm_compute; reflexivity | simpl; lia | vm_compute; discriminate].
Defined.

(** C10.  When the session window admits the request and the IP window
    then refuses it, the refusal is returned after the session record has
    been written back: its count is one more (or 1 in a fresh window),
    this one [put] is the only write, and the IP record is as it was. *)
Theorem ip_denial_consumes_session_quota
    (sessionId ipAddress : string) (now : Z) (kv : KVNamespace) (ipData : RateWindow) :
  sessionDenies kv now sessionId = false ->
  stored kv now (ipKeyOf ipAddress) = Some ipData ->
  now < resetAt ipData ->
  IP_LIMIT <= count ipData ->
  let (result, kv') := checkRateLimit sessionId ipAddress now kv in
  result = mkResult false (Some ipReason) (Some (resetAt ipData - now)) /\
  stored kv' now (sessionKeyOf sessionId)
  = Some (nextWindow HOUR_IN_SECONDS (stored kv now (sessionKeyOf sessionId)) now) /\
  kv_log kv'
  = (kv_log kv ++ [mkWrite (sessionKeyOf sessionId)
                     (nextWindow HOUR_IN_SECONDS (stored kv now (sessionKeyOf sessionId)) now)
                     HOUR_IN_SECONDS])%list /\
  stored kv' now (ipKeyOf ipAddress) = Some ipData.
Proof.
  intros Hs Hip Hnow Hcount. rewrite checkRateLimit_cases, Hs. unfold ipDenies. rewrite Hip.
  destruct (Z.ltb_spec now (resetAt ipData)); [|lia].
  destruct (Z.leb_spec IP_LIMIT (count ipData)); [|lia].
  simpl. split; [reflexivity|]. split; [apply stored_afterSession|].
  split; [reflexivity|]. rewrite stored_afterSession_ip. exact Hip.
Qed.

Lemma ip_denial_consumes_session_quota_witness :
  let kv := snd (runRequests (repeat ("a", "1.2.3.4", 0) 10 ++ repeat ("b", "1.2.3.4", 0) 10 ++
                              repeat ("c", "1.2.3.4", 0) 10 ++ repeat ("d", "1.2.3.4", 0) 10 ++
                              repeat ("e", "1.2.3.4", 0) 10 ++ repeat ("f", "1.2.3.4", 0) 10 ++
                              repeat ("g", "1.2.3.4", 0) 10 ++ repeat ("h", "1.2.3.4", 0) 10 ++
                              repeat ("i", "1.2.3.4", 0) 10 ++ repeat ("j", "1.2.3.4", 0) 6 ++
                              repeat ("k", "1.2.3.4", 0) 4)%list kvEmpty) in
  stored (snd (checkRateLimit "k" "1.2.3.4" 7 kv)) 7 (sessionKeyOf "k") = Some (mkWindow 5 3600).
Proof.
  intros kv.
  pose proof (ip_denial_consumes_session_quota "k" "1.2.3.4" 7 kv (mkWindow 100 86400)) as H.
  destruct (checkRateLimit "k" "1.2.3.4" 7 kv) as [result kv'].
  destruct H as (_ & H & _);
    [vm_compute; reflexivity | vm_compute; reflexivity | simpl; lia | vm_compute; discriminate |].
  cbn [snd]. rewrite H. vm_compute. reflexivity.
Defined.

(** One call, window by window.  Within the window of a key, a request
    that finds fewer than the limit counted (so also the one that brings
    the count to the limit: 10 for a session, 100 for an address) passes
    that window and is counted, and it is allowed when the other window
    does not refuse it; a request that finds the limit reached before
    [resetAt] is refused with [retryAfter = resetAt - now > 0] and the
    reason of the window that refused; a request at or after [resetAt]
    (or on a key without record) restarts the window at count 1 with
    [resetAt = now + windowLength], and is allowed when the other window
    does not refuse it. *)
Lemma rate_window_step (sessionId ipAddress : string) (now : Z) (kv : KVNamespace) :
  let result := fst (checkRateLimit sessionId ipAddress now kv) in
  let kv' := snd (checkRateLimit sessionId ipAddress now kv) in
  (* the session window *)
  (forall c r, stored kv now (sessionKeyOf sessionId) = Some (mkWindow c r) -> now < r ->
     (c < VISITOR_LIMIT ->
        stored kv' now (sessionKeyOf sessionId) = Some (mkWindow (c + 1) r) /\
        (ipDenies kv now ipAddress = false -> result = mkResult true None None)) /\
     (VISITOR_LIMIT <= c ->
        result = mkResult false (Some sessionReason) (Some (r - now)) /\ 0 < r - now)) /\
  (forall w, stored kv now (sessionKeyOf sessionId) = w ->
     match w with Some d => resetAt d <= now | None => True end ->
     stored kv' now (sessionKeyOf sessionId) = Some (mkWindow 1 (now + HOUR_IN_SECONDS)) /\
     (ipDenies kv now ipAddress = false -> result = mkResult true None None)) /\
  (* the IP window, reached when the session window admits the request *)
  (forall c r, stored kv now (ipKeyOf ipAddress) = Some (mkWindow c r) -> now < r ->
     sessionDenies kv now sessionId = false ->
     (c < IP_LIMIT ->
        result = mkResult true None None /\
        stored kv' now (ipKeyOf ipAddress) = Some (mkWindow (c + 1) r)) /\
     (IP_LIMIT <= c ->
        result = mkResult false (Some ipReason) (Some (r - now)) /\ 0 < r - now)) /\
  (forall w, stored kv now (ipKeyOf ipAddress) = w ->
     match w with Some d => resetAt d <= now | None => True end ->
     sessionDenies kv now sessionId = false ->
     result = mkResult true None None /\
     stored kv' now (ipKeyOf ipAddress) = Some (mkWindow 1 (now + DAY_IN_SECONDS))).
Proof.
  cbv zeta. rewrite checkRateLimit_cases.
  split; [|split; [|split]].
  - intros c r Hs Hnow. unfold sessionDenies. rewrite Hs. simpl.
    destruct (Z.ltb_spec now r); [|lia]. split.
    + intros Hc. destruct (Z.leb_spec VISITOR_LIMIT c); [lia|]. simpl.
      assert (Hnext : nextWindow HOUR_IN_SECONDS (Some (mkWindow c r)) now = mkWindow (c + 1) r).
      { unfold nextWindow. simpl. destruct (Z.ltb_spec now r); [reflexivity | lia]. }
      destruct (ipDenies kv now ipAddress); simpl.
      * rewrite stored_afterSession, Hs, Hnext. split; [reflexivity | discriminate].
      * rewrite stored_afterIp_session, stored_afterSession, Hs, Hnext. auto.
    + intros Hc. destruct (Z.leb_spec VISITOR_LIMIT c); [|lia]. simpl. split; [reflexivity | lia].
  - intros w Hs Hw.
    assert (Hnext : nextWindow HOUR_IN_SECONDS w now = mkWindow 1 (now + HOUR_IN_SECONDS)).
    { unfold nextWindow. destruct w as [d|]; [|reflexivity].
      destruct (Z.ltb_spec now (resetAt d)); [lia | reflexivity]. }
    assert (Hden : sessionDenies kv now sessionId = false).
    { unfold sessionDenies. rewrite Hs. destruct w as [d|]; [|reflexivity].
      destruct (Z.ltb_spec now (resetAt d)); [lia | reflexivity]. }
    rewrite Hden. destruct (ipDenies kv now ipAddress); simpl.
    + rewrite stored_afterSession, Hs, Hnext. split; [reflexivity | discriminate].
    + rewrite stored_afterIp_session, stored_afterSession, Hs, Hnext. auto.
  - intros c r Hip Hnow Hden. rewrite Hden. unfold ipDenies. rewrite Hip. simpl.
    destruct (Z.ltb_spec now r); [|lia]. split.
    + intros Hc. destruct (Z.leb_spec IP_LIMIT c); [lia|]. simpl. split; [reflexivity|].
      rewrite stored_afterIp, stored_afterSession_ip, Hip. unfold nextWindow. simpl.
      destruct (Z.ltb_spec now r); [reflexivity | lia].
    + intros Hc. destruct (Z.leb_spec IP_LIMIT c); [|lia]. simpl. split; [reflexivity | lia].
  - intros w Hip Hw Hden. rewrite Hden.
    assert (Hnext : nextWindow DAY_IN_SECONDS w now = mkWindow 1 (now + DAY_IN_SECONDS)).
    { unfold nextWindow. destruct w as [d|]; [|reflexivity].
      destruct (Z.ltb_spec now (resetAt d)); [lia | reflexivity]. }
    assert (Hip' : ipDenies kv now ipAddress = false).
    { unfold ipDenies. rewrite Hip. destruct w as [d|]; [|reflexivity].
      destruct (Z.ltb_spec now (resetAt d)); [lia | reflexivity]. }
    rewrite Hip'. simpl. split; [reflexivity|].
    rewrite stored_afterIp, stored_afterSession_ip, Hip, Hnext. reflexivity.
Qed.

(** C1 as stated fails: the 10th request of a session inside its hour is
    refused when its address has reached the daily limit, and the 100th
    request of an address inside its day is refused when it comes from a
    session that has reached the hourly limit. *)
Lemma nth_request_refused_by_other_window :
  (let kv := snd (runRequests (repeat ("a", "1.2.3.4", 0) 10 ++ repeat ("b", "1.2.3.4", 0) 10 ++
                               repeat ("c", "1.2.3.4", 0) 10 ++ repeat ("d", "1.2.3.4", 0) 10 ++
                               repeat ("e", "1.2.3.4", 0) 10 ++ repeat ("f", "1.2.3.4", 0) 10 ++
                               repeat ("g", "1.2.3.4", 0) 10 ++ repeat ("h", "1.2.3.4", 0) 10 ++
                               repeat ("i", "1.2.3.4", 0) 10 ++ repeat ("j", "1.2.3.4", 0) 1 ++
                               repeat ("k", "1.2.3.4", 0) 9)%list kvEmpty) in
   stored kv 7 (sessionKeyOf "k") = Some (mkWindow 9 3600) /\
   allowed (fst (checkRateLimit "k" "1.2.3.4" 7 kv)) = false) /\
  (let kv := snd (runRequests (repeat ("s", "5.6.7.8", 0) 99) kvEmpty) in
   stored kv 7 (ipKeyOf "5.6.7.8") = Some (mkWindow 10 86400) /\
   allowed (fst (checkRateLimit "s" "5.6.7.8" 7 kv)) = false).
Proof. vm_compute. repeat split; reflexivity. Qed.

(** ** Runs of one visitor *)

Section VisitorRuns.

Variables sessionId ipAddress : string.

Lemma holds_stored (kv : KVNamespace) (key : string) (data : RateWindow) (now : Z) :
  holds kv key data -> now < resetAt data -> stored kv now key = Some data.
Proof.
  intros (e & Hkv & He) Hnow. unfold stored, kvGet. simpl. rewrite Hkv. simpl.
  destruct (Z.ltb_spec now e); [reflexivity | lia].
Qed.

Lemma holds_put_same (kv : KVNamespace) (now : Z) (key : string) (data : RateWindow) (ttl : Z) :
  resetAt data <= now + ttl -> holds (snd (kvPut now key data ttl kv)) key data.
Proof.
  intros Hle. exists (now + ttl). split; [|exact Hle].
  unfold kvPut. simpl. apply lookup_insert_eq.
Qed.

Lemma holds_put_other (kv : KVNamespace) (now : Z) (key key' : string)
    (data data' : RateWindow) (ttl : Z) :
  key <> key' -> holds kv key' data' -> holds (snd (kvPut now key data ttl kv)) key' data'.
Proof.
  intros Hne (e & Hkv & He). exists e. split; [|exact He].
  unfold kvPut. simpl. rewrite lookup_insert_ne by exact Hne. exact Hkv.
Qed.

Lemma holds_afterSession (kv : KVNamespace) (now : Z) (data : RateWindow) :
  nextWindow HOUR_IN_SECONDS (stored kv now (sessionKeyOf sessionId)) now = data ->
  resetAt data <= now + HOUR_IN_SECONDS ->
  holds (afterSession sessionId now kv) (sessionKeyOf sessionId) data.
Proof. intros <- Hle. apply holds_put_same. exact Hle. Qed.

Lemma holds_afterSession_ip (kv : KVNamespace) (now : Z) (data : RateWindow) :
  holds kv (ipKeyOf ipAddress) data ->
  holds (afterSession sessionId now kv) (ipKeyOf ipAddress) data.
Proof. apply holds_put_other, keys_differ. Qed.

Lemma holds_afterIp (kv : KVNamespace) (now : Z) (data : RateWindow) :
  nextWindow DAY_IN_SECONDS (stored kv now (ipKeyOf ipAddress)) now = data ->
  resetAt data <= now + DAY_IN_SECONDS ->
  holds (afterIp ipAddress now kv) (ipKeyOf ipAddress) data.
Proof. intros <- Hle. apply holds_put_same. exact Hle. Qed.

Lemma holds_afterIp_session (kv : KVNamespace) (now : Z) (data : RateWindow) :
  holds kv (sessionKeyOf sessionId) data ->
  holds (afterIp ipAddress now kv) (sessionKeyOf sessionId) data.
Proof.
  apply holds_put_other. intros H. symmetry in H. exact (keys_differ _ _ H).
Qed.

Lemma nextWindow_running (windowLength now c r : Z) :
  now < r -> nextWindow windowLength (Some (mkWindow c r)) now = mkWindow (c + 1) r.
Proof.
  intros Hnow. unfold nextWindow. cbn [resetAt count].
  destruct (Z.ltb_spec now r); [reflexivity | lia].
Qed.

Lemma denies_false (limit now c r : Z) :
  c < limit -> (now <? r) && (limit <=? c) = false.
Proof. intros Hc. destruct (Z.leb_spec limit c); [lia | apply andb_false_r]. Qed.

(** One admitted request inside both running windows. *)
Lemma admitted_step (kv : KVNamespace) (now c r ci ri : Z) :
  holds kv (sessionKeyOf sessionId) (mkWindow c r) ->
  holds kv (ipKeyOf ipAddress) (mkWindow ci ri) ->
  r - HOUR_IN_SECONDS <= now < r ->
  ri - DAY_IN_SECONDS <= now < ri ->
  c < VISITOR_LIMIT -> ci < IP_LIMIT ->
  let (result, kv') := checkRateLimit sessionId ipAddress now kv in
  result = mkResult true None None /\
  holds kv' (sessionKeyOf sessionId) (mkWindow (c + 1) r) /\
  holds kv' (ipKeyOf ipAddress) (mkWindow (ci + 1) ri).
Proof.
  intros Hs Hi Hnow Hnowi Hc Hci.
  pose proof (holds_stored _ _ _ now Hs ltac:(simpl; lia)) as Hss.
  pose proof (holds_stored _ _ _ now Hi ltac:(simpl; lia)) as Hsi.
  rewrite checkRateLimit_cases. unfold sessionDenies, ipDenies. rewrite Hss, Hsi.
  cbn [resetAt count]. rewrite !denies_false by assumption.
  split; [reflexivity|]. split.
  - apply holds_afterIp_session, holds_afterSession.
    + rewrite Hss. apply nextWindow_running. lia.
    + simpl. lia.
  - apply holds_afterIp.
    + rewrite stored_afterSession_ip, Hsi. apply nextWindow_running. lia.
    + simpl. lia.
Qed.

(** Requests inside both running windows are admitted and counted as
    long as neither limit is reached. *)
Lemma admitted_run (times : list Z) :
  forall (kv : KVNamespace) (c r ci ri : Z),
  holds kv (sessionKeyOf sessionId) (mkWindow c r) ->
  holds kv (ipKeyOf ipAddress) (mkWindow ci ri) ->
  Forall (fun now => r - HOUR_IN_SECONDS <= now < r /\ ri - DAY_IN_SECONDS <= now < ri) times ->
  c + Z.of_nat (length times) <= VISITOR_LIMIT ->
  ci + Z.of_nat (length times) <= IP_LIMIT ->
  let (results, kv') := runRequests (visits sessionId ipAddress times) kv in
  results = repeat (mkResult true None None) (length times) /\
  holds kv' (sessionKeyOf sessionId) (mkWindow (c + Z.of_nat (length times)) r) /\
  holds kv' (ipKeyOf ipAddress) (mkWindow (ci + Z.of_nat (length times)) ri).
Proof.
  induction times as [|now rest IH]; intros kv c r ci ri Hs Hi Hall Hc Hci.
  - simpl. rewrite !Z.add_0_r. auto.
  - apply Forall_cons in Hall as [[Hnow Hnowi] Hall].
    cbn [visits map runRequests length] in *.
    pose proof (admitted_step kv now c r ci ri Hs Hi Hnow Hnowi ltac:(lia) ltac:(lia)) as Hstep.
    destruct (checkRateLimit sessionId ipAddress now kv) as [result kv1].
    destruct Hstep as (-> & Hs1 & Hi1).
    specialize (IH kv1 (c + 1) r (ci + 1) ri Hs1 Hi1 Hall ltac:(lia) ltac:(lia)).
    fold (visits sessionId ipAddress rest).
    destruct (runRequests (visits sessionId ipAddress rest) kv1) as [results kv2].
    destruct IH as (-> & Hs2 & Hi2).
    split; [reflexivity|].
    replace (c + Z.of_nat (S (length rest))) with (c + 1 + Z.of_nat (length rest)) by lia.
    replace (ci + Z.of_nat (S (length rest))) with (ci + 1 + Z.of_nat (length rest)) by lia.
    auto.
Qed.

(** The first request of a visitor the store does not know opens both
    windows. *)
Lemma first_request (kv : KVNamespace) (now : Z) :
  stored kv now (sessionKeyOf sessionId) = None ->
  stored kv now (ipKeyOf ipAddress) = None ->
  let (result, kv') := checkRateLimit sessionId ipAddress now kv in
  result = mkResult true None None /\
  holds kv' (sessionKeyOf sessionId) (mkWindow 1 (now + HOUR_IN_SECONDS)) /\
  holds kv' (ipKeyOf ipAddress) (mkWindow 1 (now + DAY_IN_SECONDS)).
Proof.
  intros Hs Hi. rewrite checkRateLimit_cases. unfold sessionDenies, ipDenies.
  rewrite Hs, Hi. split; [reflexivity|]. split.
  - apply holds_afterIp_session, holds_afterSession; [rewrite Hs; reflexivity | simpl; lia].
  - apply holds_afterIp; [rewrite stored_afterSession_ip, Hi; reflexivity | simpl; lia].
Qed.

(** X9.  The hour of a new visitor: ten requests allowed, every further
    request of the hour refused by the session window without a write,
    and the first request after the hour, however late it comes, allowed
    in a window restarted at count 1. *)
Theorem visitor_hour (kv : KVNamespace) (start : Z) (rest : list Z) :
  stored kv start (sessionKeyOf sessionId) = None ->
  stored kv start (ipKeyOf ipAddress) = None ->
  length rest = 9%nat ->
  Forall (fun now => start <= now < start + HOUR_IN_SECONDS) rest ->
  let (results, kv') := runRequests (visits sessionId ipAddress (start :: rest)) kv in
  results = repeat (mkResult true None None) 10 /\
  (forall now, start <= now < start + HOUR_IN_SECONDS ->
     checkRateLimit sessionId ipAddress now kv'
     = (mkResult false (Some sessionReason) (Some (start + HOUR_IN_SECONDS - now)), kv')) /\
  (forall now, start + HOUR_IN_SECONDS <= now ->
     fst (checkRateLimit sessionId ipAddress now kv') = mkResult true None None /\
     stored (snd (checkRateLimit sessionId ipAddress now kv')) now (sessionKeyOf sessionId)
     = Some (mkWindow 1 (now + HOUR_IN_SECONDS))).
Proof.
  intros Hs Hi Hlen Hall. cbn [visits map runRequests].
  pose proof (first_request kv start Hs Hi) as Hfirst.
  destruct (checkRateLimit sessionId ipAddress start kv) as [result kv1].
  destruct Hfirst as (-> & Hs1 & Hi1).
  pose proof (admitted_run rest kv1 1 (start + HOUR_IN_SECONDS) 1 (start + DAY_IN_SECONDS)
                Hs1 Hi1) as Hrun.
  fold (visits sessionId ipAddress rest).
  destruct (runRequests (visits sessionId ipAddress rest) kv1) as [results kv2].
  destruct Hrun as (-> & Hs2 & Hi2).
  { eapply Forall_impl; [exact Hall|]. unfold HOUR_IN_SECONDS, DAY_IN_SECONDS. intros now ?. lia. }
  { rewrite Hlen. unfold VISITOR_LIMIT. lia. }
  { rewrite Hlen. unfold IP_LIMIT. lia. }
  rewrite Hlen in *. change (1 + Z.of_nat 9) with 10 in *.
  split; [reflexivity|]. split.
  - intros now Hnow.
    pose proof (holds_stored _ _ _ now Hs2 ltac:(simpl; lia)) as Hss.
    rewrite checkRateLimit_cases. unfold sessionDenies. rewrite Hss. simpl.
    destruct (Z.ltb_spec now (start + HOUR_IN_SECONDS)); [|lia]. reflexivity.
  - intros now Hnow.
    assert (Hnext : nextWindow HOUR_IN_SECONDS (stored kv2 now (sessionKeyOf sessionId)) now
                    = mkWindow 1 (now + HOUR_IN_SECONDS)).
    { destruct Hs2 as (e & Hkv & He). unfold stored, kvGet. simpl. rewrite Hkv. simpl.
      unfold nextWindow. destruct (now <? e); [|reflexivity]. simpl.
      destruct (Z.ltb_spec now (start + HOUR_IN_SECONDS)); [lia | reflexivity]. }
    assert (Hden : sessionDenies kv2 now sessionId = false).
    { destruct Hs2 as (e & Hkv & He). unfold sessionDenies, stored, kvGet. simpl.
      rewrite Hkv. simpl. destruct (now <? e); [|reflexivity]. simpl.
      destruct (Z.ltb_spec now (start + HOUR_IN_SECONDS)); [lia | reflexivity]. }
    assert (Hdeni : ipDenies kv2 now ipAddress = false).
    { destruct Hi2 as (e & Hkv & He). unfold ipDenies, stored, kvGet. simpl.
      rewrite Hkv. simpl. destruct (now <? e); [|reflexivity]. simpl.
      destruct (Z.leb_spec IP_LIMIT 10); [unfold IP_LIMIT in *; lia|].
      apply andb_false_r. }
    rewrite checkRateLimit_cases, Hden, Hdeni. simpl.
    rewrite stored_afterIp_session, stored_afterSession, Hnext. auto.
Qed.

End VisitorRuns.

Lemma visitor_hour_witness :
  let (results, kv') :=
    runRequests (visits "session-1" "203.0.113.7" [100; 160; 220; 300; 900; 1500; 2100; 2700; 3300; 3699])
                kvEmpty in
  map allowed results = repeat true 10 /\
  checkRateLimit "session-1" "203.0.113.7" 3699 kv'
  = (mkResult false (Some sessionReason) (Some 1), kv') /\
  allowed (fst (checkRateLimit "session-1" "203.0.113.7" 3700 kv')) = true.
Proof.
  pose proof (visitor_hour "session-1" "203.0.113.7" kvEmpty 100
                [160; 220; 300; 900; 1500; 2100; 2700; 3300; 3699]
                eq_refl eq_refl eq_refl) as H.
  destruct (runRequests _ kvEmpty) as [results kv'].
  destruct H as (-> & Hdenied & Hafter).
  { repeat (constructor; [unfold HOUR_IN_SECONDS; lia|]). constructor. }
  split; [reflexivity|]. split.
  - rewrite (Hdenied 3699) by (unfold HOUR_IN_SECONDS; lia). reflexivity.
  - destruct (Hafter 3700) as [-> _]; [unfold HOUR_IN_SECONDS; lia | reflexivity].
Defined.

(** ** Runs inside one window *)

Section WindowRuns.

Lemma runRequests_cons (sessionId ipAddress : string) (now : Z)
    (rest : list (string * string * Z)) (kv : KVNamespace) :
  runRequests ((sessionId, ipAddress, now) :: rest) kv
  = (fst (checkRateLimit sessionId ipAddress now kv)
       :: fst (runRequests rest (snd (checkRateLimit sessionId ipAddress now kv))),
     snd (runRequests rest (snd (checkRateLimit sessionId ipAddress now kv)))).
Proof.
  cbn [runRequests]. destruct (checkRateLimit sessionId ipAddress now kv) as [result kv1].
  cbn [fst snd]. destruct (runRequests rest kv1) as [results kv2]. reflexivity.
Qed.

Lemma reasons_differ : sessionReason <> ipReason.
Proof. vm_compute. discriminate. Qed.

Lemma holds_lapsed (kv : KVNamespace) (key : string) (data : RateWindow) (now : Z) :
  holds kv key data -> resetAt data <= now -> noWindow kv now key.
Proof.
  intros (e & Hkv & He) Hnow. unfold noWindow, stored, kvGet. cbn [fst]. rewrite Hkv.
  cbn [kv_expiration kv_value]. destruct (now <? e); [exact Hnow | exact I].
Qed.

Lemma noWindow_next (windowLength : Z) (kv : KVNamespace) (now : Z) (key : string) :
  noWindow kv now key ->
  nextWindow windowLength (stored kv now key) now = mkWindow 1 (now + windowLength).
Proof.
  unfold noWindow, nextWindow. destruct (stored kv now key) as [d|]; [|reflexivity].
  intros Hd. destruct (Z.ltb_spec now (resetAt d)); [lia | reflexivity].
Qed.

Lemma noWindow_session (kv : KVNamespace) (now : Z) (sessionId : string) :
  noWindow kv now (sessionKeyOf sessionId) -> sessionDenies kv now sessionId = false.
Proof.
  unfold noWindow, sessionDenies. destruct (stored kv now (sessionKeyOf sessionId)) as [d|];
    [|reflexivity].
  intros Hd. destruct (Z.ltb_spec now (resetAt d)); [lia | reflexivity].
Qed.

Lemma noWindow_ip (kv : KVNamespace) (now : Z) (ipAddress : string) :
  noWindow kv now (ipKeyOf ipAddress) -> ipDenies kv now ipAddress = false.
Proof.
  unfold noWindow, ipDenies. destruct (stored kv now (ipKeyOf ipAddress)) as [d|];
    [|reflexivity].
  intros Hd. destruct (Z.ltb_spec now (resetAt d)); [lia | reflexivity].
Qed.

(** *** The session window *)

(** A request that finds no running session window opens one. *)
Lemma session_open (sessionId ipAddress : string) (now : Z) (kv : KVNamespace) :
  noWindow kv now (sessionKeyOf sessionId) ->
  let next := checkRateLimit sessionId ipAddress now kv in
  holds (snd next) (sessionKeyOf sessionId) (mkWindow 1 (now + HOUR_IN_SECONDS)) /\
  stored (snd next) now (sessionKeyOf sessionId) = Some (mkWindow 1 (now + HOUR_IN_SECONDS)) /\
  (reason (fst next) <> Some ipReason -> fst next = mkResult true None None).
Proof.
  intros Hno. cbv zeta. rewrite checkRateLimit_cases, (noWindow_session _ _ _ Hno).
  pose proof (noWindow_next HOUR_IN_SECONDS _ _ _ Hno) as Hnext.
  destruct (ipDenies kv now ipAddress); cbn [fst snd reason].
  - split; [apply holds_afterSession; [exact Hnext | cbn [resetAt]; lia]|].
    split; [rewrite stored_afterSession, Hnext; reflexivity|].
    intros Hne. contradiction Hne. reflexivity.
  - split; [apply holds_afterIp_session, holds_afterSession; [exact Hnext | cbn [resetAt]; lia]|].
    split; [rewrite stored_afterIp_session, stored_afterSession, Hnext; reflexivity|].
    reflexivity.
Qed.

(** A request inside the running session window is counted while the
    limit is not reached, and refused without a write once it is. *)
Lemma session_step (sessionId ipAddress : string) (now : Z) (kv : KVNamespace) (c r : Z) :
  holds kv (sessionKeyOf sessionId) (mkWindow c r) ->
  r - HOUR_IN_SECONDS <= now < r ->
  let next := checkRateLimit sessionId ipAddress now kv in
  if c <? VISITOR_LIMIT then
    holds (snd next) (sessionKeyOf sessionId) (mkWindow (c + 1) r) /\
    (reason (fst next) <> Some ipReason -> fst next = mkResult true None None)
  else
    next = (mkResult false (Some sessionReason) (Some (r - now)), kv).
Proof.
  intros Hs Hnow. cbv zeta.
  pose proof (holds_stored _ _ _ now Hs ltac:(cbn [resetAt]; lia)) as Hss.
  rewrite checkRateLimit_cases. unfold sessionDenies. rewrite Hss. cbn [resetAt count from_option].
  destruct (Z.ltb_spec now r); [|lia]. cbn [andb].
  destruct (Z.ltb_spec c VISITOR_LIMIT) as [Hc|Hc].
  - destruct (Z.leb_spec VISITOR_LIMIT c); [lia|].
    assert (Hnext : nextWindow HOUR_IN_SECONDS (stored kv now (sessionKeyOf sessionId)) now
                    = mkWindow (c + 1) r).
    { rewrite Hss. apply nextWindow_running. lia. }
    destruct (ipDenies kv now ipAddress); cbn [fst snd reason].
    + split; [apply holds_afterSession; [exact Hnext | cbn [resetAt]; lia]|].
      intros Hne. contradiction Hne. reflexivity.
    + split; [|reflexivity].
      apply holds_afterIp_session, holds_afterSession; [exact Hnext | cbn [resetAt]; lia].
  - destruct (Z.leb_spec VISITOR_LIMIT c); [reflexivity | lia].
Qed.

Lemma session_run (sessionId : string) (visits : list (string * Z)) :
  forall (kv : KVNamespace) (c r : Z),
  holds kv (sessionKeyOf sessionId) (mkWindow c r) ->
  Forall (fun visit => r - HOUR_IN_SECONDS <= snd visit < r) visits ->
  let run := runRequests (sessionVisits sessionId visits) kv in
  (forall i visit, visits !! i = Some visit ->
     exists result, fst run !! i = Some result /\
       if c + Z.of_nat i <? VISITOR_LIMIT
       then reason result <> Some ipReason -> result = mkResult true None None
       else result = mkResult false (Some sessionReason) (Some (r - snd visit))) /\
  exists c', holds (snd run) (sessionKeyOf sessionId) (mkWindow c' r).
Proof.
  induction visits as [|[address now] rest IH]; intros kv c r Hs Hall; cbv zeta.
  - split; [intros i visit H; inversion H | exists c; exact Hs].
  - apply Forall_cons in Hall as [Hnow Hall]. cbn [snd] in Hnow.
    cbn [sessionVisits map fst snd]. fold (sessionVisits sessionId rest).
    rewrite runRequests_cons. cbn [fst snd].
    pose proof (session_step sessionId address now kv c r Hs Hnow) as Hstep. cbv zeta in Hstep.
    destruct (Z.ltb_spec c VISITOR_LIMIT) as [Hc|Hc].
    + destruct Hstep as [Hs1 Hres].
      destruct (IH _ (c + 1) r Hs1 Hall) as [Hrest Hfinal]. split; [|exact Hfinal].
      intros [|i] visit Hv.
      * injection Hv as <-. eexists. split; [reflexivity|].
        rewrite Z.add_0_r. destruct (Z.ltb_spec c VISITOR_LIMIT); [exact Hres | lia].
      * destruct (Hrest i visit Hv) as (result & Hlook & Hif). exists result.
        split; [exact Hlook|].
        replace (c + Z.of_nat (S i)) with (c + 1 + Z.of_nat i) by lia. exact Hif.
    + rewrite Hstep. cbn [fst snd].
      destruct (IH kv c r Hs Hall) as [Hrest Hfinal]. split; [|exact Hfinal].
      intros [|i] visit Hv.
      * injection Hv as <-. eexists. split; [reflexivity|].
        rewrite Z.add_0_r. destruct (Z.ltb_spec c VISITOR_LIMIT); [lia | reflexivity].
      * destruct (Hrest i visit Hv) as (result & Hlook & Hif). exists result.
        split; [exact Hlook|].
        destruct (Z.ltb_spec (c + Z.of_nat i) VISITOR_LIMIT); [lia|].
        destruct (Z.ltb_spec (c + Z.of_nat (S i)) VISITOR_LIMIT); [lia | exact Hif].
Qed.

(** *** The address window *)

(** A request that the session window admits and that finds no running
    address window opens one. *)
Lemma address_open (sessionId ipAddress : string) (now : Z) (kv : KVNamespace) :
  noWindow kv now (ipKeyOf ipAddress) ->
  let next := checkRateLimit sessionId ipAddress now kv in
  reason (fst next) <> Some sessionReason ->
  fst next = mkResult true None None /\
  holds (snd next) (ipKeyOf ipAddress) (mkWindow 1 (now + DAY_IN_SECONDS)) /\
  stored (snd next) now (ipKeyOf ipAddress) = Some (mkWindow 1 (now + DAY_IN_SECONDS)).
Proof.
  intros Hno. cbv zeta. rewrite checkRateLimit_cases.
  destruct (sessionDenies kv now sessionId); cbn [fst snd reason].
  { intros Hne. contradiction Hne. reflexivity. }
  rewrite (noWindow_ip _ _ _ Hno). cbn [fst snd]. intros _.
  assert (Hnext : nextWindow DAY_IN_SECONDS
                    (stored (afterSession sessionId now kv) now (ipKeyOf ipAddress)) now
                  = mkWindow 1 (now + DAY_IN_SECONDS)).
  { rewrite stored_afterSession_ip. apply noWindow_next. exact Hno. }
  split; [reflexivity|].
  split; [apply holds_afterIp; [exact Hnext | cbn [resetAt]; lia]|].
  rewrite stored_afterIp, Hnext. reflexivity.
Qed.

(** A request that the session window admits, inside the running
    address window, is counted while the limit is not reached, and
    refused once it is. *)
Lemma address_step (sessionId ipAddress : string) (now : Z) (kv : KVNamespace) (c r : Z) :
  holds kv (ipKeyOf ipAddress) (mkWindow c r) ->
  r - DAY_IN_SECONDS <= now < r ->
  let next := checkRateLimit sessionId ipAddress now kv in
  reason (fst next) <> Some sessionReason ->
  if c <? IP_LIMIT then
    fst next = mkResult true None None /\
    holds (snd next) (ipKeyOf ipAddress) (mkWindow (c + 1) r)
  else
    fst next = mkResult false (Some ipReason) (Some (r - now)) /\
    holds (snd next) (ipKeyOf ipAddress) (mkWindow c r).
Proof.
  intros Hi Hnow. cbv zeta.
  pose proof (holds_stored _ _ _ now Hi ltac:(cbn [resetAt]; lia)) as Hsi.
  rewrite checkRateLimit_cases.
  destruct (sessionDenies kv now sessionId); cbn [fst snd reason].
  { intros Hne. contradiction Hne. reflexivity. }
  unfold ipDenies. rewrite Hsi. cbn [resetAt count from_option].
  destruct (Z.ltb_spec now r); [|lia]. cbn [andb]. intros _.
  destruct (Z.ltb_spec c IP_LIMIT) as [Hc|Hc].
  - destruct (Z.leb_spec IP_LIMIT c); [lia|]. cbn [fst snd]. split; [reflexivity|].
    apply holds_afterIp; [|cbn [resetAt]; lia].
    rewrite stored_afterSession_ip, Hsi. apply nextWindow_running. lia.
  - destruct (Z.leb_spec IP_LIMIT c); [|lia]. cbn [fst snd]. split; [reflexivity|].
    apply holds_afterSession_ip. exact Hi.
Qed.

Lemma address_run (ipAddress : string) (visits : list (string * Z)) :
  forall (kv : KVNamespace) (c r : Z),
  holds kv (ipKeyOf ipAddress) (mkWindow c r) ->
  Forall (fun visit => r - DAY_IN_SECONDS <= snd visit < r) visits ->
  let run := runRequests (addressVisits ipAddress visits) kv in
  Forall (fun result => reason result <> Some sessionReason) (fst run) ->
  (forall i visit, visits !! i = Some visit ->
     fst run !! i
     = Some (if c + Z.of_nat i <? IP_LIMIT then mkResult true None None
             else mkResult false (Some ipReason) (Some (r - snd visit)))) /\
  exists c', holds (snd run) (ipKeyOf ipAddress) (mkWindow c' r).
Proof.
  induction visits as [|[session now] rest IH]; intros kv c r Hi Hall; cbv zeta.
  - intros _. split; [intros i visit H; inversion H | exists c; exact Hi].
  - apply Forall_cons in Hall as [Hnow Hall]. cbn [snd] in Hnow.
    cbn [addressVisits map fst snd]. fold (addressVisits ipAddress rest).
    rewrite runRequests_cons. cbn [fst snd]. intros Hadm.
    apply Forall_cons in Hadm as [Hadm0 Hadm].
    pose proof (address_step session ipAddress now kv c r Hi Hnow Hadm0) as Hstep.
    destruct (Z.ltb_spec c IP_LIMIT) as [Hc|Hc]; destruct Hstep as [Hres Hi1].
    + destruct (IH _ (c + 1) r Hi1 Hall Hadm) as [Hrest Hfinal]. split; [|exact Hfinal].
      intros [|i] visit Hv.
      * injection Hv as <-. cbn [lookup list_lookup]. rewrite Hres, Z.add_0_r.
        destruct (Z.ltb_spec c IP_LIMIT); [reflexivity | lia].
      * rewrite lookup_cons. cbn. rewrite (Hrest i visit Hv).
        replace (c + Z.of_nat (S i)) with (c + 1 + Z.of_nat i) by lia. reflexivity.
    + destruct (IH _ c r Hi1 Hall Hadm) as [Hrest Hfinal]. split; [|exact Hfinal].
      intros [|i] visit Hv.
      * injection Hv as <-. cbn [lookup list_lookup]. rewrite Hres, Z.add_0_r.
        destruct (Z.ltb_spec c IP_LIMIT); [lia | reflexivity].
      * rewrite lookup_cons. cbn. rewrite (Hrest i visit Hv).
        destruct (Z.ltb_spec (c + Z.of_nat i) IP_LIMIT); [lia|].
        destruct (Z.ltb_spec (c + Z.of_nat (S i)) IP_LIMIT); [lia | reflexivity].
Qed.

End WindowRuns.

(** C1, as the code has it.  Take the requests of one session from the
    request that opens its window (no window was running) to the end of
    that hour, whatever addresses they come from.  Each of the first ten
    is allowed unless the address window refuses it; every further one
    is refused with the reason of the session limit and
    [retryAfter = resetAt - now > 0]; and the next request at or after
    [resetAt] restarts the stored window at count 1 with
    [resetAt = now + 3600] and is allowed unless the address window
    refuses it.  Likewise for the requests from one address, from the
    one that opens its window to the end of that day, provided the
    session window refuses none of them: the first hundred are allowed,
    every further one is refused with the reason of the address limit
    and [retryAfter = resetAt - now > 0], and the next request at or
    after [resetAt] that the session window does not refuse is allowed
    and restarts the stored window at count 1 with
    [resetAt = now + 86400]. *)
Theorem rate_window_cycle :
  (forall (sessionId : string) (kv : KVNamespace) (start : Z) (address : string)
          (rest : list (string * Z)),
     noWindow kv start (sessionKeyOf sessionId) ->
     Forall (fun visit => start <= snd visit < start + HOUR_IN_SECONDS) rest ->
     let visits := (address, start) :: rest in
     let run := runRequests (sessionVisits sessionId visits) kv in
     let windowEnd := start + HOUR_IN_SECONDS in
     (forall i visit, visits !! i = Some visit ->
        0 < windowEnd - snd visit /\
        exists result, fst run !! i = Some result /\
          if (i <? 10)%nat
          then reason result <> Some ipReason -> result = mkResult true None None
          else result = mkResult false (Some sessionReason) (Some (windowEnd - snd visit))) /\
     (forall now ipAddress, windowEnd <= now ->
        let next := checkRateLimit sessionId ipAddress now (snd run) in
        stored (snd next) now (sessionKeyOf sessionId)
        = Some (mkWindow 1 (now + HOUR_IN_SECONDS)) /\
        (reason (fst next) <> Some ipReason -> fst next = mkResult true None None))) /\
  (forall (ipAddress : string) (kv : KVNamespace) (start : Z) (session : string)
          (rest : list (string * Z)),
     noWindow kv start (ipKeyOf ipAddress) ->
     Forall (fun visit => start <= snd visit < start + DAY_IN_SECONDS) rest ->
     let visits := (session, start) :: rest in
     let run := runRequests (addressVisits ipAddress visits) kv in
     let windowEnd := start + DAY_IN_SECONDS in
     Forall (fun result => reason result <> Some sessionReason) (fst run) ->
     (forall i visit, visits !! i = Some visit ->
        0 < windowEnd - snd visit /\
        fst run !! i
        = Some (if (i <? 100)%nat then mkResult true None None
                else mkResult false (Some ipReason) (Some (windowEnd - snd visit)))) /\
     (forall now sessionId, windowEnd <= now ->
        let next := checkRateLimit sessionId ipAddress now (snd run) in
        reason (fst next) <> Some sessionReason ->
        fst next = mkResult true None None /\
        stored (snd next) now (ipKeyOf ipAddress)
        = Some (mkWindow 1 (now + DAY_IN_SECONDS)))).
Proof.
  split.
  - intros sessionId kv start address rest Hno Hall. cbv zeta.
    cbn [sessionVisits map fst snd]. fold (sessionVisits sessionId rest).
    rewrite runRequests_cons. cbn [fst snd].
    destruct (session_open sessionId address start kv Hno) as (Hs1 & _ & Hres).
    destruct (session_run sessionId rest _ 1 (start + HOUR_IN_SECONDS) Hs1)
      as [Hrest (c' & Hfinal)].
    { eapply Forall_impl; [exact Hall|]. intros visit Hv. cbn beta in Hv. lia. }
    split.
    + intros [|i] visit Hv.
      * injection Hv as <-. cbn [snd]. split; [unfold HOUR_IN_SECONDS; lia|].
        eexists. split; [reflexivity | exact Hres].
      * assert (Hin : start <= snd visit < start + HOUR_IN_SECONDS).
        { rewrite Forall_forall in Hall. apply Hall. eapply list_elem_of_lookup_2. exact Hv. }
        split; [lia|].
        destruct (Hrest i visit Hv) as (result & Hlook & Hif). exists result.
        split; [exact Hlook|]. unfold VISITOR_LIMIT in Hif.
        destruct (Nat.ltb_spec (S i) 10); destruct (Z.ltb_spec (1 + Z.of_nat i) 10);
          try lia; exact Hif.
    + intros now ipAddress Hnow. cbv zeta.
      destruct (session_open sessionId ipAddress now _
                  (holds_lapsed _ _ _ now Hfinal Hnow)) as (_ & Hst & Hallowed).
      split; [exact Hst | exact Hallowed].
  - intros ipAddress kv start session rest Hno Hall. cbv zeta.
    cbn [addressVisits map fst snd]. fold (addressVisits ipAddress rest).
    rewrite runRequests_cons. cbn [fst snd]. intros Hadm.
    apply Forall_cons in Hadm as [Hadm0 Hadm].
    destruct (address_open session ipAddress start kv Hno Hadm0) as (Hres & Hi1 & _).
    destruct (address_run ipAddress rest _ 1 (start + DAY_IN_SECONDS) Hi1)
      as [Hrest (c' & Hfinal)].
    { eapply Forall_impl; [exact Hall|]. intros visit Hv. cbn beta in Hv. lia. }
    { exact Hadm. }
    split.
    + intros [|i] visit Hv.
      * injection Hv as <-. cbn [snd]. split; [unfold DAY_IN_SECONDS; lia|].
        cbn [lookup list_lookup]. rewrite Hres. reflexivity.
      * assert (Hin : start <= snd visit < start + DAY_IN_SECONDS).
        { rewrite Forall_forall in Hall. apply Hall. eapply list_elem_of_lookup_2. exact Hv. }
        split; [lia|].
        assert (Hb : (S i <? 100)%nat = (1 + Z.of_nat i <? IP_LIMIT)).
        { unfold IP_LIMIT.
          destruct (Nat.ltb_spec (S i) 100); destruct (Z.ltb_spec (1 + Z.of_nat i) 100);
            try lia; reflexivity. }
        rewrite Hb, lookup_cons. cbn. rewrite (Hrest i visit Hv). reflexivity.
    + intros now sessionId Hnow. cbv zeta. intros Hadmitted.
      destruct (address_open sessionId ipAddress now _
                  (holds_lapsed _ _ _ now Hfinal Hnow) Hadmitted) as (Hallowed & _ & Hst).
      split; [exact Hallowed | exact Hst].
Qed.

Lemma rate_window_cycle_witness :
  let visits := ("203.0.113.7", 100) :: repeat ("203.0.113.7", 100) 10 in
  noWindow kvEmpty 100 (sessionKeyOf "session-1") /\
  fst (runRequests (sessionVisits "session-1" visits) kvEmpty) !! 9%nat
  = Some (mkResult true None None) /\
  fst (runRequests (sessionVisits "session-1" visits) kvEmpty) !! 10%nat
  = Some (mkResult false (Some sessionReason) (Some 3600)).
Proof.
  cbv zeta.
  assert (Hno : noWindow kvEmpty 100 (sessionKeyOf "session-1")) by exact I.
  assert (Hall : Forall (fun visit : string * Z => 100 <= snd visit < 100 + HOUR_IN_SECONDS)
                        (repeat ("203.0.113.7", 100) 10)).
  { repeat (constructor; [cbn [snd]; unfold HOUR_IN_SECONDS; lia|]). constructor. }
  destruct (proj1 rate_window_cycle "session-1" kvEmpty 100 "203.0.113.7"
              (repeat ("203.0.113.7", 100) 10) Hno Hall) as [Hrun _].
  split; [exact Hno|]. split.
  - destruct (Hrun 9%nat ("203.0.113.7", 100) eq_refl) as (_ & result & Hlook & Hif).
    cbn [Nat.ltb Nat.leb] in Hif. rewrite Hlook. f_equal. apply Hif.
    revert Hlook. vm_compute. intros [= <-]. discriminate.
  - destruct (Hrun 10%nat ("203.0.113.7", 100) eq_refl) as (_ & result & Hlook & Hif).
    cbn [Nat.ltb Nat.leb] in Hif. rewrite Hlook, Hif. reflexivity.
Defined.

(** ** The context formatter *)

Section FormatFacts.

Lemma append_assoc (a b c : string) : (a +:+ b) +:+ c = a +:+ (b +:+ c).
Proof.
  induction a as [|x a IH]; [reflexivity|].
  rewrite !append_cons, IH. reflexivity.
Qed.

Lemma append_empty_r (a : string) : a +:+ EmptyString = a.
Proof. induction a as [|x a IH]; [reflexivity | rewrite append_cons, IH; reflexivity]. Qed.

Lemma formatEntry_block (entry : Entry) (index : nat) (tags : list string) :
  entry_tags entry = Some tags ->
  formatEntry entry index = Normal (entryMarker index +:+ entryFields entry tags).
Proof.
  intros Htags. unfold formatEntry, entryMarker, entryFields. rewrite Htags.
  destruct (truthy (entry_title entry)), (strictEq (entry_type entry) "qa_pair");
    f_equal; rewrite ?append_assoc, ?append_nil; reflexivity.
Qed.

Lemma formatBlocks_blocks (entries : list Entry) (index : nat) :
  Forall wellFormed entries ->
  exists blocks,
    formatBlocks index entries = Normal blocks /\
    length blocks = length entries /\
    forall i entry, entries !! i = Some entry ->
      exists tags, entry_tags entry = Some tags /\
        blocks !! i = Some (entryMarker (index + i) +:+ entryFields entry tags).
Proof.
  intros Hwf. revert index.
  induction Hwf as [|entry rest [tags Htags] _ IH]; intros index.
  - exists []. split; [reflexivity|]. split; [reflexivity|]. intros i e Hi. discriminate.
  - destruct (IH (S index)) as (blocks & Hb & Hlen & Hnth).
    exists ((entryMarker index +:+ entryFields entry tags) :: blocks).
    split; [|split].
    + simpl. rewrite (formatEntry_block _ _ _ Htags). simpl. rewrite Hb. reflexivity.
    + simpl. rewrite Hlen. reflexivity.
    + intros [|i] e Hi; simpl in Hi.
      * injection Hi as <-. exists tags. rewrite Nat.add_0_r. auto.
      * destruct (Hnth i e Hi) as (tags' & Ht & Hbi). exists tags'.
        split; [exact Ht|]. simpl. rewrite Hbi. do 3 f_equal. lia.
Qed.

End FormatFacts.

(** ** Markers in the text of the context *)

Section MarkerCount.

Lemma countChar_app (c : ascii) (s t : string) :
  countChar c (s +:+ t) = (countChar c s + countChar c t)%nat.
Proof.
  induction s as [|d s IH]; [reflexivity|].
  rewrite append_cons. simpl. rewrite IH. lia.
Qed.

Lemma countChar_digits (u : Decimal.uint) :
  countChar "["%char (NilEmpty.string_of_uint u) = 0%nat.
Proof. induction u; simpl; auto. Qed.

Lemma countChar_showNat (n : nat) : countChar "["%char (showNat n) = 0%nat.
Proof. apply countChar_digits. Qed.

Lemma countChar_join (sep : string) (parts : list string) :
  countChar "["%char sep = 0%nat ->
  Forall (fun p => countChar "["%char p = 0%nat) parts ->
  countChar "["%char (join sep parts) = 0%nat.
Proof.
  intros Hsep Hall. induction Hall as [|p rest Hp Hrest IH]; [reflexivity|].
  destruct rest as [|q rest]; [exact Hp|].
  change (join sep (p :: q :: rest)) with (p +:+ sep +:+ join sep (q :: rest)).
  rewrite !countChar_app, Hp, Hsep, IH. reflexivity.
Qed.

Lemma countChar_marker (index : nat) : countChar "["%char (entryMarker index) = 1%nat.
Proof.
  unfold entryMarker. rewrite !countChar_app, countChar_showNat. reflexivity.
Qed.

Lemma countChar_fields (entry : Entry) (tags : list string) :
  bracketFree entry -> entry_tags entry = Some tags ->
  countChar "["%char (entryFields entry tags) = 0%nat.
Proof.
  intros [Hf Ht] Htags. rewrite Htags in Ht. simpl in Ht.
  repeat (apply Forall_cons in Hf as [? Hf]).
  unfold entryFields.
  destruct (truthy (entry_title entry)), (strictEq (entry_type entry) "qa_pair");
    rewrite !countChar_app, (countChar_join ", " tags eq_refl Ht);
    repeat match goal with H : countChar _ (interpolate _) = _ |- _ => rewrite H; clear H end;
    reflexivity.
Qed.

(** The divider-joined blocks hold one opening bracket per block when
    each block holds one. *)
Lemma countChar_blocks (blocks : list string) :
  Forall (fun b => countChar "["%char b = 1%nat) blocks ->
  countChar "["%char (join divider blocks) = length blocks.
Proof.
  intros Hall. induction Hall as [|b rest Hb Hrest IH]; [reflexivity|].
  destruct rest as [|b' rest]; [exact Hb|].
  change (join divider (b :: b' :: rest)) with (b +:+ divider +:+ join divider (b' :: rest)).
  rewrite !countChar_app, Hb, IH. reflexivity.
Qed.

(** When no text of the entries contains an opening bracket, the
    brackets of the context are those of the marker lines: as many as
    there are entries. *)
Lemma markers_counted (entries : list Entry) (context : string) :
  Forall wellFormed entries -> Forall bracketFree entries ->
  formatEntriesForContext entries = Normal context ->
  countChar "["%char context = length entries.
Proof.
  intros Hwf Hfree Hctx.
  destruct (formatBlocks_blocks entries 0 Hwf) as (blocks & Hb & Hlen & Hnth).
  unfold formatEntriesForContext in Hctx. rewrite Hb in Hctx. simpl in Hctx.
  injection Hctx as <-. rewrite <- Hlen. apply countChar_blocks.
  apply Forall_lookup. intros i b Hi.
  assert (Hlt : (i < length entries)%nat).
  { rewrite <- Hlen. eapply lookup_lt_Some. exact Hi. }
  destruct (lookup_lt_is_Some_2 entries i Hlt) as [entry He].
  destruct (Hnth i entry He) as (tags & Ht & Hbi).
  rewrite Hbi in Hi. injection Hi as <-.
  rewrite countChar_app, countChar_marker, countChar_fields; [reflexivity | | exact Ht].
  rewrite Forall_lookup in Hfree. exact (Hfree i entry He).
Qed.

End MarkerCount.

(** C9.  The context of no entries is the empty string.  For entries
    that have their tags, the context is the blocks of the entries joined
    by the divider, one block per entry in input order, and the block at
    position [i] (from 0) is the marker line "[Entry i+1]" followed by the
    fields of the entry at that position; when no text of the entries
    contains an opening bracket, the context holds as many opening
    brackets as there are entries. *)
Theorem formatEntriesForContext_markers :
  formatEntriesForContext [] = Normal EmptyString /\
  forall entries : list Entry,
    Forall wellFormed entries ->
    exists blocks : list string,
      formatEntriesForContext entries = Normal (join divider blocks) /\
      length blocks = length entries /\
      (forall i entry, entries !! i = Some entry ->
         exists tags, entry_tags entry = Some tags /\
           blocks !! i = Some (entryMarker i +:+ entryFields entry tags)) /\
      (Forall bracketFree entries ->
         countChar "["%char (join divider blocks) = length entries).
Proof.
  split; [reflexivity|].
  intros entries Hwf.
  destruct (formatBlocks_blocks entries 0 Hwf) as (blocks & Hb & Hlen & Hnth).
  assert (Hctx : formatEntriesForContext entries = Normal (join divider blocks)).
  { unfold formatEntriesForContext. rewrite Hb. reflexivity. }
  exists blocks. split; [exact Hctx|]. split; [exact Hlen|]. split; [exact Hnth|].
  intros Hfree. exact (markers_counted entries _ Hwf Hfree Hctx).
Qed.

Example formatEntriesForContext_two :
  formatEntriesForContext [test008; test002] = Normal
"[Entry 1]
Type: fact
Topic: skills
Content: Jane is certified in AWS Solutions Architect and Google Cloud Professional Data Engineer.
Confidence: inferred
Tags: cloud, aws, gcp, certifications, inferred

---

[Entry 2]
Type: qa_pair
Topic: skills
Question: What programming languages does Jane know?
Answer: Jane is proficient in Python, JavaScript, TypeScript, and Go. She has experience with Rust and C++ as well.
Confidence: verified
Tags: programming, languages, skills, verified
".
Proof. vm_compute. reflexivity. Qed.

(** ** The worker *)

Section WorkerFacts.

Variable allowedOrigins : list string.
Variable knowledgeBase : list Entry.
Variable stats : Stats.
Variable fetch : FetchCall -> FetchOutcome.
Variable clock : Clock.

Lemma getCorsHeaders_origin (origin : option string) :
  header "Access-Control-Allow-Origin" (getCorsHeaders allowedOrigins origin)
  = Some (corsOrigin allowedOrigins origin).
Proof. reflexivity. Qed.

Lemma jsonHeaders_origin (origin : option string) :
  header "Access-Control-Allow-Origin" (jsonHeaders allowedOrigins origin)
  = Some (corsOrigin allowedOrigins origin).
Proof. reflexivity. Qed.

Lemma handleChat_origin (request : Request) (env : Env) (kv : KVNamespace) :
  header "Access-Control-Allow-Origin"
    (resp_headers (response (handleChat allowedOrigins knowledgeBase fetch clock request env kv)))
  = Some (corsOrigin allowedOrigins (req_origin request)).
Proof.
  unfold handleChat.
  destruct (req_body request) as [body|]; [|reflexivity].
  destruct (getProp (Some body) "message") as [message|]; [|reflexivity].
  destruct (validMessage message) as [text|]; [|reflexivity].
  destruct (checkRateLimit _ _ _ kv) as [result kv'].
  destruct (negb (allowed result)).
  { destruct (retryAfter result); reflexivity. }
  destruct (length (retrieveEntries text knowledgeBase 5) =? 0)%nat; [reflexivity|].
  destruct (formatEntriesForContext _); [|reflexivity].
  destruct (generateResponse _ _ _ _ _) as [generated calls]. reflexivity.
Qed.

Lemma isAllowed_spec (origin : option string) :
  existsb (originStartsWith origin) allowedOrigins = true <->
  exists o allowed rest,
    origin = Some o /\ allowed ∈ allowedOrigins /\ o = allowed +:+ rest.
Proof.
  rewrite existsb_exists. split.
  - intros (allowed & Hin & Hpre). destruct origin as [o|]; [|discriminate].
    simpl in Hpre. apply startsWith_spec in Hpre as [rest ->].
    exists (allowed +:+ rest), allowed, rest.
    split; [reflexivity|]. split; [apply list_elem_of_In; exact Hin | reflexivity].
  - intros (o & allowed & rest & -> & Hin & ->). exists allowed.
    split; [apply list_elem_of_In; exact Hin|].
    simpl. apply startsWith_spec. exists rest. reflexivity.
Qed.

(** The provider calls of [generateResponse]: at most one, without a
    [signal]; its outcome decides the completion. *)
Lemma generateResponse_calls (userMessage ragContext : string) (apiKey : option string)
    (options : Options) :
  let (generated, calls) := generateResponse fetch userMessage ragContext apiKey options in
  (length calls <= 1)%nat /\
  Forall (fun call => fetch_signal call = None) calls /\
  forall call, call ∈ calls -> failedOutcome (fetch call) -> exists e, generated = Throw e.
Proof.
  unfold generateResponse.
  destruct (PROVIDERS (orLiteral (opt_provider options) "openai")) as [provider|].
  - split; [simpl; lia|]. split; [repeat constructor|].
    intros call Hin Hfail. apply list_elem_of_singleton in Hin. subst call.
    destruct (fetch _) as [|status body]; [eauto|].
    destruct Hfail as [Hok | ->].
    + rewrite Hok. simpl. eauto.
    + destruct (negb (isOk status)); eauto.
  - destruct (existsb _ inheritedNames);
      (split; [simpl; lia|]; split; [constructor|]; intros call Hin; inversion Hin).
Qed.

(** X16.  [generateResponse] returns a text exactly when the provider is
    configured, the call is answered inside 200-299 with a JSON body, and
    the provider's extractor finds the text in it; it throws otherwise. *)
Lemma generateResponse_normal (userMessage ragContext : string) (apiKey : option string)
    (options : Options) (text : string) :
  fst (generateResponse fetch userMessage ragContext apiKey options) = Normal text <->
  exists provider call status data,
    PROVIDERS (orLiteral (opt_provider options) "openai") = Some provider /\
    snd (generateResponse fetch userMessage ragContext apiKey options) = [call] /\
    fetch call = Responded status (Some data) /\
    isOk status = true /\
    extractResponse provider data = Normal text.
Proof.
  unfold generateResponse.
  destruct (PROVIDERS (orLiteral (opt_provider options) "openai")) as [provider|].
  - cbv zeta. cbn [fst snd].
    match goal with |- context [fetch ?c] => set (call0 := c) end.
    split.
    + intros H. exists provider, call0.
      destruct (fetch call0) as [|status body] eqn:Hf; [discriminate|].
      destruct (isOk status) eqn:Hok; [|discriminate]. cbn [negb] in H.
      destruct body as [data|]; [|discriminate].
      exists status, data. auto.
    + intros (provider' & call & status & data & Hp & Hc & Hf & Hok & Hx).
      injection Hp as <-. injection Hc as <-. rewrite Hf, Hok. exact Hx.
  - split.
    + destruct (existsb _ inheritedNames); discriminate.
    + intros (provider' & _ & _ & _ & Hp & _). discriminate.
Qed.

(** The branch of [handleChat] that reaches the provider. *)
Lemma handleChat_generation (request : Request) (env : Env) (kv : KVNamespace)
    (body : Json) (message : string) (ragContext : string) :
  req_body request = Some body ->
  getProp (Some body) "message" = Normal (Some (JStr message)) ->
  validMessage (Some (JStr message)) = Some message ->
  allowed (fst (checkRateLimit (getSessionId request) (getClientIP request)
                  (clock_now clock) kv)) = true ->
  retrieveEntries message knowledgeBase 5 <> [] ->
  formatEntriesForContext (retrieveEntries message knowledgeBase 5) = Normal ragContext ->
  let provider := toLowerCase (orLiteral (AI_PROVIDER env) "openai") in
  let apiKey := if String.eqb provider "anthropic" then ANTHROPIC_API_KEY env
                else OPENAI_API_KEY env in
  let generated := generateResponse fetch message ragContext apiKey
                     (mkOptions (Some provider) (jsOr (AI_MODEL env) None)) in
  let handled := handleChat allowedOrigins knowledgeBase fetch clock request env kv in
  resp_status (response handled) = 200 /\
  providerCalls handled = snd generated /\
  exists metadata,
    resp_body (response handled)
    = ChatBody (match fst generated with Normal text => text | Throw _ => getFallbackResponse end)
               DEFAULT_SUGGESTIONS metadata.
Proof.
  intros Hbody Hmsg Hvalid Hallowed Hfound Hctx. cbv zeta.
  unfold handleChat. rewrite Hbody, Hmsg, Hvalid.
  destruct (checkRateLimit _ _ _ kv) as [result kv']. simpl in Hallowed. rewrite Hallowed.
  cbn [negb].
  destruct (retrieveEntries message knowledgeBase 5) as [|e es] eqn:Hre; [contradiction|].
  cbn [length Nat.eqb]. rewrite Hctx.
  destruct (generateResponse _ _ _ _ _) as [generated calls]. simpl.
  split; [reflexivity|]. split; [reflexivity|]. eauto.
Qed.

(** Only the branch that answers 200 with a generated or fallback
    message has called the provider. *)
Lemma handleChat_calls (request : Request) (env : Env) (kv : KVNamespace) :
  let handled := handleChat allowedOrigins knowledgeBase fetch clock request env kv in
  (length (providerCalls handled) <= 1)%nat /\
  Forall (fun call => fetch_signal call = None) (providerCalls handled) /\
  forall call, call ∈ providerCalls handled -> failedOutcome (fetch call) ->
    resp_status (response handled) = 200 /\
    exists metadata,
      resp_body (response handled) = ChatBody getFallbackResponse DEFAULT_SUGGESTIONS metadata.
Proof.
  cbv zeta. unfold handleChat.
  assert (Hnone : forall r kv0,
            (length (@nil FetchCall) <= 1)%nat /\
            Forall (fun call => fetch_signal call = None) (@nil FetchCall) /\
            forall call, call ∈ @nil FetchCall -> failedOutcome (fetch call) ->
              resp_status (response (mkHandled r kv0 [])) = 200 /\
              exists metadata,
                resp_body (response (mkHandled r kv0 []))
                = ChatBody getFallbackResponse DEFAULT_SUGGESTIONS metadata).
  { intros r kv0. split; [simpl; lia|]. split; [constructor|]. intros call Hin. inversion Hin. }
  destruct (req_body request) as [body|]; [|apply Hnone].
  destruct (getProp (Some body) "message") as [message|]; [|apply Hnone].
  destruct (validMessage message) as [text|]; [|apply Hnone].
  destruct (checkRateLimit _ _ _ kv) as [result kv'].
  destruct (negb (allowed result)).
  { destruct (retryAfter result); apply Hnone. }
  destruct (length (retrieveEntries text knowledgeBase 5) =? 0)%nat; [apply Hnone|].
  destruct (formatEntriesForContext _) as [ragContext|]; [|apply Hnone].
  match goal with
  | |- context [generateResponse ?f ?m ?c ?k ?o] =>
      pose proof (generateResponse_calls m c k o) as Hgen;
      destruct (generateResponse f m c k o) as [generated calls]
  end.
  destruct Hgen as (Hlen & Hsig & Hfail). simpl.
  split; [exact Hlen|]. split; [exact Hsig|].
  intros call Hin Hout. destruct (Hfail call Hin Hout) as [e ->].
  split; [reflexivity | eauto].
Qed.

End WorkerFacts.

(** C8.  Whatever the worker answers (preflight, health, chat in all its
    outcomes, 404), the Access-Control-Allow-Origin header is the Origin
    of the request when some entry of the allow-list is a prefix of it,
    and the first entry of the allow-list otherwise, a request without
    Origin header included; with a non-empty allow-list the header is
    not the Origin in the second case. *)
Theorem cors_origin_echoed_iff_allowed
    (allowedOrigins : list string) (knowledgeBase : list Entry) (stats : Stats)
    (fetch : FetchCall -> FetchOutcome) (clock : Clock)
    (request : Request) (env : Env) (kv : KVNamespace) :
  let isAllowed := existsb (originStartsWith (req_origin request)) allowedOrigins in
  let handled := handleRequest allowedOrigins knowledgeBase stats fetch clock request env kv in
  header "Access-Control-Allow-Origin" (resp_headers (response handled))
  = Some (if isAllowed then req_origin request else head allowedOrigins) /\
  (isAllowed = true <->
   exists origin allowed rest,
     req_origin request = Some origin /\ allowed ∈ allowedOrigins /\
     origin = allowed +:+ rest) /\
  (isAllowed = false -> req_origin request = None \/
                        (allowedOrigins <> [] -> head allowedOrigins <> req_origin request)).
Proof.
  cbv zeta. split; [|split].
  - unfold handleRequest.
    destruct (String.eqb (req_method request) "OPTIONS"); [reflexivity|].
    destruct (String.eqb (req_method request) "GET" && String.eqb (req_pathname request) "/health");
      [reflexivity|].
    destruct (String.eqb (req_method request) "POST" && String.eqb (req_pathname request) "/chat");
      [|reflexivity].
    apply handleChat_origin.
  - apply isAllowed_spec.
  - intros Hno. destruct (req_origin request) as [o|]; [right | left; reflexivity].
    intros Hne Hhead. destruct allowedOrigins as [|a rest]; [contradiction|].
    simpl in Hhead. injection Hhead as ->. simpl in Hno.
    rewrite startsWith_refl in Hno. discriminate.
Qed.

Example cors_examples :
  getCorsHeaders ALLOWED_ORIGINS (Some "https://yoursite.com.evil.example")
    !! 0%nat = Some ("Access-Control-Allow-Origin", Some "https://yoursite.com.evil.example") /\
  getCorsHeaders ALLOWED_ORIGINS (Some "https://other.example")
    !! 0%nat = Some ("Access-Control-Allow-Origin", Some "https://yoursite.com") /\
  getCorsHeaders ALLOWED_ORIGINS None
    !! 0%nat = Some ("Access-Control-Allow-Origin", Some "https://yoursite.com").
Proof. vm_compute. repeat split; reflexivity. Qed.

(** C6.  A chat request that passes validation and rate limiting, finds
    at least one entry and reaches the provider is answered with status
    200 and the fallback text as its message whenever [generateResponse]
    throws, whatever it throws. *)
Theorem generation_failure_falls_back
    (allowedOrigins : list string) (knowledgeBase : list Entry) (stats : Stats)
    (fetch : FetchCall -> FetchOutcome) (clock : Clock)
    (request : Request) (env : Env) (kv : KVNamespace)
    (body : Json) (message ragContext : string) (error : JsError) :
  req_method request = "POST" ->
  req_pathname request = "/chat" ->
  req_body request = Some body ->
  getProp (Some body) "message" = Normal (Some (JStr message)) ->
  validMessage (Some (JStr message)) = Some message ->
  allowed (fst (checkRateLimit (getSessionId request) (getClientIP request)
                  (clock_now clock) kv)) = true ->
  retrieveEntries message knowledgeBase 5 <> [] ->
  formatEntriesForContext (retrieveEntries message knowledgeBase 5) = Normal ragContext ->
  (let provider := toLowerCase (orLiteral (AI_PROVIDER env) "openai") in
   fst (generateResponse fetch message ragContext
          (if String.eqb provider "anthropic" then ANTHROPIC_API_KEY env else OPENAI_API_KEY env)
          (mkOptions (Some provider) (jsOr (AI_MODEL env) None))) = Throw error) ->
  let handled := handleRequest allowedOrigins knowledgeBase stats fetch clock request env kv in
  resp_status (response handled) = 200 /\
  exists metadata,
    resp_body (response handled) = ChatBody getFallbackResponse DEFAULT_SUGGESTIONS metadata.
Proof.
  intros Hmethod Hpath Hbody Hmsg Hvalid Hallowed Hfound Hctx Hthrow. cbv zeta in *.
  unfold handleRequest. rewrite Hmethod, Hpath. cbn [String.eqb Ascii.eqb Bool.eqb andb].
  destruct (handleChat_generation allowedOrigins knowledgeBase fetch clock request env kv
              body message ragContext Hbody Hmsg Hvalid Hallowed Hfound Hctx)
    as (Hstatus & _ & metadata & Hb).
  rewrite Hthrow in Hb. split; [exact Hstatus | eauto].
Qed.

Lemma generation_failure_falls_back_witness :
  resp_status (response (handleRequest ALLOWED_ORIGINS sampleKnowledgeBase sampleStats
                           (fun _ => Rejected) sampleClock sampleRequest sampleEnv kvEmpty))
  = 200.
Proof.
  refine (proj1 (generation_failure_falls_back ALLOWED_ORIGINS sampleKnowledgeBase sampleStats
                   (fun _ => Rejected) sampleClock sampleRequest sampleEnv kvEmpty
                   (JObj [("message", JStr "What programming languages does Jane know?")])
                   "What programming languages does Jane know?"
                   (match formatEntriesForContext
                            (retrieveEntries "What programming languages does Jane know?"
                               sampleKnowledgeBase 5)
                    with Normal c => c | Throw _ => EmptyString end)
                   NetworkError _ _ _ _ _ _ _ _ _));
    try (vm_compute; reflexivity); vm_compute; discriminate.
Defined.

(** C3 as stated fails: the one call the worker makes to the provider
    carries no timeout, while the 15000 ms signal of the repository is
    on the widget's call to the worker. *)
Lemma provider_call_has_no_timeout :
  let handled := handleRequest ALLOWED_ORIGINS sampleKnowledgeBase sampleStats
                   (fun _ => Rejected) sampleClock sampleRequest sampleEnv kvEmpty in
  map fetch_signal (providerCalls handled) = [None] /\
  ~ Forall (fun call => fetch_signal call = Some 15000) (providerCalls handled) /\
  fetch_signal (Widget.sendMessageToAPI "https://worker.example/chat" "Hi" "session-1" 0)
  = Some 15000.
Proof.
  vm_compute. split; [reflexivity|]. split; [|reflexivity].
  intros H. inversion H as [|? ? Hsig]. discriminate.
Qed.

(** * Further properties *)

(** ** Keyword extraction *)

Section KeywordFacts.

Lemma stripped_char (c : ascii) :
  let c' := lowerChar c in
  let d := if isWord c' || isSpace c' then c' else " "%char in
  isSpace d = true \/ isKeywordChar d = true.
Proof. destruct c as [[] [] [] [] [] [] [] []]; vm_compute; auto. Qed.

Lemma stripPunctuation_chars (question : string) :
  allChars (fun c => isSpace c = true \/ isKeywordChar c = true)
           (stripPunctuation (toLowerCase question)).
Proof.
  unfold stripPunctuation, toLowerCase.
  induction question as [|c s IH]; simpl; [exact I|].
  split; [apply stripped_char | exact IH].
Qed.

(** The pieces of a split hold no white space. *)
Lemma splitWs_pieces (P : ascii -> Prop) (s cur : string) (inRun : bool) :
  allChars P cur ->
  allChars (fun c => isSpace c = true \/ P c) s ->
  Forall (allChars P) (splitWs cur inRun s).
Proof.
  revert cur inRun. induction s as [|c s IH]; intros cur inRun Hcur Hs; simpl.
  - constructor; [assumption | constructor].
  - destruct Hs as [Hc Hs]. destruct (isSpace c) eqn:Hsp.
    + destruct inRun; [apply IH; simpl; auto|].
      constructor; [assumption | apply IH; simpl; auto].
    + destruct Hc as [Hc|Hc]; [congruence|].
      apply IH; [|assumption]. apply allChars_app; simpl; auto.
Qed.

Lemma mapChars_idem (f : ascii -> ascii) (s : string) :
  (forall c, f (f c) = f c) -> mapChars f (mapChars f s) = mapChars f s.
Proof.
  intros Hf. induction s as [|c s IH]; simpl; [reflexivity|]. rewrite Hf, IH. reflexivity.
Qed.

End KeywordFacts.

(** X1.  Every keyword that [extractKeywords] yields has at least three
    characters, is no stop word, and consists of lower-case letters,
    digits and underscores only. *)
Theorem extractKeywords_shape (question : string) :
  Forall (fun word =>
            (3 <= String.length word)%nat /\
            isStopWord word = false /\
            allChars (fun c => isKeywordChar c = true) word)
         (extractKeywords question).
Proof.
  apply Forall_forall. intros word Hin. unfold extractKeywords in Hin.
  apply list_elem_of_filter in Hin as [Hkeep Hin].
  apply Is_true_true, andb_true_iff in Hkeep as [Hlen Hstop].
  split; [apply Nat.ltb_lt in Hlen; lia|].
  split; [apply negb_true_iff in Hstop; exact Hstop|].
  pose proof (splitWs_pieces (fun c => isKeywordChar c = true)
                (stripPunctuation (toLowerCase question)) EmptyString false I
                (stripPunctuation_chars question)) as Hall.
  rewrite Forall_forall in Hall. apply Hall. exact Hin.
Qed.

(** X2.  The question is read without regard to case: it yields the
    keywords, and retrieves the entries, of its lower-case form. *)
Theorem retrieval_ignores_case (question : string) (knowledgeBase : list Entry) (topN : Z) :
  extractKeywords (toLowerCase question) = extractKeywords question /\
  retrieveEntries (toLowerCase question) knowledgeBase topN
  = retrieveEntries question knowledgeBase topN.
Proof.
  assert (H : extractKeywords (toLowerCase question) = extractKeywords question).
  { unfold extractKeywords, toLowerCase. rewrite mapChars_idem by apply lowerChar_idem.
    reflexivity. }
  split; [exact H|]. unfold retrieveEntries. rewrite H. reflexivity.
Qed.

Example retrieval_ignores_case_sample :
  extractKeywords "PYTHON Experience?" = extractKeywords "python experience?".
Proof. vm_compute. reflexivity. Qed.

(** ** Ranking and the fallback path *)

Section RankingMore.

Lemma scored_entries_perm (keywords : list string) (knowledgeBase : list Entry) :
  map item_entry (scoredItems knowledgeBase keywords)
  ≡ₚ filter (fun e => 0 < scoreEntry e keywords) knowledgeBase.
Proof.
  unfold scoredItems. rewrite sortItems_perm.
  induction knowledgeBase as [|e kb IH]; [reflexivity|].
  cbn [map]. rewrite (filter_cons _ (mkItem e (scoreEntry e keywords))), (filter_cons _ e).
  cbn [item_score].
  destruct (decide (Is_true (0 <? scoreEntry e keywords))) as [Hpos|Hpos],
           (decide (0 < scoreEntry e keywords)) as [Hlt|Hlt].
  - cbn [map item_entry]. rewrite IH. reflexivity.
  - apply Is_true_true, Z.ltb_lt in Hpos. contradiction.
  - exfalso. apply Hpos, Is_true_true, Z.ltb_lt. exact Hlt.
  - exact IH.
Qed.

Lemma prefix_submseteq {A} (l1 l2 : list A) : l1 `prefix_of` l2 -> l1 ⊆+ l2.
Proof. intros [k ->]. apply submseteq_inserts_r. reflexivity. Qed.

Lemma filter_submseteq_self {A} (P : A -> Prop) `{forall x, Decision (P x)} (l : list A) :
  filter P l ⊆+ l.
Proof. apply sublist_submseteq, sublist_filter. Qed.

End RankingMore.

(** X3.  A question without keywords is answered from the overview
    entries: with [topN >= 0] the result is exactly the first [topN]
    overview entries (type "narrative", topic "about") of the knowledge
    base, in its order, and all of them when there are no more than
    [topN], whatever their scores or confidence. *)
Theorem fallback_overview (question : string) (knowledgeBase : list Entry) (topN : Z) :
  extractKeywords question = [] ->
  0 <= topN ->
  let result := retrieveEntries question knowledgeBase topN in
  result `prefix_of` filter isOverview knowledgeBase /\
  Forall isOverview result /\
  Z.of_nat (length result) <= topN /\
  (Z.of_nat (length (filter isOverview knowledgeBase)) <= topN ->
   result = filter isOverview knowledgeBase) /\
  result = take (Z.to_nat topN) (filter isOverview knowledgeBase) /\
  Z.of_nat (length result)
  = Z.min topN (Z.of_nat (length (filter isOverview knowledgeBase))).
Proof.
  intros Hkw Htop. cbv zeta. rewrite (retrieveEntries_fallback _ _ _ Hkw).
  fold isOverview. change (fun e : Entry => isOverview e) with isOverview.
  pose proof (slice0_prefix (filter isOverview knowledgeBase) topN) as Hpre.
  split; [exact Hpre|]. split; [|split; [|split; [|split]]].
  - destruct Hpre as [k Hk].
    assert (Hall : Forall isOverview (filter isOverview knowledgeBase)).
    { apply Forall_forall. intros e He. apply list_elem_of_filter in He as [He _]. exact He. }
    rewrite Hk in Hall. apply Forall_app in Hall as [Hall _]. exact Hall.
  - apply slice0_length. exact Htop.
  - intros Hlen. unfold slice0. destruct (Z.ltb_spec topN 0); [lia|].
    apply take_ge. apply Nat2Z.inj_le. rewrite Z2Nat.id by lia. exact Hlen.
  - unfold slice0. destruct (Z.ltb_spec topN 0); [lia | reflexivity].
  - unfold slice0. destruct (Z.ltb_spec topN 0); [lia|]. rewrite length_take. lia.
Qed.

Lemma fallback_overview_witness :
  extractKeywords "Tell me about the" = [] /\
  0 <= 1 /\
  retrieveEntries "Tell me about the" [test003; test001; test003; test003] 1 = [test003].
Proof.
  assert (Hkw : extractKeywords "Tell me about the" = []) by reflexivity.
  assert (Htop : 0 <= 1) by lia.
  split; [exact Hkw|]. split; [exact Htop|].
  destruct (fallback_overview "Tell me about the" [test003; test001; test003; test003] 1
              Hkw Htop) as (_ & _ & _ & _ & H & _).
  rewrite H. vm_compute. reflexivity.
Defined.

Lemma retrieveEntries_submseteq (question : string) (knowledgeBase : list Entry) (topN : Z) :
  retrieveEntries question knowledgeBase topN ⊆+ knowledgeBase.
Proof.
  destruct (extractKeywords question) as [|k ks] eqn:Hkw.
  - rewrite (retrieveEntries_fallback _ _ _ Hkw).
    etrans; [apply prefix_submseteq, slice0_prefix | apply filter_submseteq_self].
  - rewrite retrieveEntries_keywords by (rewrite Hkw; discriminate). rewrite Hkw.
    etrans; [apply prefix_submseteq, map_prefix, slice0_prefix|].
    rewrite scored_entries_perm. apply filter_submseteq_self.
Qed.

(** X4.  Whatever the question and [topN], the entries returned are
    entries of the knowledge base, none more often than it occurs there;
    so there are never more of them than the knowledge base has, and an
    empty knowledge base gives an empty result. *)
Theorem retrieved_from_knowledge_base (question : string) (knowledgeBase : list Entry) (topN : Z) :
  retrieveEntries question knowledgeBase topN ⊆+ knowledgeBase /\
  (length (retrieveEntries question knowledgeBase topN) <= length knowledgeBase)%nat /\
  retrieveEntries question [] topN = [].
Proof.
  split; [apply retrieveEntries_submseteq|].
  split; [apply submseteq_length, retrieveEntries_submseteq|].
  apply submseteq_nil_r, retrieveEntries_submseteq.
Qed.

(** X5.  On the keyword path the result is the top of the ranking: an
    entry of the knowledge base that is left out scores no more than any
    entry returned, and when fewer than [topN] entries are returned every
    entry of positive score is among them. *)
Theorem retrieved_top_ranked (question : string) (knowledgeBase : list Entry) (topN : Z) :
  extractKeywords question <> [] ->
  let keywords := extractKeywords question in
  let result := retrieveEntries question knowledgeBase topN in
  (forall e r, e ∈ knowledgeBase -> e ∉ result -> r ∈ result ->
     scoreEntry e keywords <= scoreEntry r keywords) /\
  (Z.of_nat (length result) < topN ->
   forall e, e ∈ knowledgeBase -> 0 < scoreEntry e keywords -> e ∈ result).
Proof.
  intros Hkw. cbv zeta. rewrite (retrieveEntries_keywords _ _ _ Hkw).
  set (keywords := extractKeywords question).
  destruct (slice0_prefix (scoredItems knowledgeBase keywords) topN) as [rest Hsplit].
  pose proof (sortItems_sorted
                (filter (fun item => Is_true (0 <? item_score item))
                   (map (fun entry => mkItem entry (scoreEntry entry keywords)) knowledgeBase)))
    as Hsorted.
  fold (scoredItems knowledgeBase keywords) in Hsorted.
  pose proof (scored_coherent keywords knowledgeBase) as Hco.
  pose proof (scored_positive keywords knowledgeBase) as Hpos.
  rewrite Forall_forall in Hco, Hpos.
  split.
  - intros e r He Hout Hr.
    apply list_elem_of_In, in_map_iff in Hr as (y & <- & Hy). apply list_elem_of_In in Hy.
    assert (Hy' : y ∈ scoredItems knowledgeBase keywords).
    { rewrite Hsplit. apply elem_of_app. left. exact Hy. }
    rewrite <- (Hco y Hy').
    destruct (Z.le_gt_cases (scoreEntry e keywords) 0) as [Hle|Hgt].
    { specialize (Hpos y Hy'). lia. }
    assert (Hin : e ∈ map item_entry (scoredItems knowledgeBase keywords)).
    { apply scored_member. split; [exact He | lia]. }
    apply list_elem_of_In, in_map_iff in Hin as (x & Hx & Hxin). apply list_elem_of_In in Hxin.
    rewrite Hsplit in Hxin. apply elem_of_app in Hxin as [Hxin|Hxin].
    + exfalso. apply Hout. apply list_elem_of_In, in_map_iff. exists x.
      split; [exact Hx | apply list_elem_of_In; exact Hxin].
    + rewrite Hsplit in Hsorted.
      pose proof (StronglySorted_app_1_elem_of _ _ _ y x Hsorted Hy Hxin) as Hd.
      unfold descending in Hd.
      assert (Hx' : x ∈ scoredItems knowledgeBase keywords).
      { rewrite Hsplit. apply elem_of_app. right. exact Hxin. }
      rewrite <- Hx, <- (Hco x Hx'). exact Hd.
  - intros Hshort e He Hscore.
    assert (Hall : slice0 (scoredItems knowledgeBase keywords) topN
                   = scoredItems knowledgeBase keywords).
    { rewrite length_map in Hshort. unfold slice0 in *.
      destruct (Z.ltb_spec topN 0); [lia|].
      rewrite length_take in Hshort. apply take_ge. lia. }
    rewrite Hall. apply scored_member. auto.
Qed.

Lemma retrieved_top_ranked_witness :
  extractKeywords "Python experience" <> [] /\
  forall e r, e ∈ sampleKnowledgeBase ->
    e ∉ retrieveEntries "Python experience" sampleKnowledgeBase 1 ->
    r ∈ retrieveEntries "Python experience" sampleKnowledgeBase 1 ->
    scoreEntry e (extractKeywords "Python experience")
    <= scoreEntry r (extractKeywords "Python experience").
Proof.
  assert (H : extractKeywords "Python experience" <> []) by (vm_compute; discriminate).
  split; [exact H|].
  apply (retrieved_top_ranked "Python experience" sampleKnowledgeBase 1 H).
Defined.

(** ** The score as a sum *)

Section ScoreSum.

Variable entry : Entry.

Lemma foldl_scoreKeyword_sum content topic title tags keywords score :
  foldl (scoreKeyword content topic title tags) score keywords
  = score + sumZ (map (fun kw =>
                         (if includes content kw then 3 else 0)
                         + (if includes topic kw then 2 else 0)
                         + (if includes title kw then 2 else 0)
                         + (if existsb (fun tag => includes tag kw) tags then 1 else 0))
                      keywords).
Proof.
  revert score. induction keywords as [|k ks IH]; intros score; simpl; [lia|].
  rewrite IH. unfold scoreKeyword.
  destruct (includes content k), (includes topic k), (includes title k),
    (existsb _ tags); lia.
Qed.

Lemma foldl_scoreQuestion_sum questionLower keywords score :
  foldl (scoreQuestion questionLower) score keywords
  = score + sumZ (map (fun kw => if includes questionLower kw then 5 else 0) keywords).
Proof.
  revert score. induction keywords as [|k ks IH]; intros score; simpl; [lia|].
  rewrite IH. unfold scoreQuestion. destruct (includes questionLower k); lia.
Qed.

Lemma sumZ_map_add {A} (f g : A -> Z) (l : list A) :
  sumZ (map (fun x => f x + g x) l) = sumZ (map f l) + sumZ (map g l).
Proof. induction l as [|x l IH]; simpl; lia. Qed.

Lemma sumZ_map_zero {A} (l : list A) : sumZ (map (fun _ => 0) l) = 0.
Proof. induction l as [|x l IH]; simpl; lia. Qed.

Lemma sumZ_app (l1 l2 : list Z) : sumZ (l1 ++ l2) = sumZ l1 + sumZ l2.
Proof. induction l1 as [|x l IH]; simpl; lia. Qed.

Lemma sumZ_perm (l1 l2 : list Z) : l1 ≡ₚ l2 -> sumZ l1 = sumZ l2.
Proof. induction 1; simpl; lia. Qed.

Lemma keywordWeight_range (kw : string) : 0 <= keywordWeight entry kw <= 13.
Proof.
  unfold keywordWeight.
  repeat match goal with |- context [if ?b then _ else _] => destruct b end; lia.
Qed.

Lemma sumZ_weights_range (keywords : list string) :
  0 <= sumZ (map (keywordWeight entry) keywords) <= 13 * Z.of_nat (length keywords).
Proof.
  induction keywords as [|k ks IH]; [simpl; lia|].
  pose proof (keywordWeight_range k). cbn [map sumZ foldr length]. fold (sumZ (map (keywordWeight entry) ks)).
  lia.
Qed.

Lemma scoreEntry_closed (keywords : list string) :
  scoreEntry entry keywords
  = sumZ (map (keywordWeight entry) keywords)
    + (if strictEq (entry_confidence entry) "verified" then 1 else 0).
Proof.
  rewrite scoreEntry_unfold. cbv zeta.
  rewrite foldl_scoreKeyword_sum.
  assert (Hsum : sumZ (map (keywordWeight entry) keywords)
                 = sumZ (map (fun kw =>
                      (if includes (toLowerCase (orEmpty (jsOr (entry_content entry)
                                                               (entry_answer entry)))) kw
                       then 3 else 0)
                      + (if includes (toLowerCase (orEmpty (entry_topic entry))) kw then 2 else 0)
                      + (if includes (toLowerCase (orEmpty (entry_title entry))) kw then 2 else 0)
                      + (if existsb (fun tag => includes tag kw)
                              (map toLowerCase (default [] (entry_tags entry)))
                         then 1 else 0)) keywords)
                   + sumZ (map (fun kw =>
                        if strictEq (entry_type entry) "qa_pair" && truthy (entry_question entry)
                           && includes (toLowerCase (interpolate (entry_question entry))) kw
                        then 5 else 0) keywords)).
  { rewrite <- sumZ_map_add. reflexivity. }
  rewrite Hsum.
  destruct (strictEq (entry_type entry) "qa_pair" && truthy (entry_question entry)).
  - rewrite foldl_scoreQuestion_sum. cbn [andb].
    destruct (strictEq (entry_confidence entry) "verified"); lia.
  - cbn [andb]. rewrite sumZ_map_zero.
    destruct (strictEq (entry_confidence entry) "verified"); lia.
Qed.

End ScoreSum.

(** X6.  The score of an entry is the sum, over the keywords, of what
    each keyword adds (3, 2, 2, 1 and the question boost 5), plus 1 for a
    verified entry.  So it does not depend on the order of the keywords,
    a keyword given twice counts twice, the score of two lists put
    together is the sum of their scores less the bonus counted twice, and
    the score lies between 0 and 13 per keyword plus 1. *)
Theorem scoreEntry_is_a_sum (entry : Entry) (keywords : list string) :
  let bonus := if strictEq (entry_confidence entry) "verified" then 1 else 0 in
  scoreEntry entry keywords = sumZ (map (keywordWeight entry) keywords) + bonus /\
  (forall keywords', keywords ≡ₚ keywords' ->
     scoreEntry entry keywords' = scoreEntry entry keywords) /\
  (forall more, scoreEntry entry (keywords ++ more)
                = scoreEntry entry keywords + scoreEntry entry more - bonus) /\
  0 <= scoreEntry entry keywords <= 13 * Z.of_nat (length keywords) + 1.
Proof.
  cbv zeta. split; [apply scoreEntry_closed|]. split; [|split].
  - intros keywords' Hperm. rewrite !scoreEntry_closed.
    rewrite (sumZ_perm _ _ (Permutation_map (keywordWeight entry) Hperm)). reflexivity.
  - intros more. rewrite !scoreEntry_closed, map_app, sumZ_app. lia.
  - rewrite scoreEntry_closed. pose proof (sumZ_weights_range entry keywords).
    destruct (strictEq (entry_confidence entry) "verified"); lia.
Qed.

Example scoreEntry_is_a_sum_sample :
  scoreEntry test002 ["programming"; "languages"; "programming"] = 19 /\
  scoreEntry test002 ["languages"; "programming"; "programming"] = 19.
Proof. vm_compute. split; reflexivity. Qed.

(** ** When the formatter throws *)

Section FormatThrows.

Lemma formatEntry_throw (entry : Entry) (index : nat) :
  entry_tags entry = None -> formatEntry entry index = Throw TypeError.
Proof. intros H. unfold formatEntry. rewrite H. reflexivity. Qed.

Lemma formatBlocks_throw (entries : list Entry) (index : nat) :
  ~ Forall wellFormed entries -> formatBlocks index entries = Throw TypeError.
Proof.
  revert index. induction entries as [|e rest IH]; intros index Hnot.
  - exfalso. apply Hnot. constructor.
  - cbn [formatBlocks]. destruct (entry_tags e) as [tags|] eqn:Ht.
    + rewrite (formatEntry_block _ _ _ Ht). cbn [bindC].
      rewrite IH; [reflexivity|]. intros Hrest. apply Hnot.
      constructor; [exists tags; exact Ht | exact Hrest].
    + rewrite (formatEntry_throw _ _ Ht). reflexivity.
Qed.

Lemma tags_present_or_missing (entries : list Entry) :
  Forall wellFormed entries \/ Exists (fun e => entry_tags e = None) entries.
Proof.
  induction entries as [|e rest IH]; [left; constructor|].
  destruct (entry_tags e) as [tags|] eqn:Ht.
  - destruct IH as [IH|IH].
    + left. constructor; [exists tags; exact Ht | exact IH].
    + right. apply Exists_cons_tl. exact IH.
  - right. apply Exists_cons_hd. exact Ht.
Qed.

End FormatThrows.

(** X7.  [formatEntriesForContext] returns a text exactly when every
    entry has its tags; one entry without tags makes the whole call throw
    a TypeError, whatever the other entries are. *)
Theorem formatEntriesForContext_throws (entries : list Entry) :
  (Forall wellFormed entries <-> exists text, formatEntriesForContext entries = Normal text) /\
  (Exists (fun e => entry_tags e = None) entries <->
   formatEntriesForContext entries = Throw TypeError).
Proof.
  assert (Hok : Forall wellFormed entries -> exists text, formatEntriesForContext entries = Normal text).
  { intros Hwf. destruct (formatBlocks_blocks entries 0 Hwf) as (blocks & Hb & _).
    exists (join divider blocks). unfold formatEntriesForContext. rewrite Hb. reflexivity. }
  assert (Hthrow : ~ Forall wellFormed entries -> formatEntriesForContext entries = Throw TypeError).
  { intros Hnot. unfold formatEntriesForContext. rewrite (formatBlocks_throw _ _ Hnot). reflexivity. }
  pose proof (tags_present_or_missing entries) as Hdec.
  assert (Hexcl : Exists (fun e => entry_tags e = None) entries -> ~ Forall wellFormed entries).
  { intros Hex Hwf. apply Exists_exists in Hex as (e & He & Hnone).
    rewrite Forall_forall in Hwf. destruct (Hwf e He) as [tags Ht]. congruence. }
  split; split.
  - exact Hok.
  - intros [text Htext]. destruct Hdec as [Hwf|Hex]; [exact Hwf|].
    rewrite (Hthrow (Hexcl Hex)) in Htext. discriminate.
  - intros Hex. exact (Hthrow (Hexcl Hex)).
  - intros Hthr. destruct Hdec as [Hwf|Hex]; [|exact Hex].
    destruct (Hok Hwf) as [text Htext]. congruence.
Qed.

(** ** What a call of the rate limiter does to the store *)

Section StoreEffects.

Lemma limitOf_session (sessionId : string) : limitOf (sessionKeyOf sessionId) = VISITOR_LIMIT.
Proof.
  unfold limitOf, sessionKeyOf.
  replace (startsWith ("session:" +:+ sessionId) "session:") with true; [reflexivity|].
  symmetry. apply startsWith_spec. exists sessionId. reflexivity.
Qed.

Lemma limitOf_ip (ipAddress : string) : limitOf (ipKeyOf ipAddress) = IP_LIMIT.
Proof. reflexivity. Qed.

Lemma windowOf_session (sessionId : string) :
  windowOf (sessionKeyOf sessionId) = HOUR_IN_SECONDS.
Proof.
  unfold windowOf, sessionKeyOf.
  replace (startsWith ("session:" +:+ sessionId) "session:") with true; [reflexivity|].
  symmetry. apply startsWith_spec. exists sessionId. reflexivity.
Qed.

Lemma windowOf_ip (ipAddress : string) : windowOf (ipKeyOf ipAddress) = DAY_IN_SECONDS.
Proof. reflexivity. Qed.

Lemma soundAt_later (T now : Z) (kv : KVNamespace) :
  T <= now -> soundAt T kv -> soundAt now kv.
Proof.
  intros Hle Hs key r Hr. destruct (Hs key r Hr) as (Hc & He & Hw).
  split; [exact Hc|]. split; [exact He | lia].
Qed.

Lemma soundAt_put (now : Z) (kv : KVNamespace) (key : string) (value : RateWindow) (ttl : Z) :
  soundAt now kv ->
  1 <= count value <= limitOf key ->
  resetAt value <= now + ttl ->
  ttl = windowOf key ->
  soundAt now (snd (kvPut now key value ttl kv)).
Proof.
  intros Hs Hc Hr Httl key' r Hlook. unfold kvPut in Hlook. cbn [snd kv_data] in Hlook.
  destruct (decide (key = key')) as [<-|Hne].
  - rewrite lookup_insert_eq in Hlook. injection Hlook as <-. cbn [kv_value kv_expiration].
    split; [exact Hc|]. split; [exact Hr | lia].
  - rewrite lookup_insert_ne in Hlook by exact Hne. exact (Hs key' r Hlook).
Qed.

(** What a visible record tells under a sound store. *)
Lemma stored_sound (now : Z) (kv : KVNamespace) (key : string) (data : RateWindow) :
  soundAt now kv -> stored kv now key = Some data ->
  1 <= count data <= limitOf key /\ resetAt data <= now + windowOf key.
Proof.
  intros Hs Hst. unfold stored, kvGet in Hst. cbn [fst] in Hst.
  destruct (kv_data kv !! key) as [r|] eqn:Hr; [|discriminate].
  destruct (now <? kv_expiration r); [|discriminate]. injection Hst as <-.
  destruct (Hs key r Hr) as (Hc & _ & Hw). auto.
Qed.

Lemma nextWindow_sound (now : Z) (kv : KVNamespace) (key : string) :
  soundAt now kv ->
  match stored kv now key with
  | Some d => (now <? resetAt d) && (limitOf key <=? count d) = false
  | None => True
  end ->
  let value := nextWindow (windowOf key) (stored kv now key) now in
  1 <= count value <= limitOf key /\ resetAt value <= now + windowOf key.
Proof.
  intros Hs Hadm. cbv zeta. unfold nextWindow.
  assert (Hlim : 1 <= limitOf key).
  { unfold limitOf, VISITOR_LIMIT, IP_LIMIT. destruct (startsWith key "session:"); lia. }
  destruct (stored kv now key) as [d|] eqn:Hst; [|cbn [count resetAt]; lia].
  destruct (stored_sound now kv key d Hs Hst) as (Hc & Hw).
  destruct (Z.ltb_spec now (resetAt d)); cbn [count resetAt]; [|lia].
  cbn [andb] in Hadm. apply Z.leb_gt in Hadm. lia.
Qed.

Lemma soundAt_afterSession (sessionId : string) (now : Z) (kv : KVNamespace) :
  soundAt now kv -> sessionDenies kv now sessionId = false ->
  soundAt now (afterSession sessionId now kv).
Proof.
  intros Hs Hden. unfold afterSession.
  pose proof (nextWindow_sound now kv (sessionKeyOf sessionId) Hs) as Hnext.
  rewrite limitOf_session, windowOf_session in Hnext. cbv zeta in Hnext.
  destruct Hnext as [Hc Hr].
  { unfold sessionDenies in Hden. destruct (stored kv now (sessionKeyOf sessionId)); auto. }
  apply soundAt_put; [exact Hs | rewrite limitOf_session; exact Hc | exact Hr |].
  rewrite windowOf_session. reflexivity.
Qed.

Lemma soundAt_afterIp (ipAddress : string) (now : Z) (kv : KVNamespace) :
  soundAt now kv -> ipDenies kv now ipAddress = false ->
  soundAt now (afterIp ipAddress now kv).
Proof.
  intros Hs Hden. unfold afterIp.
  pose proof (nextWindow_sound now kv (ipKeyOf ipAddress) Hs) as Hnext.
  rewrite limitOf_ip, windowOf_ip in Hnext. cbv zeta in Hnext.
  destruct Hnext as [Hc Hr].
  { unfold ipDenies in Hden. destruct (stored kv now (ipKeyOf ipAddress)); auto. }
  apply soundAt_put; [exact Hs | rewrite limitOf_ip; exact Hc | exact Hr | reflexivity].
Qed.

Lemma checkRateLimit_sound (sessionId ipAddress : string) (T now : Z) (kv : KVNamespace) :
  soundAt T kv -> T <= now ->
  soundAt now (snd (checkRateLimit sessionId ipAddress now kv)).
Proof.
  intros Hs Hle. apply (soundAt_later T now kv Hle) in Hs.
  rewrite checkRateLimit_cases.
  destruct (sessionDenies kv now sessionId) eqn:Hsd; [exact Hs|].
  pose proof (soundAt_afterSession sessionId now kv Hs Hsd) as Hs1.
  destruct (ipDenies kv now ipAddress) eqn:Hid; [exact Hs1|].
  cbn [snd]. apply soundAt_afterIp; [exact Hs1|].
  rewrite ipDenies_afterSession. exact Hid.
Qed.

Lemma runRequests_sound (requests : list (string * string * Z)) :
  forall (T : Z) (kv : KVNamespace),
  soundAt T kv ->
  Forall (fun request => T <= requestTime request) requests ->
  StronglySorted Z.le (map requestTime requests) ->
  exists T', soundAt T' (snd (runRequests requests kv)).
Proof.
  induction requests as [|[[sessionId ipAddress] now] rest IH]; intros T kv Hs Hge Hsorted.
  - exists T. exact Hs.
  - cbn [runRequests]. apply Forall_cons in Hge as [Hnow _]. cbn [requestTime snd] in Hnow.
    cbn [map] in Hsorted. apply StronglySorted_inv in Hsorted as [Hrest Hall].
    pose proof (checkRateLimit_sound sessionId ipAddress T now kv Hs Hnow) as Hs1.
    destruct (checkRateLimit sessionId ipAddress now kv) as [r kv1]. cbn [snd] in Hs1.
    destruct (IH now kv1 Hs1) as [T' HT'].
    { apply Forall_forall. intros request Hin. rewrite Forall_forall in Hall.
      apply Hall. apply list_elem_of_In, in_map. apply list_elem_of_In. exact Hin. }
    { exact Hrest. }
    destruct (runRequests rest kv1) as [rs kv2]. exists T'. exact HT'.
Qed.

End StoreEffects.

(** X8.  In a run of requests whose clock readings never go back,
    started on the empty store, every record of the store counts between
    1 and the limit of its key (10 under a session key, 100 under an
    address key), and the store keeps it at least until its window ends:
    the [expirationTtl] of a [put] never lets a record lapse before its
    [resetAt]. *)
Theorem run_keeps_records_sound (requests : list (string * string * Z)) :
  StronglySorted Z.le (map requestTime requests) ->
  forall key r, kv_data (snd (runRequests requests kvEmpty)) !! key = Some r ->
    1 <= count (kv_value r) <= limitOf key /\ resetAt (kv_value r) <= kv_expiration r.
Proof.
  intros Hsorted key r Hr.
  set (T := match requests with [] => 0 | request :: _ => requestTime request end).
  destruct (runRequests_sound requests T kvEmpty) as [T' HT'].
  - intros k r0 H0. unfold kvEmpty in H0. cbn [kv_data] in H0.
    rewrite lookup_empty in H0. discriminate.
  - destruct requests as [|request rest]; [constructor|].
    subst T. cbn [map] in Hsorted. apply StronglySorted_inv in Hsorted as [_ Hall].
    constructor; [lia|]. apply Forall_forall. intros q Hq. rewrite Forall_forall in Hall.
    apply Hall. apply list_elem_of_In, in_map. apply list_elem_of_In. exact Hq.
  - exact Hsorted.
  - destruct (HT' key r Hr) as (Hc & He & _). auto.
Qed.

Lemma run_keeps_records_sound_witness :
  StronglySorted Z.le
    (map requestTime [("a", "1.2.3.4", 0); ("b", "1.2.3.4", 10); ("a", "5.6.7.8", 3600)]) /\
  forall key r,
    kv_data (snd (runRequests [("a", "1.2.3.4", 0); ("b", "1.2.3.4", 10); ("a", "5.6.7.8", 3600)]
                    kvEmpty)) !! key = Some r ->
    1 <= count (kv_value r) <= limitOf key /\ resetAt (kv_value r) <= kv_expiration r.
Proof.
  assert (Hsorted : StronglySorted Z.le
    (map requestTime [("a", "1.2.3.4", 0); ("b", "1.2.3.4", 10); ("a", "5.6.7.8", 3600)])).
  { repeat (constructor; [|repeat constructor; vm_compute; discriminate]). constructor. }
  split; [exact Hsorted|].
  exact (run_keeps_records_sound
           [("a", "1.2.3.4", 0); ("b", "1.2.3.4", 10); ("a", "5.6.7.8", 3600)] Hsorted).
Defined.

Section CallEffects.

Variables (sessionId ipAddress : string) (now : Z) (kv : KVNamespace).

Lemma nextWindow_count (key : string) (data : option RateWindow) :
  match data with
  | Some d => (now <? resetAt d) && (limitOf key <=? count d) = false
  | None => True
  end ->
  count (nextWindow (windowOf key) data now) <= limitOf key.
Proof.
  intros Hadm. unfold nextWindow.
  assert (Hlim : 1 <= limitOf key).
  { unfold limitOf, VISITOR_LIMIT, IP_LIMIT. destruct (startsWith key "session:"); lia. }
  destruct data as [d|]; [|cbn [count]; lia].
  destruct (Z.ltb_spec now (resetAt d)); cbn [count]; [|lia].
  cbn [andb] in Hadm. apply Z.leb_gt in Hadm. lia.
Qed.

Lemma sessionWrite_count :
  sessionDenies kv now sessionId = false ->
  count (nextWindow HOUR_IN_SECONDS (stored kv now (sessionKeyOf sessionId)) now)
  <= VISITOR_LIMIT.
Proof.
  intros Hden. pose proof (nextWindow_count (sessionKeyOf sessionId)
                             (stored kv now (sessionKeyOf sessionId))) as H.
  rewrite limitOf_session, windowOf_session in H. apply H.
  unfold sessionDenies in Hden. destruct (stored kv now (sessionKeyOf sessionId)); auto.
Qed.

Lemma ipWrite_count (kv0 : KVNamespace) :
  ipDenies kv0 now ipAddress = false ->
  count (nextWindow DAY_IN_SECONDS (stored kv0 now (ipKeyOf ipAddress)) now) <= IP_LIMIT.
Proof.
  intros Hden. pose proof (nextWindow_count (ipKeyOf ipAddress)
                             (stored kv0 now (ipKeyOf ipAddress))) as H.
  rewrite limitOf_ip, windowOf_ip in H. apply H.
  unfold ipDenies in Hden. destruct (stored kv0 now (ipKeyOf ipAddress)); auto.
Qed.

Lemma afterSession_data :
  kv_data (afterSession sessionId now kv)
  = <[sessionKeyOf sessionId :=
        mkRecord (nextWindow HOUR_IN_SECONDS (stored kv now (sessionKeyOf sessionId)) now)
                 (now + HOUR_IN_SECONDS)]> (kv_data kv).
Proof. reflexivity. Qed.

Lemma afterSession_log :
  kv_log (afterSession sessionId now kv)
  = (kv_log kv ++
     [mkWrite (sessionKeyOf sessionId)
        (nextWindow HOUR_IN_SECONDS (stored kv now (sessionKeyOf sessionId)) now)
        HOUR_IN_SECONDS])%list.
Proof. reflexivity. Qed.

Lemma afterIp_data :
  kv_data (afterIp ipAddress now kv)
  = <[ipKeyOf ipAddress :=
        mkRecord (nextWindow DAY_IN_SECONDS (stored kv now (ipKeyOf ipAddress)) now)
                 (now + DAY_IN_SECONDS)]> (kv_data kv).
Proof. reflexivity. Qed.

Lemma afterIp_log :
  kv_log (afterIp ipAddress now kv)
  = (kv_log kv ++
     [mkWrite (ipKeyOf ipAddress)
        (nextWindow DAY_IN_SECONDS (stored kv now (ipKeyOf ipAddress)) now)
        DAY_IN_SECONDS])%list.
Proof. reflexivity. Qed.

End CallEffects.

(** X10.  What one call of [checkRateLimit] does to the store, whatever
    the store holds: it leaves every key other than the session key and
    the address key as it was, and it makes at most two writes, the
    session key first and the address key second, each with the time to
    live of its window and with a count that is not above its limit.
    The request is allowed exactly when both writes are made; nothing is
    ever deleted. *)
Theorem checkRateLimit_effect (sessionId ipAddress : string) (now : Z) (kv : KVNamespace) :
  let (result, kv') := checkRateLimit sessionId ipAddress now kv in
  (forall key, key <> sessionKeyOf sessionId -> key <> ipKeyOf ipAddress ->
     kv_data kv' !! key = kv_data kv !! key) /\
  dom (kv_data kv) ⊆ dom (kv_data kv') /\
  exists writes,
    kv_log kv' = (kv_log kv ++ writes)%list /\
    map write_key writes `prefix_of` [sessionKeyOf sessionId; ipKeyOf ipAddress] /\
    Forall (fun w => write_ttl w = windowOf (write_key w) /\
                     count (write_value w) <= limitOf (write_key w)) writes /\
    (allowed result = true <-> length writes = 2%nat).
Proof.
  rewrite checkRateLimit_cases.
  destruct (sessionDenies kv now sessionId) eqn:Hsd.
  - split; [reflexivity|]. split; [reflexivity|]. exists []. rewrite app_nil_r.
    split; [reflexivity|]. split; [apply prefix_nil|]. split; [constructor|].
    cbn. split; discriminate.
  - pose proof (sessionWrite_count sessionId now kv Hsd) as Hsc.
    destruct (ipDenies kv now ipAddress) eqn:Hid.
    + rewrite afterSession_data, afterSession_log. split.
      { intros key Hk _. rewrite lookup_insert_ne by (intros E; apply Hk; symmetry; exact E).
        reflexivity. }
      split; [rewrite dom_insert; set_solver|].
      eexists. split; [reflexivity|]. split.
      { cbn [map write_key]. exists [ipKeyOf ipAddress]. reflexivity. }
      split.
      { constructor; [|constructor]. cbn [write_ttl write_key write_value].
        rewrite windowOf_session, limitOf_session. split; [reflexivity | exact Hsc]. }
      cbn. split; discriminate.
    + rewrite <- (ipDenies_afterSession sessionId) in Hid.
      pose proof (ipWrite_count ipAddress now _ Hid) as Hic.
      rewrite afterIp_data, afterIp_log, afterSession_data, afterSession_log. split.
      { intros key Hk Hi.
        rewrite lookup_insert_ne by (intros E; apply Hi; symmetry; exact E).
        rewrite lookup_insert_ne by (intros E; apply Hk; symmetry; exact E). reflexivity. }
      split; [rewrite !dom_insert; set_solver|].
      eexists. split; [rewrite <- app_assoc; reflexivity|]. split.
      { cbn [map app write_key]. reflexivity. }
      split.
      { constructor; [|constructor; [|constructor]]; cbn [write_ttl write_key write_value].
        - rewrite windowOf_session, limitOf_session. split; [reflexivity | exact Hsc].
        - rewrite windowOf_ip, limitOf_ip. split; [reflexivity | exact Hic]. }
      cbn. split; reflexivity.
Qed.

(** X11.  The reply of [checkRateLimit]: an allowed request carries no
    reason and no [retryAfter]; a refused one carries one of the two
    fixed messages, which name the limits 10 and 100, and a [retryAfter]
    of at least one second, the time left until the stored window ends. *)
Theorem checkRateLimit_reply (sessionId ipAddress : string) (now : Z) (kv : KVNamespace) :
  let result := fst (checkRateLimit sessionId ipAddress now kv) in
  (allowed result = true -> reason result = None /\ retryAfter result = None) /\
  (allowed result = false ->
     (reason result = Some "Rate limit exceeded. You can send 10 messages per hour." \/
      reason result = Some "IP rate limit exceeded. Maximum 100 messages per day.") /\
     exists (seconds : Z) (data : RateWindow),
       retryAfter result = Some seconds /\ 1 <= seconds /\
       seconds = resetAt data - now /\
       (stored kv now (sessionKeyOf sessionId) = Some data \/
        stored kv now (ipKeyOf ipAddress) = Some data)).
Proof.
  cbv zeta. rewrite checkRateLimit_cases.
  destruct (sessionDenies kv now sessionId) eqn:Hsd; cbn [fst allowed reason retryAfter].
  - split; [discriminate|]. intros _. split; [left; reflexivity|].
    unfold sessionDenies in Hsd.
    destruct (stored kv now (sessionKeyOf sessionId)) as [d|]; [|discriminate].
    apply andb_prop in Hsd as [Hlt _]. apply Z.ltb_lt in Hlt.
    exists (resetAt d - now), d. cbn [from_option]. repeat split; [lia | left; reflexivity].
  - destruct (ipDenies kv now ipAddress) eqn:Hid; cbn [fst allowed reason retryAfter].
    + split; [discriminate|]. intros _. split; [right; reflexivity|].
      unfold ipDenies in Hid.
      destruct (stored kv now (ipKeyOf ipAddress)) as [d|]; [|discriminate].
      apply andb_prop in Hid as [Hlt _]. apply Z.ltb_lt in Hlt.
      exists (resetAt d - now), d. cbn [from_option]. repeat split; [lia | right; reflexivity].
    + split; [auto | discriminate].
Qed.

(** ** The hash of the session fall-back *)

Section Hashing.

Lemma toInt32_range (z : Z) : - 2 ^ 31 <= toInt32 z < 2 ^ 31.
Proof.
  unfold toInt32. pose proof (Z.mod_pos_bound (z + 2 ^ 31) (2 ^ 32) ltac:(lia)). lia.
Qed.

Lemma toInt32_small (z : Z) : - 2 ^ 31 <= z < 2 ^ 31 -> toInt32 z = z.
Proof. intros Hz. unfold toInt32. rewrite Z.mod_small; lia. Qed.

Lemma toInt32_shift (z k : Z) : toInt32 (z + k * 2 ^ 32) = toInt32 z.
Proof.
  unfold toInt32. replace (z + k * 2 ^ 32 + 2 ^ 31) with (z + 2 ^ 31 + k * 2 ^ 32) by lia.
  rewrite Z_mod_plus_full. reflexivity.
Qed.

Lemma toInt32_rep (z : Z) : exists k, toInt32 z = z + k * 2 ^ 32.
Proof.
  exists (- ((z + 2 ^ 31) / 2 ^ 32)). unfold toInt32.
  pose proof (Z.div_mod (z + 2 ^ 31) (2 ^ 32) ltac:(lia)). lia.
Qed.

Lemma hashStep_poly (hash : Z) (c : ascii) :
  hashStep hash c = toInt32 (hash * 31 + charCode c).
Proof.
  unfold hashStep. cbv zeta. rewrite Z.land_diag, Z.shiftl_mul_pow2 by lia.
  destruct (toInt32_rep hash) as [k1 ->].
  destruct (toInt32_rep ((hash + k1 * 2 ^ 32) * 2 ^ 5)) as [k2 ->].
  replace ((hash + k1 * 2 ^ 32) * 2 ^ 5 + k2 * 2 ^ 32 - hash + charCode c)
    with (hash * 31 + charCode c + (32 * k1 + k2) * 2 ^ 32) by lia.
  apply toInt32_shift.
Qed.

Lemma polyFrom_shift (s : string) :
  forall h k, exists k', polyFrom (h + k * 2 ^ 32) s = polyFrom h s + k' * 2 ^ 32.
Proof.
  induction s as [|c rest IH]; intros h k; cbn [polyFrom].
  - exists k. reflexivity.
  - replace ((h + k * 2 ^ 32) * 31 + charCode c)
      with (h * 31 + charCode c + (31 * k) * 2 ^ 32) by lia.
    apply IH.
Qed.

Lemma hashLoop_range (s : string) :
  forall h, - 2 ^ 31 <= h < 2 ^ 31 -> - 2 ^ 31 <= hashLoop h s < 2 ^ 31.
Proof.
  induction s as [|c rest IH]; intros h Hh; cbn [hashLoop]; [exact Hh|].
  apply IH. rewrite hashStep_poly. apply toInt32_range.
Qed.

Lemma hashLoop_poly (s : string) :
  forall h, toInt32 (hashLoop h s) = toInt32 (polyFrom h s).
Proof.
  induction s as [|c rest IH]; intros h; cbn [hashLoop polyFrom]; [reflexivity|].
  rewrite IH, hashStep_poly.
  destruct (toInt32_rep (h * 31 + charCode c)) as [k ->].
  destruct (polyFrom_shift rest (h * 31 + charCode c) k) as [k' ->].
  apply toInt32_shift.
Qed.

Lemma digitValue_digit36 (d : Z) : 0 <= d < 36 -> digitValue (digit36 d) = d.
Proof.
  intros Hd. unfold digitValue, digit36.
  destruct (Z.ltb_spec d 10); cbv zeta;
    rewrite nat_ascii_embedding by lia; rewrite Z2Nat.id by lia.
  - destruct (Z.ltb_spec (48 + d) 58); lia.
  - destruct (Z.ltb_spec (87 + d) 58); lia.
Qed.

Lemma digit36_char (d : Z) : 0 <= d < 36 -> isLowerOrDigit (digit36 d) = true.
Proof.
  intros Hd.
  assert (Hcases : d = 0 \/ d = 1 \/ d = 2 \/ d = 3 \/ d = 4 \/ d = 5 \/ d = 6 \/ d = 7 \/
                   d = 8 \/ d = 9 \/ d = 10 \/ d = 11 \/ d = 12 \/ d = 13 \/ d = 14 \/
                   d = 15 \/ d = 16 \/ d = 17 \/ d = 18 \/ d = 19 \/ d = 20 \/ d = 21 \/
                   d = 22 \/ d = 23 \/ d = 24 \/ d = 25 \/ d = 26 \/ d = 27 \/ d = 28 \/
                   d = 29 \/ d = 30 \/ d = 31 \/ d = 32 \/ d = 33 \/ d = 34 \/ d = 35) by lia.
  repeat (destruct Hcases as [-> | Hcases]; [reflexivity|]). subst d. reflexivity.
Qed.

Lemma parseFrom_app (s t : string) :
  forall v, parseFrom v (s +:+ t) = parseFrom (parseFrom v s) t.
Proof.
  induction s as [|c rest IH]; intros v.
  - rewrite append_nil. reflexivity.
  - rewrite append_cons. cbn [parseFrom]. apply IH.
Qed.

Lemma string_length_app (s t : string) :
  String.length (s +:+ t) = (String.length s + String.length t)%nat.
Proof.
  induction s as [|c rest IH]; [rewrite append_nil; reflexivity|].
  rewrite append_cons. cbn [String.length]. rewrite IH. reflexivity.
Qed.

(** The digits [toBase36] puts in front of [acc]. *)
Lemma toBase36_digits (fuel : nat) :
  forall (k : nat) (n : Z) (acc : string),
  (k <= fuel)%nat -> 0 <= n < 36 ^ Z.of_nat (S k) ->
  exists digits,
    toBase36 (S fuel) n acc = digits +:+ acc /\
    parseFrom 0 digits = n /\
    (1 <= String.length digits <= S k)%nat /\
    allChars (fun c => isLowerOrDigit c = true) digits.
Proof.
  induction fuel as [|fuel IH]; intros k n acc Hk Hn.
  - assert (k = 0%nat) by lia. subst k. change (36 ^ Z.of_nat 1) with 36 in Hn.
    exists (String (digit36 (n mod 36)) EmptyString).
    cbn [toBase36]. rewrite Z.div_small by lia. cbn [Z.eqb].
    rewrite append_cons, append_nil. split; [reflexivity|].
    rewrite Z.mod_small by lia. cbn [parseFrom String.length allChars].
    rewrite digitValue_digit36 by lia. rewrite digit36_char by lia.
    split; [lia|]. split; [lia|]. auto.
  - assert (Hmod : 0 <= n mod 36 < 36) by (apply Z.mod_pos_bound; lia).
    pose proof (Z.div_mod n 36 ltac:(lia)) as Hdm.
    change (toBase36 (S (S fuel)) n acc)
      with (if n / 36 =? 0 then String (digit36 (n mod 36)) acc
            else toBase36 (S fuel) (n / 36) (String (digit36 (n mod 36)) acc)).
    destruct (Z.eqb_spec (n / 36) 0) as [Hz|Hnz].
    + exists (String (digit36 (n mod 36)) EmptyString).
      rewrite append_cons, append_nil. split; [reflexivity|].
      cbn [parseFrom String.length allChars].
      rewrite digitValue_digit36 by lia. rewrite digit36_char by lia.
      split; [lia|]. split; [lia|]. auto.
    + assert (Hq : 0 < n / 36) by (pose proof (Z.div_pos n 36 ltac:(lia) ltac:(lia)); lia).
      destruct k as [|k].
      { change (36 ^ Z.of_nat 1) with 36 in Hn. rewrite Z.div_small in Hnz by lia. lia. }
      assert (Hdiv : 0 <= n / 36 < 36 ^ Z.of_nat (S k)).
      { split; [lia|]. apply Z.div_lt_upper_bound; [lia|].
        replace (Z.of_nat (S (S k))) with (Z.succ (Z.of_nat (S k))) in Hn by lia.
        rewrite Z.pow_succ_r in Hn by lia. lia. }
      destruct (IH k (n / 36) (String (digit36 (n mod 36)) acc) ltac:(lia) Hdiv)
        as (ds & Heq & Hval & Hlen & Hch).
      exists (ds +:+ String (digit36 (n mod 36)) EmptyString). split.
      { rewrite Heq, append_assoc, append_cons, append_nil. reflexivity. }
      split.
      { rewrite parseFrom_app, Hval. cbn [parseFrom].
        rewrite digitValue_digit36 by lia. lia. }
      split.
      { rewrite string_length_app. cbn [String.length]. lia. }
      apply allChars_app; [exact Hch|]. cbn [allChars].
      rewrite digit36_char by lia. auto.
Qed.

End Hashing.

(** X12.  [hashString]: the loop computes the polynomial in 31 of the
    character codes, wrapped to a signed 32-bit integer, and the result
    is the base-36 numeral of its absolute value: one to six characters,
    each a digit or a lower-case letter, that read back as that number. *)
Theorem hashString_numeral (str : string) :
  let hash := hashLoop 0 str in
  hash = toInt32 (polyHash str) /\
  - 2 ^ 31 <= hash < 2 ^ 31 /\
  parseBase36 (hashString str) = Z.abs hash /\
  (1 <= String.length (hashString str) <= 6)%nat /\
  allChars (fun c => isLowerOrDigit c = true) (hashString str).
Proof.
  cbv zeta.
  pose proof (hashLoop_range str 0 ltac:(lia)) as Hrange.
  split.
  { rewrite <- (toInt32_small (hashLoop 0 str)) at 1 by exact Hrange. apply hashLoop_poly. }
  split; [exact Hrange|].
  destruct (toBase36_digits 6 5 (Z.abs (hashLoop 0 str)) EmptyString ltac:(lia))
    as (ds & Heq & Hval & Hlen & Hch).
  { change (36 ^ Z.of_nat 6) with 2176782336. lia. }
  unfold hashString, parseBase36. rewrite Heq, append_empty_r.
  split; [exact Hval|]. split; [exact Hlen | exact Hch].
Qed.

Example hashString_numeral_sample :
  hashString "abc" = "22ci" /\ parseBase36 "22ci" = 96354 /\ polyHash "abc" = 96354 /\
  hashString "" = "0".
Proof. repeat split; vm_compute; reflexivity. Qed.

(** ** Who the visitor is *)

Section Identity.

Lemma orLiteral_nonempty (v : option string) (lit : string) :
  lit <> "" -> orLiteral v lit <> "".
Proof.
  intros Hlit. unfold orLiteral, jsOr.
  destruct v as [s|]; cbn [truthy]; [|exact Hlit].
  destruct (String.eqb_spec s ""); cbn [negb]; [exact Hlit | assumption].
Qed.

Lemma orLiteral_truthy (v : option string) (lit : string) :
  truthy v = true -> orLiteral v lit = interpolate v.
Proof.
  intros Hv. unfold orLiteral, jsOr. rewrite Hv.
  destruct v as [s|]; [reflexivity | discriminate].
Qed.

Lemma orLiteral_falsy (v : option string) (lit : string) :
  truthy v = false -> orLiteral v lit = lit.
Proof.
  intros Hv. unfold orLiteral, jsOr. rewrite Hv. reflexivity.
Qed.

Lemma beforeComma_free (s : string) : countChar ","%char (beforeComma s) = 0%nat.
Proof.
  induction s as [|c rest IH]; [reflexivity|]. cbn [beforeComma].
  destruct (Ascii.eqb c ","%char) eqn:Hc; [reflexivity|].
  cbn [countChar]. rewrite Hc, IH. reflexivity.
Qed.

End Identity.

(** X13.  [getClientIP] and [getSessionId] never return the empty
    string: an empty header counts as missing.  A non-empty
    CF-Connecting-IP is the address as it stands; without it the address
    is the part of X-Forwarded-For before its first comma, or 'unknown'
    when that header is missing or that part is empty, and so holds no
    comma.  A non-empty X-Session-ID is the session as it stands;
    without it the session is the connecting address (or 'unknown'), a
    hyphen and the hash of the user agent, and X-Forwarded-For plays no
    part in it. *)
Theorem visitor_identity (request : Request) :
  getClientIP request <> "" /\
  getSessionId request <> "" /\
  (truthy (req_connectingIP request) = true ->
     getClientIP request = interpolate (req_connectingIP request)) /\
  (truthy (req_connectingIP request) = false ->
     countChar ","%char (getClientIP request) = 0%nat /\
     (forall forwarded, req_forwardedFor request = Some forwarded ->
        beforeComma forwarded <> "" -> getClientIP request = beforeComma forwarded)) /\
  (truthy (req_sessionHeader request) = true ->
     getSessionId request = interpolate (req_sessionHeader request)) /\
  (truthy (req_sessionHeader request) = false ->
     getSessionId request
     = orLiteral (req_connectingIP request) "unknown" +:+ "-" +:+
       hashString (orLiteral (req_userAgent request) "unknown")) /\
  (truthy (req_connectingIP request) = false ->
     (forall forwarded, req_forwardedFor request = Some forwarded ->
        beforeComma forwarded = "") ->
     getClientIP request = "unknown") /\
  (truthy (req_sessionHeader request) = false ->
     truthy (req_connectingIP request) = false ->
     getSessionId request
     = "unknown-" +:+ hashString (orLiteral (req_userAgent request) "unknown")).
Proof.
  split; [apply orLiteral_nonempty; discriminate|].
  split.
  { unfold getSessionId. destruct (truthy (req_sessionHeader request)) eqn:Hs.
    - destruct (req_sessionHeader request) as [s|]; [|discriminate]. cbn [truthy interpolate] in *.
      destruct (String.eqb_spec s ""); [discriminate | assumption].
    - cbv zeta. intros H.
      pose proof (orLiteral_nonempty (req_connectingIP request) "unknown" ltac:(discriminate)) as Hip.
      destruct (orLiteral (req_connectingIP request) "unknown"); [contradiction|].
      rewrite append_cons in H. discriminate. }
  split.
  { intros Hip. unfold getClientIP, jsOr. rewrite Hip. apply orLiteral_truthy. exact Hip. }
  split.
  { intros Hip. unfold getClientIP, jsOr. rewrite Hip.
    destruct (req_forwardedFor request) as [xff|]; [|split; [reflexivity | discriminate]].
    destruct (truthy (Some (beforeComma xff))) eqn:Hx.
    - rewrite orLiteral_truthy by exact Hx. cbn [interpolate].
      split; [apply beforeComma_free|]. intros f [= <-] _. reflexivity.
    - rewrite orLiteral_falsy by exact Hx. split; [reflexivity|].
      intros f [= <-] Hne. cbn [truthy] in Hx.
      destruct (String.eqb_spec (beforeComma xff) ""); [contradiction | discriminate]. }
  split; [intros Hs; unfold getSessionId; rewrite Hs; reflexivity|].
  split; [intros Hs; unfold getSessionId; rewrite Hs; reflexivity|].
  split.
  - intros Hip Hxff. unfold getClientIP, jsOr. rewrite Hip.
    destruct (req_forwardedFor request) as [xff|]; [|reflexivity].
    rewrite (Hxff xff eq_refl). reflexivity.
  - intros Hs Hip. unfold getSessionId. rewrite Hs. cbv zeta.
    rewrite (orLiteral_falsy _ _ Hip).
    repeat (rewrite append_cons || rewrite append_nil). reflexivity.
Qed.

(** ** The request to the provider *)

Section Trimming.

Lemma dropTrailingSpace_idem (s : string) :
  dropTrailingSpace (dropTrailingSpace s) = dropTrailingSpace s.
Proof.
  induction s as [|c rest IH]; [reflexivity|]. cbn [dropTrailingSpace].
  destruct (dropTrailingSpace rest) as [|d rest'] eqn:Hrest.
  - destruct (isSpace c) eqn:Hc; [reflexivity|]. cbn [dropTrailingSpace]. rewrite Hc. reflexivity.
  - change (dropTrailingSpace (String c (String d rest')))
      with (match dropTrailingSpace (String d rest') with
            | EmptyString => if isSpace c then EmptyString else String c EmptyString
            | r' => String c r'
            end).
    rewrite IH. reflexivity.
Qed.

Lemma dropTrailingSpace_head (c : ascii) (rest : string) :
  isSpace c = false -> exists rest', dropTrailingSpace (String c rest) = String c rest'.
Proof.
  intros Hc. cbn [dropTrailingSpace]. rewrite Hc.
  destruct (dropTrailingSpace rest); eauto.
Qed.

Lemma dropLeadingSpace_head (s : string) :
  dropLeadingSpace s = EmptyString \/
  exists c rest, dropLeadingSpace s = String c rest /\ isSpace c = false.
Proof.
  induction s as [|c rest IH]; [left; reflexivity|]. cbn [dropLeadingSpace].
  destruct (isSpace c) eqn:Hc; [exact IH|]. right. eauto.
Qed.

Lemma trim_idem (s : string) : trim (trim s) = trim s.
Proof.
  unfold trim. destruct (dropLeadingSpace_head s) as [-> | (c & rest & -> & Hc)]; [reflexivity|].
  destruct (dropTrailingSpace_head c rest Hc) as [rest' Hd]. rewrite Hd.
  cbn [dropLeadingSpace]. rewrite Hc, <- Hd. apply dropTrailingSpace_idem.
Qed.

Lemma callTrim_trimmed (v : option Json) (text : string) :
  callTrim v = Normal text -> trim text = text.
Proof.
  destruct v as [[| | |s| |]|]; try discriminate. intros [= <-]. apply trim_idem.
Qed.

Lemma extractResponse_trimmed (provider : Provider) (name : string) (data : Json)
    (text : string) :
  PROVIDERS name = Some provider ->
  extractResponse provider data = Normal text -> trim text = text.
Proof.
  unfold PROVIDERS. intros Hp.
  destruct (String.eqb name "openai"); [|destruct (String.eqb name "anthropic")];
    [injection Hp as <- | injection Hp as <- | discriminate];
    cbn [extractResponse openai anthropic]; unfold bindC.
  - destruct (getProp (Some data) "choices") as [choices|]; [|discriminate].
    destruct (negb (isTruthy choices)); [discriminate|].
    destruct (getLength choices) as [len|]; [|discriminate].
    destruct (isZero len); [discriminate|].
    destruct (getFirst choices) as [first|]; [|discriminate].
    destruct (getProp first "message") as [message|]; [|discriminate].
    destruct (getProp message "content") as [content|]; [|discriminate].
    apply callTrim_trimmed.
  - destruct (getProp (Some data) "content") as [content|]; [|discriminate].
    destruct (negb (isTruthy content)); [discriminate|].
    destruct (getLength content) as [len|]; [|discriminate].
    destruct (isZero len); [discriminate|].
    destruct (getFirst content) as [first|]; [|discriminate].
    destruct (getProp first "text") as [text'|]; [|discriminate].
    apply callTrim_trimmed.
Qed.

End Trimming.

(** X14.  A text returned by [generateResponse] has no white space at
    its start or at its end: trimming it again changes nothing. *)
Theorem generated_text_is_trimmed (fetch : FetchCall -> FetchOutcome)
    (userMessage ragContext : string) (apiKey : option string) (options : Options)
    (text : string) :
  fst (generateResponse fetch userMessage ragContext apiKey options) = Normal text ->
  trim text = text.
Proof.
  unfold generateResponse.
  destruct (PROVIDERS (orLiteral (opt_provider options) "openai")) as [provider|] eqn:Hp.
  - cbv zeta. cbn [fst].
    match goal with |- context [fetch ?c] => destruct (fetch c) as [|status body] end;
      [discriminate|].
    destruct (negb (isOk status)); [discriminate|].
    destruct body as [data|]; [|discriminate].
    apply (extractResponse_trimmed provider _ data text Hp).
  - destruct (existsb _ inheritedNames); discriminate.
Qed.

Lemma generated_text_is_trimmed_witness :
  fst (generateResponse
         (fun _ => Responded 200
            (Some (JObj [("choices",
                          JArr [JObj [("message", JObj [("content", JStr "  Hello there.
")])]])])))
         "Hi" "context" (Some "key") (mkOptions None None)) = Normal "Hello there." /\
  trim "Hello there." = "Hello there.".
Proof.
  assert (H : fst (generateResponse
         (fun _ => Responded 200
            (Some (JObj [("choices",
                          JArr [JObj [("message", JObj [("content", JStr "  Hello there.
")])]])])))
         "Hi" "context" (Some "key") (mkOptions None None)) = Normal "Hello there.")
    by (vm_compute; reflexivity).
  split; [exact H|].
  exact (generated_text_is_trimmed _ _ _ _ _ _ H).
Defined.

(** X15.  The request [generateResponse] builds when, as in the worker,
    the options set neither temperature nor maxTokens (the defaults 0.7
    and 500 apply).  For 'openai' the body
    lists the system prompt, the knowledge-base context and the user's
    message as three messages and the key travels as a bearer token; for
    'anthropic' the two system texts are joined by a blank line into
    [system], the user's message is the only message, and the key
    travels in x-api-key.  The user's text is never part of a system
    text, and a missing key is sent as the text 'undefined'.  Under any
    other provider name no request is made and the function throws. *)
Theorem generateResponse_request (fetch : FetchCall -> FetchOutcome)
    (userMessage ragContext : string) (apiKey : option string) (options : Options) :
  let providerName := orLiteral (opt_provider options) "openai" in
  let context :=
    "Here is the relevant information from the knowledge base:

" +:+ ragContext +:+ "

Use ONLY this information to answer the user's question. If the answer isn't in these entries, say so honestly." in
  let result := generateResponse fetch userMessage ragContext apiKey options in
  (providerName = "openai" ->
     snd result =
     [ mkFetch "https://api.openai.com/v1/chat/completions" "POST"
         [ ("Content-Type", "application/json");
           ("Authorization", "Bearer " +:+ interpolate apiKey) ]
         (OpenAIPayload (orLiteral (opt_model options) "gpt-3.5-turbo")
            [ mkMessage "system" SYSTEM_PROMPT; mkMessage "system" context;
              mkMessage "user" userMessage ]
            (7 # 10)%Q 500 1 0 0)
         None ]) /\
  (providerName = "anthropic" ->
     snd result =
     [ mkFetch "https://api.anthropic.com/v1/messages" "POST"
         [ ("Content-Type", "application/json");
           ("x-api-key", interpolate apiKey);
           ("anthropic-version", "2023-06-01") ]
         (AnthropicPayload (orLiteral (opt_model options) "claude-haiku-4-5-20251001")
            500 (7 # 10)%Q
            (SYSTEM_PROMPT +:+ "

" +:+ context)
            [ mkMessage "user" userMessage ])
         None ]) /\
  (providerName <> "openai" -> providerName <> "anthropic" ->
     snd result = [] /\
     (fst result = Throw (UnknownProvider providerName) \/ fst result = Throw TypeError)).
Proof.
  cbv zeta. unfold generateResponse.
  split; [|split].
  - intros ->. reflexivity.
  - intros ->. reflexivity.
  - intros Ho Ha. unfold PROVIDERS.
    destruct (String.eqb_spec (orLiteral (opt_provider options) "openai") "openai");
      [contradiction|].
    destruct (String.eqb_spec (orLiteral (opt_provider options) "openai") "anthropic");
      [contradiction|].
    destruct (existsb _ inheritedNames); cbn [fst snd]; auto.
Qed.

(** ** The chat handler, outcome by outcome *)

Section ChatOutcomes.

Variable allowedOrigins : list string.
Variable knowledgeBase : list Entry.
Variable fetch : FetchCall -> FetchOutcome.
Variable clock : Clock.

Lemma trim_empty_length (text : string) :
  (String.length (trim text) =? 0)%nat = false <-> trim text <> "".
Proof.
  destruct (trim text) as [|c rest]; cbn [String.length Nat.eqb]; split.
  - discriminate.
  - intros H. contradiction H. reflexivity.
  - intros _. discriminate.
  - reflexivity.
Qed.

Lemma validMessage_spec (message : option Json) (text : string) :
  validMessage message = Some text <-> message = Some (JStr text) /\ trim text <> "".
Proof.
  unfold validMessage. split.
  - destruct message as [[| | |s| |]|]; try discriminate.
    destruct (negb (String.eqb s "")) eqn:Hs; [|discriminate]. cbn [andb].
    destruct (negb (String.length (trim s) =? 0)%nat) eqn:Ht; [|discriminate].
    intros [= <-]. split; [reflexivity|]. apply trim_empty_length.
    apply negb_true_iff. exact Ht.
  - intros [-> Ht].
    assert (Hs : String.eqb text "" = false).
    { destruct (String.eqb_spec text ""); [subst; contradiction Ht; reflexivity | reflexivity]. }
    rewrite Hs. apply trim_empty_length in Ht. rewrite Ht. reflexivity.
Qed.

Lemma acceptedMessage_spec (request : Request) (text : string) :
  acceptedMessage request = Some text <->
  exists props, req_body request = Some (JObj props) /\
                lookupProp "message" props = Some (JStr text) /\ trim text <> "".
Proof.
  unfold acceptedMessage. split.
  - destruct (req_body request) as [[| | | | |props]|]; cbn [getProp]; try discriminate;
      try (intros H; apply validMessage_spec in H as [H _]; discriminate).
    intros H. apply validMessage_spec in H as [H Ht]. exists props. auto.
  - intros (props & -> & Hm & Ht). cbn [getProp]. apply validMessage_spec. auto.
Qed.

(** The handler on a request whose message is accepted. *)
Lemma handleChat_accepted (request : Request) (env : Env) (kv : KVNamespace) (message : string) :
  acceptedMessage request = Some message ->
  handleChat allowedOrigins knowledgeBase fetch clock request env kv =
  let origin := req_origin request in
  let (rateLimitResult, kv') :=
    checkRateLimit (getSessionId request) (getClientIP request) (clock_now clock) kv in
  if negb (allowed rateLimitResult) then
    match retryAfter rateLimitResult with
    | None => mkHandled (internalError allowedOrigins origin) kv' []
    | Some seconds =>
        mkHandled
          (mkResponse
             (RateLimitBody (reason rateLimitResult) (retryAfter rateLimitResult))
             429
             (("Content-Type", Some "application/json")
              :: ("Retry-After", Some (showZ seconds))
              :: getCorsHeaders allowedOrigins origin))
          kv' []
    end
  else
    let retrievedEntries := retrieveEntries message knowledgeBase 5 in
    if (length retrievedEntries =? 0)%nat then
      mkHandled
        (mkResponse
           (ChatBody NO_MATCH_RESPONSE DEFAULT_SUGGESTIONS
              (mkMetadata (clock_ragTimeMs clock) None None 0 None))
           200 (jsonHeaders allowedOrigins origin))
        kv' []
    else
      match formatEntriesForContext retrievedEntries with
      | Throw _ => mkHandled (internalError allowedOrigins origin) kv' []
      | Normal ragContext =>
          let (generated, calls) :=
            generateResponse fetch message ragContext
              (if String.eqb (chosenProvider env) "anthropic" then ANTHROPIC_API_KEY env
               else OPENAI_API_KEY env)
              (mkOptions (Some (chosenProvider env)) (jsOr (AI_MODEL env) None)) in
          mkHandled
            (mkResponse
               (ChatBody
                  (match generated with Normal text => text | Throw _ => getFallbackResponse end)
                  DEFAULT_SUGGESTIONS
                  (mkMetadata (clock_ragTimeMs clock) (Some (clock_aiTimeMs clock))
                     (Some (clock_ragTimeMs clock + clock_aiTimeMs clock))
                     (Z.of_nat (length retrievedEntries))
                     (Some (distinct [] (map entry_topic retrievedEntries)))))
               200 (jsonHeaders allowedOrigins origin))
            kv' calls
      end.
Proof.
  unfold acceptedMessage, handleChat.
  destruct (req_body request) as [body|]; [|discriminate].
  destruct (getProp (Some body) "message") as [m|]; [|discriminate].
  intros ->. reflexivity.
Qed.

(** A request whose message is not accepted changes nothing. *)
Lemma rejected_chat_outcome (request : Request) (env : Env) (kv : KVNamespace) :
  acceptedMessage request = None ->
  store (handleChat allowedOrigins knowledgeBase fetch clock request env kv) = kv /\
  providerCalls (handleChat allowedOrigins knowledgeBase fetch clock request env kv) = [].
Proof.
  unfold acceptedMessage, handleChat.
  destruct (req_body request) as [body|]; [|split; reflexivity].
  destruct (getProp (Some body) "message") as [message|]; [|split; reflexivity].
  intros ->. split; reflexivity.
Qed.

Lemma rejected_chat_status (request : Request) (env : Env) (kv : KVNamespace) :
  acceptedMessage request = None ->
  resp_status (response (handleChat allowedOrigins knowledgeBase fetch clock request env kv))
  = match req_body request with
    | None | Some JNull => 500
    | Some _ => 400
    end.
Proof.
  unfold acceptedMessage, handleChat.
  destruct (req_body request) as [body|]; [|reflexivity].
  destruct body; cbn [getProp]; try reflexivity; intros ->; reflexivity.
Qed.

(** A refusal of the rate limiter names the seconds to wait. *)
Lemma denied_retryAfter (sessionId ipAddress : string) (now : Z) (kv : KVNamespace) :
  allowed (fst (checkRateLimit sessionId ipAddress now kv)) = false ->
  exists seconds text,
    retryAfter (fst (checkRateLimit sessionId ipAddress now kv)) = Some seconds /\
    reason (fst (checkRateLimit sessionId ipAddress now kv)) = Some text /\
    1 <= seconds.
Proof.
  rewrite checkRateLimit_cases.
  destruct (sessionDenies kv now sessionId) eqn:Hsd; cbn [fst allowed reason retryAfter].
  - intros _. unfold sessionDenies in Hsd.
    destruct (stored kv now (sessionKeyOf sessionId)) as [d|]; [|discriminate].
    apply andb_prop in Hsd as [Hlt _]. apply Z.ltb_lt in Hlt.
    exists (resetAt d - now), sessionReason. cbn [from_option]. repeat split. lia.
  - destruct (ipDenies kv now ipAddress) eqn:Hid; cbn [fst allowed reason retryAfter];
      [|discriminate].
    intros _. unfold ipDenies in Hid.
    destruct (stored kv now (ipKeyOf ipAddress)) as [d|]; [|discriminate].
    apply andb_prop in Hid as [Hlt _]. apply Z.ltb_lt in Hlt.
    exists (resetAt d - now), ipReason. cbn [from_option]. repeat split. lia.
Qed.

End ChatOutcomes.

(** X18.  A chat request whose message is not accepted leaves the store
    as it was and reaches no provider.  It is answered 500 when the body
    is not JSON or is [null], and 400 with 'Please provide a message.'
    in every other case: no quota is spent on it. *)
Theorem rejected_chat_request
    (allowedOrigins : list string) (knowledgeBase : list Entry)
    (fetch : FetchCall -> FetchOutcome) (clock : Clock)
    (request : Request) (env : Env) (kv : KVNamespace) :
  acceptedMessage request = None ->
  let handled := handleChat allowedOrigins knowledgeBase fetch clock request env kv in
  store handled = kv /\ providerCalls handled = [] /\
  (req_body request = None \/ req_body request = Some JNull ->
     resp_status (response handled) = 500) /\
  (forall body, req_body request = Some body -> body <> JNull ->
     resp_status (response handled) = 400 /\
     resp_body (response handled) = ErrorBody "Please provide a message.").
Proof.
  unfold acceptedMessage, handleChat. cbv zeta.
  destruct (req_body request) as [body|].
  - destruct (getProp (Some body) "message") as [message|] eqn:Hm.
    + intros ->. cbn [store providerCalls response resp_status resp_body].
      split; [reflexivity|]. split; [reflexivity|]. split.
      * intros [H|H]; [discriminate|]. injection H as ->. discriminate.
      * intros b _ _. split; reflexivity.
    + intros _. cbn [store providerCalls response resp_status resp_body internalError].
      split; [reflexivity|]. split; [reflexivity|]. split; [reflexivity|].
      intros b [= <-] Hb. destruct body; try discriminate. contradiction.
  - intros _. cbn [store providerCalls response resp_status resp_body internalError].
    split; [reflexivity|]. split; [reflexivity|]. split; [reflexivity|].
    intros b H. discriminate.
Qed.

Lemma rejected_chat_request_witness :
  let request := mkRequest "POST" "/chat" None None None None None
                   (Some (JObj [("message", JStr "   ")])) in
  acceptedMessage request = None /\
  resp_status (response (handleChat ALLOWED_ORIGINS sampleKnowledgeBase (fun _ => Rejected)
                           sampleClock request sampleEnv kvEmpty)) = 400.
Proof.
  cbv zeta.
  assert (H : acceptedMessage (mkRequest "POST" "/chat" None None None None None
                                 (Some (JObj [("message", JStr "   ")]))) = None)
    by (vm_compute; reflexivity).
  split; [exact H|].
  destruct (rejected_chat_request ALLOWED_ORIGINS sampleKnowledgeBase (fun _ => Rejected)
              sampleClock _ sampleEnv kvEmpty H) as (_ & _ & _ & H400).
  destruct (H400 _ eq_refl ltac:(discriminate)) as [Hs _]. exact Hs.
Defined.

Section ChatReplies.

Variable allowedOrigins : list string.
Variable knowledgeBase : list Entry.
Variable fetch : FetchCall -> FetchOutcome.
Variable clock : Clock.

Lemma format_wellFormed (entries : list Entry) :
  Forall wellFormed entries -> exists text, formatEntriesForContext entries = Normal text.
Proof.
  intros Hwf. destruct (formatBlocks_blocks entries 0 Hwf) as (blocks & Hb & _).
  exists (join divider blocks). unfold formatEntriesForContext. rewrite Hb. reflexivity.
Qed.

Lemma format_normal_wellFormed (entries : list Entry) (text : string) :
  formatEntriesForContext entries = Normal text -> Forall wellFormed entries.
Proof.
  intros Htext. destruct (tags_present_or_missing entries) as [Hwf|Hex]; [exact Hwf|].
  assert (Hnot : ~ Forall wellFormed entries).
  { intros Hwf. apply Exists_exists in Hex as (e & He & Hnone).
    rewrite Forall_forall in Hwf. destruct (Hwf e He) as [tags Ht]. congruence. }
  unfold formatEntriesForContext in Htext. rewrite (formatBlocks_throw _ _ Hnot) in Htext.
  discriminate.
Qed.

Lemma wellFormed_or_missing (entries : list Entry) :
  Exists (fun e => entry_tags e = None) entries <-> ~ Forall wellFormed entries.
Proof.
  split.
  - intros Hex Hwf. apply Exists_exists in Hex as (e & He & Hnone).
    rewrite Forall_forall in Hwf. destruct (Hwf e He) as [tags Ht]. congruence.
  - intros Hnot. destruct (tags_present_or_missing entries); [contradiction | assumption].
Qed.

Lemma retrieveEntries_length (question : string) (topN : Z) :
  0 <= topN -> Z.of_nat (length (retrieveEntries question knowledgeBase topN)) <= topN.
Proof.
  intros Htop. destruct (extractKeywords question) as [|k ks] eqn:Hkw.
  - rewrite (retrieveEntries_fallback _ _ _ Hkw). apply slice0_length. exact Htop.
  - rewrite retrieveEntries_keywords by (rewrite Hkw; discriminate).
    rewrite length_map. apply slice0_length. exact Htop.
Qed.

Lemma retrieved_wellFormed (question : string) (topN : Z) :
  Forall wellFormed knowledgeBase ->
  Forall wellFormed (retrieveEntries question knowledgeBase topN).
Proof.
  intros Hwf. rewrite Forall_forall in *. intros e He. apply Hwf.
  eapply elem_of_submseteq; [exact He | apply retrieveEntries_submseteq].
Qed.

Lemma distinct_spec (xs : list (option string)) :
  forall seen,
  NoDup (distinct seen xs) /\
  forall x, x ∈ distinct seen xs <-> x ∈ xs /\ x ∉ seen.
Proof.
  induction xs as [|x rest IH]; intros seen; cbn [distinct].
  - split; [constructor|]. intros y. split; [intros H; inversion H | intros [H _]; inversion H].
  - destruct (bool_decide_reflect (x ∈ seen)) as [Hin|Hnin].
    + destruct (IH seen) as [Hnd Hmem]. split; [exact Hnd|]. intros y. rewrite Hmem.
      rewrite elem_of_cons. split; [tauto|]. intros [[->|Hy] Hs]; [contradiction | auto].
    + destruct (IH (x :: seen)) as [Hnd Hmem]. split.
      * constructor; [|exact Hnd]. rewrite Hmem, elem_of_cons. tauto.
      * intros y. rewrite !elem_of_cons, Hmem, elem_of_cons. split.
        -- intros [->|[Hy Hs]]; [auto | tauto].
        -- intros [[->|Hy] Hs]; [auto|]. destruct (decide (y = x)); [auto | tauto].
Qed.

Lemma distinct_length (xs : list (option string)) :
  forall seen, (length (distinct seen xs) <= length xs)%nat.
Proof.
  induction xs as [|x rest IH]; intros seen; cbn [distinct length]; [lia|].
  destruct (bool_decide (x ∈ seen)); cbn [length].
  - specialize (IH seen). lia.
  - specialize (IH (x :: seen)). lia.
Qed.

Lemma toLowerCase_nonempty (s : string) : s <> "" -> toLowerCase s <> "".
Proof. destruct s; [contradiction | discriminate]. Qed.

Lemma chosenProvider_passed (env : Env) :
  orLiteral (Some (chosenProvider env)) "openai" = chosenProvider env.
Proof.
  apply orLiteral_truthy. cbn [truthy].
  assert (H : chosenProvider env <> "").
  { apply toLowerCase_nonempty, orLiteral_nonempty. discriminate. }
  destruct (String.eqb_spec (chosenProvider env) ""); [contradiction | reflexivity].
Qed.

Lemma PROVIDERS_none (name : string) :
  PROVIDERS name = None <-> name <> "openai" /\ name <> "anthropic".
Proof.
  unfold PROVIDERS.
  destruct (String.eqb_spec name "openai"); [split; [discriminate | tauto]|].
  destruct (String.eqb_spec name "anthropic"); [split; [discriminate | tauto]|].
  tauto.
Qed.

Lemma generateResponse_no_call (userMessage ragContext : string) (apiKey : option string)
    (options : Options) :
  snd (generateResponse fetch userMessage ragContext apiKey options) = [] <->
  PROVIDERS (orLiteral (opt_provider options) "openai") = None.
Proof.
  unfold generateResponse.
  destruct (PROVIDERS (orLiteral (opt_provider options) "openai")) as [provider|].
  - cbv zeta. cbn [snd]. split; discriminate.
  - destruct (existsb _ inheritedNames); cbn [snd]; tauto.
Qed.

Lemma generateResponse_unknown (userMessage ragContext : string) (apiKey : option string)
    (options : Options) :
  PROVIDERS (orLiteral (opt_provider options) "openai") = None ->
  exists error, fst (generateResponse fetch userMessage ragContext apiKey options) = Throw error.
Proof.
  intros Hp. unfold generateResponse. rewrite Hp.
  destruct (existsb _ inheritedNames); cbn [fst]; eauto.
Qed.

(** With tags on every entry an accepted message is never answered 500. *)
Lemma wellFormed_never_500 (request : Request) (env : Env) (kv : KVNamespace)
    (message : string) :
  acceptedMessage request = Some message ->
  Forall wellFormed knowledgeBase ->
  resp_status (response (handleChat allowedOrigins knowledgeBase fetch clock request env kv))
  <> 500.
Proof.
  intros Hacc Hkb. rewrite (handleChat_accepted _ _ _ _ _ _ _ _ Hacc). cbv zeta.
  pose proof (denied_retryAfter (getSessionId request) (getClientIP request)
                (clock_now clock) kv) as Hden.
  destruct (checkRateLimit _ _ _ kv) as [result kv']. cbn [fst snd] in *.
  destruct (allowed result) eqn:Hall; cbn [negb].
  - destruct (length (retrieveEntries message knowledgeBase 5) =? 0)%nat; [discriminate|].
    destruct (format_wellFormed _ (retrieved_wellFormed message 5 Hkb)) as [text ->].
    destruct (generateResponse _ _ _ _ _) as [generated calls]. discriminate.
  - destruct (Hden eq_refl) as (seconds & text & -> & _ & _). discriminate.
Qed.

Lemma accepted_chat_status (request : Request) (env : Env) (kv : KVNamespace)
    (message : string) :
  acceptedMessage request = Some message ->
  resp_status (response (handleChat allowedOrigins knowledgeBase fetch clock request env kv))
  <> 400.
Proof.
  intros Hacc. rewrite (handleChat_accepted _ _ _ _ _ _ _ _ Hacc). cbv zeta.
  destruct (checkRateLimit _ _ _ kv) as [result kv'].
  destruct (negb (allowed result)).
  { destruct (retryAfter result); discriminate. }
  destruct (length (retrieveEntries message knowledgeBase 5) =? 0)%nat; [discriminate|].
  destruct (formatEntriesForContext _); [|discriminate].
  destruct (generateResponse _ _ _ _ _) as [generated calls]. discriminate.
Qed.

(** X17.  [handleChat] answers 400 exactly when the body is JSON other
    than [null] and is not an object whose [message] is a string that is
    not blank after trimming: a number, a text or a list as body, a
    missing [message], one that is no string, and an empty or blank one
    are all refused this way, and nothing else is. *)
Theorem bad_request_iff (request : Request) (env : Env) (kv : KVNamespace) :
  resp_status (response (handleChat allowedOrigins knowledgeBase fetch clock request env kv))
  = 400 <->
  (exists body, req_body request = Some body /\ body <> JNull) /\
  (forall props text,
     req_body request = Some (JObj props) ->
     lookupProp "message" props = Some (JStr text) -> trim text = "").
Proof.
  destruct (acceptedMessage request) as [message|] eqn:Hacc.
  - pose proof (accepted_chat_status request env kv message Hacc) as Hne.
    apply acceptedMessage_spec in Hacc as (props & Hb & Hm & Ht).
    split; [intros H; contradiction|]. intros [_ H]. exfalso. apply Ht. exact (H props _ Hb Hm).
  - rewrite (rejected_chat_status _ _ _ _ request env kv Hacc).
    assert (Hblank : forall props text,
              req_body request = Some (JObj props) ->
              lookupProp "message" props = Some (JStr text) -> trim text = "").
    { intros props text Hb Hm. destruct (String.eqb_spec (trim text) "") as [|Hne]; [assumption|].
      assert (Hsome : acceptedMessage request = Some text).
      { apply acceptedMessage_spec. exists props. auto. }
      congruence. }
    destruct (req_body request) as [body|].
    + destruct body;
        (split;
         [ intros H;
           first [ discriminate H
                 | split; [eexists; split; [reflexivity | discriminate] | exact Hblank] ]
         | intros [(body0 & [= <-] & Hb) _];
           first [ reflexivity | exfalso; apply Hb; reflexivity ] ]).
    + split; [discriminate|]. intros [(b & Hb & _) _]. discriminate.
Qed.

(** X19.  A chat request whose message is accepted costs one call of the
    rate limiter, under the session and the address read from its
    headers, whatever the answer turns out to be: the store it leaves is
    the store [checkRateLimit] leaves.  It is answered 429 exactly when
    that call refuses it. *)
Theorem chat_consumes_quota (request : Request) (env : Env) (kv : KVNamespace)
    (message : string) :
  acceptedMessage request = Some message ->
  let checked := checkRateLimit (getSessionId request) (getClientIP request)
                   (clock_now clock) kv in
  let handled := handleChat allowedOrigins knowledgeBase fetch clock request env kv in
  store handled = snd checked /\
  (resp_status (response handled) = 429 <-> allowed (fst checked) = false).
Proof.
  intros Hacc. cbv zeta. rewrite (handleChat_accepted _ _ _ _ _ _ _ _ Hacc). cbv zeta.
  pose proof (denied_retryAfter (getSessionId request) (getClientIP request)
                (clock_now clock) kv) as Hden.
  destruct (checkRateLimit _ _ _ kv) as [result kv']. cbn [fst snd] in *.
  destruct (allowed result) eqn:Hall; cbn [negb].
  - destruct (length (retrieveEntries message knowledgeBase 5) =? 0)%nat.
    { split; [reflexivity|]. cbn. split; discriminate. }
    destruct (formatEntriesForContext _) as [ragContext|].
    + destruct (generateResponse _ _ _ _ _) as [generated calls].
      split; [reflexivity|]. cbn. split; discriminate.
    + split; [reflexivity|]. cbn. split; discriminate.
  - destruct (Hden eq_refl) as (seconds & text & -> & _ & _).
    split; [reflexivity|]. cbn. split; reflexivity.
Qed.

(** X20.  The answer to a refused chat request: status 429, the reason
    and the seconds to wait in the body, the same seconds (at least one)
    as a decimal number in the Retry-After header, and no call to the
    provider. *)
Theorem rate_limited_response (request : Request) (env : Env) (kv : KVNamespace)
    (message : string) :
  acceptedMessage request = Some message ->
  let checked := checkRateLimit (getSessionId request) (getClientIP request)
                   (clock_now clock) kv in
  allowed (fst checked) = false ->
  let handled := handleChat allowedOrigins knowledgeBase fetch clock request env kv in
  exists (seconds : Z) (text : string),
    1 <= seconds /\
    resp_status (response handled) = 429 /\
    resp_body (response handled) = RateLimitBody (Some text) (Some seconds) /\
    reason (fst checked) = Some text /\
    header "Retry-After" (resp_headers (response handled)) = Some (Some (showZ seconds)) /\
    header "Content-Type" (resp_headers (response handled)) = Some (Some "application/json") /\
    providerCalls handled = [].
Proof.
  intros Hacc. cbv zeta. intros Hden. rewrite (handleChat_accepted _ _ _ _ _ _ _ _ Hacc).
  cbv zeta.
  destruct (denied_retryAfter _ _ _ _ Hden) as (seconds & text & Hretry & Hreason & Hpos).
  destruct (checkRateLimit _ _ _ kv) as [result kv']. cbn [fst snd] in *.
  rewrite Hden, Hretry, Hreason. cbn [negb].
  exists seconds, text. repeat split; [exact Hpos].
Qed.

(** X21.  Two provisos, which the embedding builds in: the store answers
    every [get] and [put] (a call of [checkRateLimit] that throws is
    caught by the outer [catch] and answered 500), and every property of
    an entry is a string, [tags] a list of strings (else [scoreEntry]
    can throw).  Then a chat request whose message is accepted is
    answered 500 exactly when it is allowed and one of the entries
    retrieved for it has no tags; the provider is not called then.  With
    a knowledge base whose entries all have their tags no accepted
    request is answered 500. *)
Theorem chat_internal_error_iff (request : Request) (env : Env) (kv : KVNamespace)
    (message : string) :
  acceptedMessage request = Some message ->
  let checked := checkRateLimit (getSessionId request) (getClientIP request)
                   (clock_now clock) kv in
  let handled := handleChat allowedOrigins knowledgeBase fetch clock request env kv in
  (resp_status (response handled) = 500 <->
   allowed (fst checked) = true /\
   Exists (fun e => entry_tags e = None) (retrieveEntries message knowledgeBase 5)) /\
  (resp_status (response handled) = 500 -> providerCalls handled = []) /\
  (Forall wellFormed knowledgeBase -> resp_status (response handled) <> 500).
Proof.
  intros Hacc. cbv zeta. rewrite (handleChat_accepted _ _ _ _ _ _ _ _ Hacc). cbv zeta.
  pose proof (denied_retryAfter (getSessionId request) (getClientIP request)
                (clock_now clock) kv) as Hden.
  pose proof (retrieved_wellFormed message 5) as Hsub.
  destruct (checkRateLimit _ _ _ kv) as [result kv']. cbn [fst snd] in *.
  destruct (allowed result) eqn:Hall; cbn [negb].
  - destruct (retrieveEntries message knowledgeBase 5) as [|e es] eqn:Hre.
    { cbn. split; [split; [discriminate | intros [_ H]; inversion H]|].
      split; [reflexivity | discriminate]. }
    cbn [length Nat.eqb].
    destruct (formatEntriesForContext (e :: es)) as [ragContext|error] eqn:Hctx.
    + apply format_normal_wellFormed in Hctx.
      destruct (generateResponse _ _ _ _ _) as [generated calls]. cbn.
      split; [split; [discriminate|]|split; discriminate].
      intros [_ Hex]. apply wellFormed_or_missing in Hex. contradiction.
    + cbn. assert (Hex : Exists (fun e0 => entry_tags e0 = None) (e :: es)).
      { apply wellFormed_or_missing. intros Hwf.
        destruct (format_wellFormed _ Hwf) as [text Ht]. congruence. }
      split; [split; auto|]. split; [reflexivity|].
      intros Hkb _. apply wellFormed_or_missing in Hex. apply Hex, Hsub, Hkb.
  - destruct (Hden eq_refl) as (seconds & text & -> & _ & _). cbn.
    split; [split; [discriminate | intros [H _]; discriminate]|].
    split; discriminate.
Qed.

(** X22.  The answer to an allowed chat request whose retrieved entries
    all have their tags: status 200 with the default suggestions;
    [entriesFound] is the number of retrieved entries, at most 5.  With
    no entry retrieved the message is the no-match text, no provider is
    called and the metadata holds neither topics nor generation times;
    otherwise [topics] lists every topic of the retrieved entries once,
    in no more items than entries, and [totalTime] is the sum of the two
    measured times. *)
Theorem chat_reply_metadata (request : Request) (env : Env) (kv : KVNamespace)
    (message : string) :
  acceptedMessage request = Some message ->
  allowed (fst (checkRateLimit (getSessionId request) (getClientIP request)
                  (clock_now clock) kv)) = true ->
  Forall wellFormed (retrieveEntries message knowledgeBase 5) ->
  let retrieved := retrieveEntries message knowledgeBase 5 in
  let handled := handleChat allowedOrigins knowledgeBase fetch clock request env kv in
  exists text metadata,
    resp_status (response handled) = 200 /\
    resp_body (response handled) = ChatBody text DEFAULT_SUGGESTIONS metadata /\
    retrievalTime metadata = clock_ragTimeMs clock /\
    entriesFound metadata = Z.of_nat (length retrieved) /\
    0 <= entriesFound metadata <= 5 /\
    (retrieved = [] ->
       text = NO_MATCH_RESPONSE /\ providerCalls handled = [] /\
       topics metadata = None /\ aiGenerationTime metadata = None /\
       totalTime metadata = None) /\
    (retrieved <> [] ->
       exists found,
         topics metadata = Some found /\ NoDup found /\
         (forall topic, topic ∈ found <-> topic ∈ map entry_topic retrieved) /\
         (length found <= length retrieved)%nat /\
         aiGenerationTime metadata = Some (clock_aiTimeMs clock) /\
         totalTime metadata = Some (clock_ragTimeMs clock + clock_aiTimeMs clock)).
Proof.
  intros Hacc Hall Hwf. cbv zeta. rewrite (handleChat_accepted _ _ _ _ _ _ _ _ Hacc).
  cbv zeta.
  pose proof (retrieveEntries_length message 5 ltac:(lia)) as Hlen.
  destruct (checkRateLimit _ _ _ kv) as [result kv']. cbn [fst] in Hall. rewrite Hall.
  cbn [negb].
  destruct (retrieveEntries message knowledgeBase 5) as [|e es] eqn:Hre.
  - cbn [length Nat.eqb].
    exists NO_MATCH_RESPONSE, (mkMetadata (clock_ragTimeMs clock) None None 0 None).
    cbn [response resp_status resp_body providerCalls retrievalTime entriesFound
         topics aiGenerationTime totalTime length].
    split; [reflexivity|]. split; [reflexivity|]. split; [reflexivity|].
    split; [reflexivity|]. split; [lia|]. split; [intros _; repeat split|].
    intros H. contradiction.
  - cbn [length Nat.eqb].
    destruct (format_wellFormed _ Hwf) as [ragContext ->].
    destruct (generateResponse _ _ _ _ _) as [generated calls].
    eexists _, _. cbn [response resp_status resp_body providerCalls retrievalTime entriesFound
                       topics aiGenerationTime totalTime].
    split; [reflexivity|]. split; [reflexivity|]. split; [reflexivity|].
    split; [reflexivity|]. split; [cbn [entriesFound length] in *; lia|].
    cbn [topics aiGenerationTime totalTime providerCalls].
    split; [discriminate|]. intros _.
    destruct (distinct_spec (map entry_topic (e :: es)) []) as [Hnd Hmem].
    eexists. split; [reflexivity|]. split; [exact Hnd|]. split.
    + intros topic. rewrite Hmem. split; [tauto|]. intros H. split; [exact H|]. apply not_elem_of_nil.
    + split; [|split; reflexivity].
      etrans; [apply distinct_length|]. rewrite length_map. reflexivity.
Qed.

(** X23.  [handleChat] calls the provider exactly when the message is
    accepted, the rate limiter allows the request, at least one entry is
    retrieved, every retrieved entry has its tags, and the configured
    provider name, put in lower case, is 'openai' or 'anthropic'. *)
Theorem provider_called_iff (request : Request) (env : Env) (kv : KVNamespace) :
  let handled := handleChat allowedOrigins knowledgeBase fetch clock request env kv in
  providerCalls handled <> [] <->
  exists message,
    acceptedMessage request = Some message /\
    allowed (fst (checkRateLimit (getSessionId request) (getClientIP request)
                    (clock_now clock) kv)) = true /\
    retrieveEntries message knowledgeBase 5 <> [] /\
    Forall wellFormed (retrieveEntries message knowledgeBase 5) /\
    (chosenProvider env = "openai" \/ chosenProvider env = "anthropic").
Proof.
  cbv zeta. destruct (acceptedMessage request) as [message|] eqn:Hacc.
  2:{ destruct (rejected_chat_outcome allowedOrigins knowledgeBase fetch clock request env kv Hacc)
        as [_ ->].
      split; [intros H; contradiction | intros (m & H & _); discriminate]. }
  rewrite (handleChat_accepted _ _ _ _ _ _ _ _ Hacc). cbv zeta.
  destruct (checkRateLimit _ _ _ kv) as [result kv']. cbn [fst].
  destruct (allowed result) eqn:Hall; cbn [negb].
  2:{ split.
      - destruct (retryAfter result); intros H; contradiction.
      - intros (m & _ & H & _). discriminate. }
  destruct (retrieveEntries message knowledgeBase 5) as [|e es] eqn:Hre.
  { cbn. split; [intros H; contradiction|]. intros (m & [= <-] & _ & H & _).
    rewrite Hre in H. contradiction. }
  cbn [length Nat.eqb].
  destruct (formatEntriesForContext (e :: es)) as [ragContext|error] eqn:Hctx.
  - pose proof (format_normal_wellFormed _ _ Hctx) as Hwf.
    match goal with
    | |- context [generateResponse ?f ?m ?c ?k ?o] =>
        pose proof (generateResponse_no_call m c k o) as Hno;
        destruct (generateResponse f m c k o) as [generated calls]
    end.
    cbn [snd opt_provider] in Hno. rewrite chosenProvider_passed, PROVIDERS_none in Hno.
    cbn [providerCalls]. split.
    + intros Hcalls. exists message. rewrite Hre.
      split; [reflexivity|]. split; [reflexivity|]. split; [discriminate|]. split; [exact Hwf|].
      destruct (String.eqb_spec (chosenProvider env) "openai"); [auto|].
      destruct (String.eqb_spec (chosenProvider env) "anthropic"); [auto|].
      exfalso. apply Hcalls, Hno. auto.
    + intros (m & _ & _ & _ & _ & Hp) Hcalls. apply Hno in Hcalls as [Ho Ha].
      destruct Hp; contradiction.
  - cbn. split; [intros H; contradiction|]. intros (m & [= <-] & _ & _ & Hwf & _).
    rewrite Hre in Hwf. destruct (format_wellFormed _ Hwf) as [text Ht]. congruence.
Qed.

End ChatReplies.

Lemma chat_consumes_quota_witness :
  acceptedMessage sampleRequest = Some "What programming languages does Jane know?" /\
  store (handleChat ALLOWED_ORIGINS sampleKnowledgeBase (fun _ => Rejected) sampleClock
           sampleRequest sampleEnv kvEmpty)
  = snd (checkRateLimit (getSessionId sampleRequest) (getClientIP sampleRequest)
           (clock_now sampleClock) kvEmpty).
Proof.
  assert (H : acceptedMessage sampleRequest
              = Some "What programming languages does Jane know?") by (vm_compute; reflexivity).
  split; [exact H|].
  destruct (chat_consumes_quota ALLOWED_ORIGINS sampleKnowledgeBase (fun _ => Rejected)
              sampleClock sampleRequest sampleEnv kvEmpty _ H) as [Hs _].
  exact Hs.
Defined.

Lemma rate_limited_response_witness :
  acceptedMessage sampleRequest = Some "What programming languages does Jane know?" /\
  allowed (fst (checkRateLimit (getSessionId sampleRequest) (getClientIP sampleRequest)
                  (clock_now sampleClock) sampleBusyStore)) = false /\
  resp_status (response (handleChat ALLOWED_ORIGINS sampleKnowledgeBase (fun _ => Rejected)
                           sampleClock sampleRequest sampleEnv sampleBusyStore)) = 429.
Proof.
  assert (H : acceptedMessage sampleRequest
              = Some "What programming languages does Jane know?") by (vm_compute; reflexivity).
  assert (Hden : allowed (fst (checkRateLimit (getSessionId sampleRequest)
                                 (getClientIP sampleRequest)
                                 (clock_now sampleClock) sampleBusyStore)) = false)
    by (vm_compute; reflexivity).
  split; [exact H|]. split; [exact Hden|].
  destruct (rate_limited_response ALLOWED_ORIGINS sampleKnowledgeBase (fun _ => Rejected)
              sampleClock sampleRequest sampleEnv sampleBusyStore _ H Hden)
    as (seconds & text & _ & Hs & _).
  exact Hs.
Defined.

Lemma chat_internal_error_iff_witness :
  acceptedMessage sampleRequest = Some "What programming languages does Jane know?" /\
  resp_status (response (handleChat ALLOWED_ORIGINS sampleKnowledgeBase (fun _ => Rejected)
                           sampleClock sampleRequest sampleEnv kvEmpty)) <> 500.
Proof.
  assert (H : acceptedMessage sampleRequest
              = Some "What programming languages does Jane know?") by (vm_compute; reflexivity).
  split; [exact H|].
  destruct (chat_internal_error_iff ALLOWED_ORIGINS sampleKnowledgeBase (fun _ => Rejected)
              sampleClock sampleRequest sampleEnv kvEmpty _ H) as (_ & _ & Hwf).
  apply Hwf. repeat (constructor; [eexists; reflexivity|]). constructor.
Defined.

Lemma chat_reply_metadata_witness :
  acceptedMessage sampleRequest = Some "What programming languages does Jane know?" /\
  allowed (fst (checkRateLimit (getSessionId sampleRequest) (getClientIP sampleRequest)
                  (clock_now sampleClock) kvEmpty)) = true /\
  exists text metadata,
    resp_body (response (handleChat ALLOWED_ORIGINS sampleKnowledgeBase (fun _ => Rejected)
                           sampleClock sampleRequest sampleEnv kvEmpty))
    = ChatBody text DEFAULT_SUGGESTIONS metadata /\
    0 <= entriesFound metadata <= 5.
Proof.
  assert (H : acceptedMessage sampleRequest
              = Some "What programming languages does Jane know?") by (vm_compute; reflexivity).
  assert (Hall : allowed (fst (checkRateLimit (getSessionId sampleRequest)
                                 (getClientIP sampleRequest)
                                 (clock_now sampleClock) kvEmpty)) = true)
    by (vm_compute; reflexivity).
  assert (Hwf : Forall wellFormed
                  (retrieveEntries "What programming languages does Jane know?"
                     sampleKnowledgeBase 5)).
  { apply retrieved_wellFormed. repeat (constructor; [eexists; reflexivity|]). constructor. }
  split; [exact H|]. split; [exact Hall|].
  destruct (chat_reply_metadata ALLOWED_ORIGINS sampleKnowledgeBase (fun _ => Rejected)
              sampleClock sampleRequest sampleEnv kvEmpty _ H Hall Hwf)
    as (text & metadata & _ & Hb & _ & _ & Hn & _).
  exists text, metadata. split; [exact Hb | exact Hn].
Defined.

(** ** When nothing is retrieved *)

Section EmptyRetrieval.

Lemma slice0_nil {A} (l : list A) (n : Z) : 0 < n -> slice0 l n = [] <-> l = [].
Proof.
  intros Hn. unfold slice0. destruct (Z.ltb_spec n 0); [lia|].
  destruct l as [|x l]; [rewrite take_nil; tauto|].
  destruct (Z.to_nat n) as [|k] eqn:Hk; [lia|]. cbn [take]. split; discriminate.
Qed.

Lemma filter_nil_iff {A} (P : A -> Prop) `{forall x, Decision (P x)} (l : list A) :
  filter P l = [] <-> Forall (fun x => ~ P x) l.
Proof.
  induction l as [|x l IH]; [split; [constructor | reflexivity]|].
  rewrite filter_cons. destruct (decide (P x)) as [Hp|Hp].
  - split; [discriminate|]. intros Hall. apply Forall_cons in Hall as [Hx _]. contradiction.
  - rewrite IH. split; [intros Hl; constructor; assumption|].
    intros Hall. apply Forall_cons in Hall as [_ Hl]. exact Hl.
Qed.

Lemma map_nil_iff {A B} (f : A -> B) (l : list A) : map f l = [] <-> l = [].
Proof. destruct l; split; try reflexivity; discriminate. Qed.

End EmptyRetrieval.

(** X24.  When at least one entry is asked for, [retrieveEntries]
    returns nothing in two cases only: the question has no keyword and
    the knowledge base has no narrative entry on the topic 'about', or
    the question has keywords and every entry scores 0 against them.  So
    with a keyword in the question a knowledge base that holds an entry
    of confidence 'verified' always yields a result. *)
Theorem retrieval_empty_iff (question : string) (knowledgeBase : list Entry) (topN : Z) :
  0 < topN ->
  (retrieveEntries question knowledgeBase topN = [] <->
   (extractKeywords question = [] /\ Forall (fun e => ~ isOverview e) knowledgeBase) \/
   (extractKeywords question <> [] /\
    Forall (fun e => scoreEntry e (extractKeywords question) = 0) knowledgeBase)) /\
  (extractKeywords question <> [] ->
   Exists (fun e => entry_confidence e = Some "verified") knowledgeBase ->
   retrieveEntries question knowledgeBase topN <> []).
Proof.
  intros Htop.
  assert (Hkey : extractKeywords question <> [] ->
            (retrieveEntries question knowledgeBase topN = [] <->
             Forall (fun e => scoreEntry e (extractKeywords question) = 0) knowledgeBase)).
  { intros Hkw. rewrite (retrieveEntries_keywords _ _ _ Hkw), map_nil_iff, slice0_nil by exact Htop.
    split.
    - intros Hnil. apply Forall_forall. intros e He.
      pose proof (scoreEntry_nonneg e (extractKeywords question)) as Hge.
      destruct (Z.eq_dec (scoreEntry e (extractKeywords question)) 0) as [|Hne]; [assumption|].
      assert (Hin : e ∈ map item_entry (scoredItems knowledgeBase (extractKeywords question))).
      { apply scored_member. split; [exact He | lia]. }
      rewrite Hnil in Hin. inversion Hin.
    - intros Hall. destruct (scoredItems knowledgeBase (extractKeywords question))
        as [|item items] eqn:Hs; [reflexivity|].
      assert (Hin : item_entry item
                    ∈ map item_entry (scoredItems knowledgeBase (extractKeywords question))).
      { rewrite Hs. cbn [map]. apply elem_of_cons. left. reflexivity. }
      apply scored_member in Hin as [He Hpos]. rewrite Forall_forall in Hall.
      specialize (Hall _ He). lia. }
  split.
  - destruct (extractKeywords question) as [|k ks] eqn:Hkw.
    + rewrite (retrieveEntries_fallback _ _ _ Hkw), slice0_nil by exact Htop.
      fold (isOverview). change (filter _ knowledgeBase) with (filter isOverview knowledgeBase).
      rewrite filter_nil_iff. split; [intros H; left; auto|].
      intros [[_ H]|[H _]]; [exact H | contradiction].
    + rewrite Hkey by discriminate. split; [intros H; right; split; [discriminate | exact H]|].
      intros [[H _]|[_ H]]; [discriminate | exact H].
  - intros Hkw Hex Hnil. apply Hkey in Hnil; [|exact Hkw].
    apply Exists_exists in Hex as (e & He & Hv). rewrite Forall_forall in Hnil.
    specialize (Hnil e He). rewrite scoreEntry_closed in Hnil.
    pose proof (sumZ_weights_range e (extractKeywords question)) as Hrange.
    unfold strictEq in Hnil. rewrite Hv in Hnil. cbn in Hnil. lia.
Qed.

Lemma retrieval_empty_iff_witness :
  0 < 5 /\ retrieveEntries "Zanzibar" sampleKnowledgeBase 5 <> [].
Proof.
  assert (Htop : 0 < 5) by lia. split; [exact Htop|].
  destruct (retrieval_empty_iff "Zanzibar" sampleKnowledgeBase 5 Htop) as [_ H].
  apply H; [vm_compute; discriminate|].
  apply Exists_cons_hd. reflexivity.
Defined.

(** ** Which provider is called, and the routes *)

Section ProviderChoice.

Variable allowedOrigins : list string.
Variable knowledgeBase : list Entry.
Variable fetch : FetchCall -> FetchOutcome.
Variable clock : Clock.

(** The address and the headers of the request [generateResponse]
    makes. *)
Lemma generateResponse_endpoint (userMessage ragContext : string) (apiKey : option string)
    (options : Options) :
  let providerName := orLiteral (opt_provider options) "openai" in
  let sent := map (fun call => (fetch_url call, fetch_headers call))
                  (snd (generateResponse fetch userMessage ragContext apiKey options)) in
  (providerName = "anthropic" ->
     sent = [ ("https://api.anthropic.com/v1/messages",
               [ ("Content-Type", "application/json");
                 ("x-api-key", interpolate apiKey);
                 ("anthropic-version", "2023-06-01") ]) ]) /\
  (providerName = "openai" ->
     sent = [ ("https://api.openai.com/v1/chat/completions",
               [ ("Content-Type", "application/json");
                 ("Authorization", "Bearer " +:+ interpolate apiKey) ]) ]).
Proof.
  cbv zeta. unfold generateResponse. split; intros ->; reflexivity.
Qed.

(** X25.  The provider [handleChat] calls.  The configured name counts
    in lower case: under 'anthropic' the one request goes to the
    Anthropic address with ANTHROPIC_API_KEY in x-api-key, under
    'openai' (also when nothing is configured) to the OpenAI address
    with OPENAI_API_KEY as bearer token; under any other name no request
    is made and the visitor gets the fallback text with status 200. *)
Theorem provider_choice (request : Request) (env : Env) (kv : KVNamespace)
    (message : string) :
  acceptedMessage request = Some message ->
  allowed (fst (checkRateLimit (getSessionId request) (getClientIP request)
                  (clock_now clock) kv)) = true ->
  retrieveEntries message knowledgeBase 5 <> [] ->
  Forall wellFormed (retrieveEntries message knowledgeBase 5) ->
  let handled := handleChat allowedOrigins knowledgeBase fetch clock request env kv in
  let sent := map (fun call => (fetch_url call, fetch_headers call)) (providerCalls handled) in
  (chosenProvider env = "anthropic" ->
     sent = [ ("https://api.anthropic.com/v1/messages",
               [ ("Content-Type", "application/json");
                 ("x-api-key", interpolate (ANTHROPIC_API_KEY env));
                 ("anthropic-version", "2023-06-01") ]) ]) /\
  (chosenProvider env = "openai" ->
     sent = [ ("https://api.openai.com/v1/chat/completions",
               [ ("Content-Type", "application/json");
                 ("Authorization", "Bearer " +:+ interpolate (OPENAI_API_KEY env)) ]) ]) /\
  (AI_PROVIDER env = None -> chosenProvider env = "openai") /\
  (chosenProvider env <> "anthropic" -> chosenProvider env <> "openai" ->
     sent = [] /\
     resp_status (response handled) = 200 /\
     exists metadata,
       resp_body (response handled) = ChatBody getFallbackResponse DEFAULT_SUGGESTIONS metadata).
Proof.
  intros Hacc Hall Hne Hwf. cbv zeta. rewrite (handleChat_accepted _ _ _ _ _ _ _ _ Hacc).
  cbv zeta.
  destruct (checkRateLimit _ _ _ kv) as [result kv']. cbn [fst] in Hall. rewrite Hall.
  cbn [negb].
  destruct (retrieveEntries message knowledgeBase 5) as [|e es] eqn:Hre; [contradiction|].
  cbn [length Nat.eqb].
  destruct (format_wellFormed _ Hwf) as [ragContext ->].
  match goal with
  | |- context [generateResponse ?f ?m ?c ?k ?o] =>
      pose proof (generateResponse_endpoint m c k o) as Hend;
      pose proof (generateResponse_no_call f m c k o) as Hno;
      pose proof (generateResponse_unknown f m c k o) as Hthrow;
      destruct (generateResponse f m c k o) as [generated calls]
  end.
  cbv zeta in Hend. cbn [snd fst opt_provider] in Hend, Hno, Hthrow.
  rewrite chosenProvider_passed in Hend, Hno, Hthrow. destruct Hend as [Hanth Hopen].
  cbn [providerCalls response resp_status resp_body].
  split.
  { intros Hp. rewrite Hp in Hanth. cbn [String.eqb Ascii.eqb Bool.eqb] in Hanth.
    apply Hanth. reflexivity. }
  split.
  { intros Hp. rewrite Hp in Hopen. cbn [String.eqb Ascii.eqb Bool.eqb] in Hopen.
    apply Hopen. reflexivity. }
  split.
  { intros Hnone. unfold chosenProvider. rewrite Hnone. reflexivity. }
  intros Ha Ho.
  assert (Hnone : PROVIDERS (chosenProvider env) = None) by (apply PROVIDERS_none; auto).
  apply Hno in Hnone as Hcalls. destruct (Hthrow Hnone) as [error ->]. subst calls.
  split; [reflexivity|]. split; [reflexivity|]. eauto.
Qed.

Lemma handleChat_status (request : Request) (env : Env) (kv : KVNamespace) :
  let status := resp_status (response (handleChat allowedOrigins knowledgeBase fetch clock
                                         request env kv)) in
  status = 200 \/ status = 400 \/ status = 429 \/ status = 500.
Proof.
  cbv zeta. unfold handleChat.
  destruct (req_body request) as [body|]; [|cbn; tauto].
  destruct (getProp (Some body) "message") as [message|]; [|cbn; tauto].
  destruct (validMessage message) as [text|]; [|cbn; tauto].
  destruct (checkRateLimit _ _ _ kv) as [result kv'].
  destruct (negb (allowed result)).
  { destruct (retryAfter result); cbn; tauto. }
  destruct (length (retrieveEntries text knowledgeBase 5) =? 0)%nat; [cbn; tauto|].
  destruct (formatEntriesForContext _); [|cbn; tauto].
  destruct (generateResponse _ _ _ _ _) as [generated calls]. cbn. tauto.
Qed.

End ProviderChoice.

Lemma provider_choice_witness :
  acceptedMessage sampleRequest = Some "What programming languages does Jane know?" /\
  chosenProvider sampleAnthropicEnv = "anthropic" /\
  map fetch_url
    (providerCalls (handleChat ALLOWED_ORIGINS sampleKnowledgeBase (fun _ => Rejected)
                      sampleClock sampleRequest sampleAnthropicEnv kvEmpty))
  = ["https://api.anthropic.com/v1/messages"].
Proof.
  assert (H : acceptedMessage sampleRequest
              = Some "What programming languages does Jane know?") by (vm_compute; reflexivity).
  assert (Hall : allowed (fst (checkRateLimit (getSessionId sampleRequest)
                                 (getClientIP sampleRequest)
                                 (clock_now sampleClock) kvEmpty)) = true)
    by (vm_compute; reflexivity).
  assert (Hne : retrieveEntries "What programming languages does Jane know?"
                  sampleKnowledgeBase 5 <> []) by (vm_compute; discriminate).
  assert (Hwf : Forall wellFormed
                  (retrieveEntries "What programming languages does Jane know?"
                     sampleKnowledgeBase 5)).
  { apply retrieved_wellFormed. repeat (constructor; [eexists; reflexivity|]). constructor. }
  assert (Hp : chosenProvider sampleAnthropicEnv = "anthropic") by (vm_compute; reflexivity).
  split; [exact H|]. split; [exact Hp|].
  destruct (provider_choice ALLOWED_ORIGINS sampleKnowledgeBase (fun _ => Rejected)
              sampleClock sampleRequest sampleAnthropicEnv kvEmpty _ H Hall Hne Hwf)
    as (Hanth & _).
  specialize (Hanth Hp).
  apply (f_equal (map fst)) in Hanth. rewrite map_map in Hanth. exact Hanth.
Defined.

(** X26.  The routes of the worker.  Only POST /chat can change the
    store or reach the provider: a preflight, the health check and every
    other request leave the store as it is and call nothing.  The status
    is one of 200, 204, 400, 404, 429 and 500; it is 204 exactly for the
    method OPTIONS, whatever the path, and 404 exactly for a request
    that is neither a preflight, nor GET /health, nor POST /chat. *)
Theorem handleRequest_routes
    (allowedOrigins : list string) (knowledgeBase : list Entry) (stats : Stats)
    (fetch : FetchCall -> FetchOutcome) (clock : Clock)
    (request : Request) (env : Env) (kv : KVNamespace) :
  let handled := handleRequest allowedOrigins knowledgeBase stats fetch clock request env kv in
  let status := resp_status (response handled) in
  (isChatRoute request = false -> store handled = kv /\ providerCalls handled = []) /\
  (status = 200 \/ status = 204 \/ status = 400 \/ status = 404 \/ status = 429 \/
   status = 500) /\
  (status = 204 <-> req_method request = "OPTIONS") /\
  (status = 404 <->
   req_method request <> "OPTIONS" /\
   ~ (req_method request = "GET" /\ req_pathname request = "/health") /\
   isChatRoute request = false).
Proof.
  cbv zeta. unfold handleRequest, isChatRoute.
  pose proof (handleChat_status allowedOrigins knowledgeBase fetch clock request env kv)
    as Hchat. cbv zeta in Hchat.
  destruct (String.eqb_spec (req_method request) "OPTIONS") as [Hopt|Hopt].
  { cbn [response store providerCalls resp_status].
    intuition (try discriminate; try congruence). }
  destruct (String.eqb_spec (req_method request) "GET") as [Hget|Hget];
    destruct (String.eqb_spec (req_pathname request) "/health") as [Hpath|Hpath];
    cbn [andb];
    try (cbn [response store providerCalls resp_status];
         intuition (try discriminate; try congruence); fail);
    destruct (String.eqb_spec (req_method request) "POST") as [Hpost|Hpost];
    destruct (String.eqb_spec (req_pathname request) "/chat") as [Hchatp|Hchatp];
    cbn [andb];
    try (cbn [response store providerCalls resp_status];
         intuition (try discriminate; try congruence); fail);
    destruct Hchat as [H|[H|[H|H]]]; rewrite H;
    intuition (try discriminate; try congruence).
Qed.

(** ** The validator of the knowledge base *)

Section ValidatorSteps.

Lemma pushError_fst (message : string) (issues : Issues) :
  fst (pushError message issues) <> [].
Proof. unfold pushError. cbn [fst]. destruct (fst issues); discriminate. Qed.

Lemma pushWarning_fst (message : string) (issues : Issues) :
  fst (pushWarning message issues) = fst issues.
Proof. reflexivity. Qed.

Lemma pushError_snd (message : string) (issues : Issues) :
  snd (pushError message issues) = snd issues.
Proof. reflexivity. Qed.

Lemma tagWarnings_fst (tags : list string) :
  forall issues : Issues,
  fst (foldl (fun issues tag =>
                if notSnakeCase tag then
                  pushWarning ("Tag " +:+ dquote +:+ tag +:+ dquote +:+ " should be snake_case")
                              issues
                else issues) issues tags) = fst issues.
Proof.
  induction tags as [|tag tags IH]; intros issues; [reflexivity|].
  cbn [foldl]. rewrite IH. destruct (notSnakeCase tag); reflexivity.
Qed.

(** Each check leaves [errors] empty exactly when it was empty and the
    check finds no error. *)
Ltac dirty :=
  split; [ let H := fresh in intros H; exfalso; revert H; apply pushError_fst
         | let H := fresh in intros [_ H]; discriminate H ].

Ltac clean :=
  split; [ let H := fresh in intros H; split; [exact H | reflexivity]
         | let H := fresh in intros [H _]; exact H ].

Lemma checkId_clean (entry : Entry) (issues : Issues) :
  fst (checkId entry issues) = [] <->
  fst issues = [] /\ truthy (entry_id entry) && test ID_PATTERN (interpolate (entry_id entry)) = true.
Proof.
  unfold checkId. destruct (truthy (entry_id entry)); cbn [negb andb]; [|dirty].
  destruct (test ID_PATTERN (interpolate (entry_id entry))); cbn [negb]; [clean | dirty].
Qed.

Lemma checkType_clean (entry : Entry) (issues : Issues) :
  fst (checkType entry issues) = [] <->
  fst issues = [] /\ truthy (entry_type entry) && listed VALID_TYPES (entry_type entry) = true.
Proof.
  unfold checkType. destruct (truthy (entry_type entry)); cbn [negb andb]; [|dirty].
  destruct (listed VALID_TYPES (entry_type entry)); cbn [negb]; [clean | dirty].
Qed.

Lemma checkTopic_clean (entry : Entry) (issues : Issues) :
  fst (checkTopic entry issues) = [] <-> fst issues = [] /\ truthy (entry_topic entry) = true.
Proof.
  unfold checkTopic. destruct (truthy (entry_topic entry)); cbn [negb]; [|dirty].
  destruct (notSnakeCase (interpolate (entry_topic entry))); rewrite ?pushWarning_fst; clean.
Qed.

Lemma checkConfidence_clean (entry : Entry) (issues : Issues) :
  fst (checkConfidence entry issues) = [] <->
  fst issues = [] /\
  truthy (entry_confidence entry) && listed VALID_CONFIDENCE (entry_confidence entry) = true.
Proof.
  unfold checkConfidence. destruct (truthy (entry_confidence entry)); cbn [negb andb]; [|dirty].
  destruct (listed VALID_CONFIDENCE (entry_confidence entry)); cbn [negb]; [clean | dirty].
Qed.

Lemma checkSource_clean (line : KnowledgeLine) (issues : Issues) :
  fst (checkSource line issues) = [] <-> fst issues = [] /\ truthy (line_source line) = true.
Proof.
  unfold checkSource. destruct (truthy (line_source line)); cbn [negb]; [clean | dirty].
Qed.

Lemma checkTags_clean (entry : Entry) (issues : Issues) :
  fst (checkTags entry issues) = [] <->
  fst issues = [] /\ exists tags, entry_tags entry = Some tags /\ tags <> [].
Proof.
  unfold checkTags. destruct (entry_tags entry) as [tags|].
  - destruct tags as [|tag tags]; cbn [length Nat.eqb].
    + split; [intros H; exfalso; revert H; apply pushError_fst|].
      intros [_ (tags & [= <-] & H)]. contradiction.
    + cbv zeta. rewrite tagWarnings_fst.
      destruct (truthy (entry_confidence entry) && _); rewrite ?pushWarning_fst;
        (split; [intros H; split; [exact H | eexists; split; [reflexivity | discriminate]]
                | intros [H _]; exact H]).
  - split; [intros H; exfalso; revert H; apply pushError_fst|].
    intros [_ (tags & H & _)]. discriminate.
Qed.

Lemma checkContent_clean (entry : Entry) (issues : Issues) :
  fst (checkContent entry issues) = [] <->
  fst issues = [] /\
  (strictEq (entry_type entry) "fact" || strictEq (entry_type entry) "narrative"
   || strictEq (entry_type entry) "technical" = true -> blank (entry_content entry) = false).
Proof.
  unfold checkContent.
  destruct (strictEq (entry_type entry) "fact" || strictEq (entry_type entry) "narrative"
            || strictEq (entry_type entry) "technical").
  - destruct (blank (entry_content entry)).
    + split; [intros H; exfalso; revert H; apply pushError_fst|].
      intros [_ H]. specialize (H eq_refl). discriminate.
    + split; [intros H; split; [exact H | reflexivity] | intros [H _]; exact H].
  - split; [intros H; split; [exact H | discriminate] | intros [H _]; exact H].
Qed.

Lemma checkTitle_clean (entry : Entry) (issues : Issues) :
  fst (checkTitle entry issues) = fst issues.
Proof.
  unfold checkTitle.
  repeat match goal with |- context [if ?b then _ else _] => destruct b end; reflexivity.
Qed.

Lemma checkQaPair_clean (entry : Entry) (issues : Issues) :
  fst (checkQaPair entry issues) = [] <->
  fst issues = [] /\
  (strictEq (entry_type entry) "qa_pair" = true ->
   blank (entry_question entry) = false /\ blank (entry_answer entry) = false).
Proof.
  unfold checkQaPair. destruct (strictEq (entry_type entry) "qa_pair").
  2:{ split; [intros H; split; [exact H | discriminate] | intros [H _]; exact H]. }
  cbv zeta. destruct (blank (entry_question entry)), (blank (entry_answer entry));
    (split;
     [ intros H; first [ exfalso; exact (pushError_fst _ _ H)
                       | split; [exact H | intros _; split; reflexivity] ]
     | intros [H1 H2];
       first [ destruct (H2 eq_refl) as [? ?]; discriminate | exact H1 ] ]).
Qed.

Lemma checkFitAssessment_clean (line : KnowledgeLine) (issues : Issues) :
  fst (checkFitAssessment line issues) = [] <->
  fst issues = [] /\
  (strictEq (entry_type (line_entry line)) "fit_assessment" = true ->
   truthy (line_fit_type line) && listed VALID_FIT_TYPES (line_fit_type line) = true /\
   truthy (line_criteria line) = true /\ truthy (line_explanation line) = true).
Proof.
  unfold checkFitAssessment. destruct (strictEq (entry_type (line_entry line)) "fit_assessment").
  2:{ split; [intros H; split; [exact H | discriminate] | intros [H _]; exact H]. }
  cbv zeta.
  destruct (truthy (line_fit_type line)), (listed VALID_FIT_TYPES (line_fit_type line)),
    (truthy (line_criteria line)), (truthy (line_explanation line)); cbn [negb andb];
    (split;
     [ intros H; first [ exfalso; exact (pushError_fst _ _ H)
                       | split; [exact H | intros _; repeat split] ]
     | intros [H1 H2];
       first [ destruct (H2 eq_refl) as (? & ? & ?); discriminate | exact H1 ] ]).
Qed.

Lemma checkQuality_clean (entry : Entry) (issues : Issues) :
  fst (checkQuality entry issues) = fst issues.
Proof.
  unfold checkQuality. cbv zeta.
  repeat match goal with |- context [if ?b then _ else _] => destruct b end; reflexivity.
Qed.

Lemma listed_spec (xs : list string) (v : option string) :
  "" ∉ xs ->
  truthy v && listed xs v = true <-> exists s, v = Some s /\ s ∈ xs.
Proof.
  intros Hxs. unfold listed. split.
  - intros H. apply andb_prop in H as [Ht Hl]. destruct v as [s|]; [|discriminate].
    exists s. split; [reflexivity|]. apply existsb_exists in Hl as (x & Hin & Heq).
    apply String.eqb_eq in Heq. cbn [interpolate] in Heq. subst x.
    apply list_elem_of_In. exact Hin.
  - intros (s & -> & Hin). cbn [interpolate].
    assert (Hl : existsb (String.eqb s) xs = true).
    { apply existsb_exists. exists s. split; [apply list_elem_of_In; exact Hin|].
      apply String.eqb_refl. }
    rewrite Hl, andb_true_r. cbn [truthy].
    destruct (String.eqb_spec s ""); [|reflexivity]. subst s. contradiction.
Qed.

Lemma truthy_spec (v : option string) :
  truthy v = true <-> exists s, v = Some s /\ s <> "".
Proof.
  destruct v as [s|]; cbn [truthy].
  - destruct (String.eqb_spec s ""); cbn [negb]; split.
    + discriminate.
    + intros (s' & [= <-] & H). contradiction.
    + intros _. eauto.
    + reflexivity.
  - split; [discriminate | intros (s & H & _); discriminate].
Qed.

End ValidatorSteps.

Section ValidatorReading.

Lemma strictEq_spec (v : option string) (lit : string) :
  strictEq v lit = true <-> v = Some lit.
Proof.
  destruct v as [s|]; cbn [strictEq]; [|split; discriminate].
  rewrite String.eqb_eq. split; [intros ->; reflexivity | intros [= ->]; reflexivity].
Qed.

Lemma trim_nonempty (s : string) : trim s <> "" -> s <> "".
Proof. intros H ->. apply H. reflexivity. Qed.

Lemma blank_spec (v : option string) :
  blank v = false <-> exists s, v = Some s /\ trim s <> "".
Proof.
  unfold blank. destruct v as [s|]; cbn [truthy interpolate negb orb].
  - destruct (String.eqb_spec s "") as [->|Hs]; cbn [negb orb].
    + split; [discriminate|]. intros (s & [= <-] & H). exfalso. apply H. reflexivity.
    + destruct (String.eqb_spec (trim s) "") as [Ht|Ht]; split.
      * discriminate.
      * intros (s' & [= <-] & H). contradiction.
      * intros _. eauto.
      * reflexivity.
  - split; [discriminate | intros (s & H & _); discriminate].
Qed.

Lemma id_spec (v : option string) :
  truthy v && test ID_PATTERN (interpolate v) = true <->
  exists id, v = Some id /\ test ID_PATTERN id = true.
Proof.
  split.
  - intros H. apply andb_prop in H as [Ht H]. destruct v as [s|]; [|discriminate]. eauto.
  - intros (id & -> & H). cbn [interpolate]. rewrite H, andb_true_r. cbn [truthy].
    destruct (String.eqb_spec id ""); [subst id; discriminate H | reflexivity].
Qed.

Lemma test_ID_PATTERN_spec (id : string) :
  test ID_PATTERN id = true <->
  exists year month day number,
    id = "rag-" +:+ year +:+ "-" +:+ month +:+ "-" +:+ day +:+ "-" +:+ number /\
    digits 4 year /\ digits 2 month /\ digits 2 day /\ digits 3 number.
Proof.
  unfold ID_PATTERN, digits. split.
  - intros H.
    destruct id as [|c0 id]; [discriminate H|]; cbn [test] in H;
      apply andb_prop in H as [Hc0 H]; apply Ascii.eqb_eq in Hc0; subst c0.
    destruct id as [|c1 id]; [discriminate H|]; cbn [test] in H;
      apply andb_prop in H as [Hc1 H]; apply Ascii.eqb_eq in Hc1; subst c1.
    destruct id as [|c2 id]; [discriminate H|]; cbn [test] in H;
      apply andb_prop in H as [Hc2 H]; apply Ascii.eqb_eq in Hc2; subst c2.
    destruct id as [|c3 id]; [discriminate H|]; cbn [test] in H;
      apply andb_prop in H as [Hc3 H]; apply Ascii.eqb_eq in Hc3; subst c3.
    destruct id as [|c4 id]; [discriminate H|]; cbn [test] in H;
      apply andb_prop in H as [Hc4 H]; idtac.
    destruct id as [|c5 id]; [discriminate H|]; cbn [test] in H;
      apply andb_prop in H as [Hc5 H]; idtac.
    destruct id as [|c6 id]; [discriminate H|]; cbn [test] in H;
      apply andb_prop in H as [Hc6 H]; idtac.
    destruct id as [|c7 id]; [discriminate H|]; cbn [test] in H;
      apply andb_prop in H as [Hc7 H]; idtac.
    destruct id as [|c8 id]; [discriminate H|]; cbn [test] in H;
      apply andb_prop in H as [Hc8 H]; apply Ascii.eqb_eq in Hc8; subst c8.
    destruct id as [|c9 id]; [discriminate H|]; cbn [test] in H;
      apply andb_prop in H as [Hc9 H]; idtac.
    destruct id as [|c10 id]; [discriminate H|]; cbn [test] in H;
      apply andb_prop in H as [Hc10 H]; idtac.
    destruct id as [|c11 id]; [discriminate H|]; cbn [test] in H;
      apply andb_prop in H as [Hc11 H]; apply Ascii.eqb_eq in Hc11; subst c11.
    destruct id as [|c12 id]; [discriminate H|]; cbn [test] in H;
      apply andb_prop in H as [Hc12 H]; idtac.
    destruct id as [|c13 id]; [discriminate H|]; cbn [test] in H;
      apply andb_prop in H as [Hc13 H]; idtac.
    destruct id as [|c14 id]; [discriminate H|]; cbn [test] in H;
      apply andb_prop in H as [Hc14 H]; apply Ascii.eqb_eq in Hc14; subst c14.
    destruct id as [|c15 id]; [discriminate H|]; cbn [test] in H;
      apply andb_prop in H as [Hc15 H]; idtac.
    destruct id as [|c16 id]; [discriminate H|]; cbn [test] in H;
      apply andb_prop in H as [Hc16 H]; idtac.
    destruct id as [|c17 id]; [discriminate H|]; cbn [test] in H;
      apply andb_prop in H as [Hc17 H]; idtac.
    destruct id as [|extra id]; [|discriminate H].
    exists (String c4 (String c5 (String c6 (String c7 EmptyString)))), (String c9 (String c10 EmptyString)),
      (String c12 (String c13 EmptyString)), (String c15 (String c16 (String c17 EmptyString))).
    cbn [String.length allChars]. rewrite !append_cons, !append_nil.
    repeat split; assumption.
  - intros (year & month & day & number & -> & [Ly Hy] & [Lm Hm] & [Ld Hd] & [Ln Hn]).
    destruct year as [|y1 [|y2 [|y3 [|y4 [|? ?]]]]]; try discriminate Ly.
    destruct month as [|m1 [|m2 [|? ?]]]; try discriminate Lm.
    destruct day as [|d1 [|d2 [|? ?]]]; try discriminate Ld.
    destruct number as [|n1 [|n2 [|n3 [|? ?]]]]; try discriminate Ln.
    cbn [allChars] in Hy, Hm, Hd, Hn.
    destruct Hy as (Hy1 & Hy2 & Hy3 & Hy4 & _). destruct Hm as (Hm1 & Hm2 & _).
    destruct Hd as (Hd1 & Hd2 & _). destruct Hn as (Hn1 & Hn2 & Hn3 & _).
    rewrite !append_cons, !append_nil. cbn [test].
    rewrite Hy1, Hy2, Hy3, Hy4, Hm1, Hm2, Hd1, Hd2, Hn1, Hn2, Hn3. reflexivity.
Qed.

Lemma types_listed (v : option string) :
  truthy v && listed VALID_TYPES v = true <-> exists s, v = Some s /\ s ∈ VALID_TYPES.
Proof.
  apply listed_spec. intros H.
  repeat (apply elem_of_cons in H as [H|H]; [discriminate H|]). inversion H.
Qed.

Lemma confidence_listed (v : option string) :
  truthy v && listed VALID_CONFIDENCE v = true <->
  exists s, v = Some s /\ s ∈ VALID_CONFIDENCE.
Proof.
  apply listed_spec. intros H.
  repeat (apply elem_of_cons in H as [H|H]; [discriminate H|]). inversion H.
Qed.

Lemma fit_types_listed (v : option string) :
  truthy v && listed VALID_FIT_TYPES v = true <->
  exists s, v = Some s /\ s ∈ VALID_FIT_TYPES.
Proof.
  apply listed_spec. intros H.
  repeat (apply elem_of_cons in H as [H|H]; [discriminate H|]). inversion H.
Qed.

(** The errors of [validateEntry], check by check. *)
Lemma validateEntry_clean (line : KnowledgeLine) :
  let entry := line_entry line in
  fst (validateEntry line) = [] <->
  truthy (entry_id entry) && test ID_PATTERN (interpolate (entry_id entry)) = true /\
  truthy (entry_type entry) && listed VALID_TYPES (entry_type entry) = true /\
  truthy (entry_topic entry) = true /\
  truthy (entry_confidence entry) && listed VALID_CONFIDENCE (entry_confidence entry) = true /\
  truthy (line_source line) = true /\
  (exists tags, entry_tags entry = Some tags /\ tags <> []) /\
  (strictEq (entry_type entry) "fact" || strictEq (entry_type entry) "narrative"
   || strictEq (entry_type entry) "technical" = true -> blank (entry_content entry) = false) /\
  (strictEq (entry_type entry) "qa_pair" = true ->
   blank (entry_question entry) = false /\ blank (entry_answer entry) = false) /\
  (strictEq (entry_type entry) "fit_assessment" = true ->
   truthy (line_fit_type line) && listed VALID_FIT_TYPES (line_fit_type line) = true /\
   truthy (line_criteria line) = true /\ truthy (line_explanation line) = true).
Proof.
  cbv zeta. unfold validateEntry. cbv zeta.
  rewrite checkQuality_clean, checkFitAssessment_clean, checkQaPair_clean, checkTitle_clean,
    checkContent_clean, checkTags_clean, checkSource_clean, checkConfidence_clean,
    checkTopic_clean, checkType_clean, checkId_clean.
  cbn [fst]. tauto.
Qed.

End ValidatorReading.

(** X27.  [validateEntry] reports no error exactly for a line that has:
    an id of the form rag-dddd-dd-dd-ddd, one of the five types, a
    topic, one of the three confidence levels, a source and at least one
    tag; a content that is not blank when the type is fact, narrative or
    technical; a question and an answer that are not blank when it is
    qa_pair; one of the three fit types, criteria and an explanation
    when it is fit_assessment.  Warnings play no part in it. *)
Theorem error_free_entry_iff (line : KnowledgeLine) :
  let entry := line_entry line in
  fst (validateEntry line) = [] <->
  (exists year month day number,
     entry_id entry
     = Some ("rag-" +:+ year +:+ "-" +:+ month +:+ "-" +:+ day +:+ "-" +:+ number) /\
     digits 4 year /\ digits 2 month /\ digits 2 day /\ digits 3 number) /\
  (exists type, entry_type entry = Some type /\ type ∈ VALID_TYPES) /\
  (exists topic, entry_topic entry = Some topic /\ topic <> "") /\
  (exists confidence,
     entry_confidence entry = Some confidence /\ confidence ∈ VALID_CONFIDENCE) /\
  (exists source, line_source line = Some source /\ source <> "") /\
  (exists tags, entry_tags entry = Some tags /\ tags <> []) /\
  (entry_type entry = Some "fact" \/ entry_type entry = Some "narrative" \/
   entry_type entry = Some "technical" ->
   exists content, entry_content entry = Some content /\ trim content <> "") /\
  (entry_type entry = Some "qa_pair" ->
   (exists question, entry_question entry = Some question /\ trim question <> "") /\
   (exists answer, entry_answer entry = Some answer /\ trim answer <> "")) /\
  (entry_type entry = Some "fit_assessment" ->
   (exists fit, line_fit_type line = Some fit /\ fit ∈ VALID_FIT_TYPES) /\
   (exists criteria, line_criteria line = Some criteria /\ criteria <> "") /\
   (exists explanation, line_explanation line = Some explanation /\ explanation <> "")).
Proof.
  cbv zeta. rewrite validateEntry_clean. cbv zeta.
  rewrite id_spec, types_listed, confidence_listed, fit_types_listed, !truthy_spec,
    !blank_spec, !orb_true_iff, !strictEq_spec.
  assert (Hid : (exists id, entry_id (line_entry line) = Some id /\ test ID_PATTERN id = true)
                <-> exists year month day number,
                      entry_id (line_entry line)
                      = Some ("rag-" +:+ year +:+ "-" +:+ month +:+ "-" +:+ day +:+ "-"
                              +:+ number) /\
                      digits 4 year /\ digits 2 month /\ digits 2 day /\ digits 3 number).
  { split.
    - intros (id & Hid & Ht). apply test_ID_PATTERN_spec in Ht
        as (year & month & day & number & -> & Hd). exists year, month, day, number. auto.
    - intros (year & month & day & number & Hid & Hd). eexists. split; [exact Hid|].
      apply test_ID_PATTERN_spec. exists year, month, day, number. auto. }
  rewrite Hid. tauto.
Qed.

Example error_free_entry_sample :
  validateEntry
    (mkLine (mkEntry (Some "rag-2026-02-23-001") (Some "fact") (Some "education") None
               (Some "Jane holds a degree in computer science.") None None (Some "verified")
               (Some ["education"; "verified"]))
            (Some "resume") None None None)
  = ([], []) /\
  fst (validateEntry (mkLine test003 (Some "resume") None None None))
  = ["Invalid id format: " +:+ dquote +:+ "test-003" +:+ dquote
     +:+ " (expected: rag-YYYY-MM-DD-###)"].
Proof. split; vm_compute; reflexivity. Qed.

Section ValidatedKnowledge.

Lemma error_free_wellFormed (line : KnowledgeLine) :
  fst (validateEntry line) = [] -> wellFormed (line_entry line).
Proof.
  intros H. apply validateEntry_clean in H. cbv zeta in H.
  destruct H as (_ & _ & _ & _ & _ & (tags & Ht & _) & _). exists tags. exact Ht.
Qed.

End ValidatedKnowledge.

(** X28.  Two provisos, which the embedding builds in: every property
    of a line is a string, [tags] a list of strings ([validateEntry]
    does not test that, and [scoreEntry] can throw on a title that is no
    string), and the store answers every [get] and [put] of the rate
    limiter.  Then a knowledge base whose lines all pass [validateEntry]
    without error is safe to serve: every entry has its tags, so
    formatting the entries retrieved for any question never throws, and
    the chat handler never answers 500 to a request whose message it
    accepts. *)
Theorem validated_knowledge_base_is_safe (lines : list KnowledgeLine) :
  Forall (fun line => fst (validateEntry line) = []) lines ->
  let knowledgeBase := map line_entry lines in
  Forall wellFormed knowledgeBase /\
  (forall question topN,
     exists text,
       formatEntriesForContext (retrieveEntries question knowledgeBase topN) = Normal text) /\
  (forall allowedOrigins fetch clock request env kv message,
     acceptedMessage request = Some message ->
     resp_status (response (handleChat allowedOrigins knowledgeBase fetch clock request env kv))
     <> 500).
Proof.
  intros Hall. cbv zeta.
  assert (Hwf : Forall wellFormed (map line_entry lines)).
  { apply Forall_forall. intros e He. apply list_elem_of_In, in_map_iff in He as (l & <- & Hl).
    apply error_free_wellFormed. rewrite Forall_forall in Hall. apply Hall.
    apply list_elem_of_In. exact Hl. }
  split; [exact Hwf|]. split.
  - intros question topN. apply format_wellFormed, retrieved_wellFormed. exact Hwf.
  - intros allowedOrigins fetch clock request env kv message Hacc.
    apply (wellFormed_never_500 _ _ _ _ _ _ _ _ Hacc Hwf).
Qed.

Lemma validated_knowledge_base_is_safe_witness :
  let lines :=
    [ mkLine (mkEntry (Some "rag-2026-02-23-001") (Some "fact") (Some "education") None
                (Some "Jane holds a degree in computer science.") None None (Some "verified")
                (Some ["education"; "verified"]))
             (Some "resume") None None None ] in
  Forall (fun line => fst (validateEntry line) = []) lines /\
  Forall wellFormed (map line_entry lines).
Proof.
  cbv zeta.
  assert (H : Forall (fun line => fst (validateEntry line) = [])
    [ mkLine (mkEntry (Some "rag-2026-02-23-001") (Some "fact") (Some "education") None
                (Some "Jane holds a degree in computer science.") None None (Some "verified")
                (Some ["education"; "verified"]))
             (Some "resume") None None None ]).
  { constructor; [vm_compute; reflexivity | constructor]. }
  split; [exact H|].
  destruct (validated_knowledge_base_is_safe _ H) as [Hwf _]. exact Hwf.
Defined.

(** ** The result of a validation run *)

Section ValidationRun.

Variable strict : bool.

Lemma checkLine_counts (tally : Tally) (lineNumber : nat) (line : option KnowledgeLine) :
  let tally' := checkLine strict tally lineNumber line in
  (totalErrors tally <= totalErrors tally')%nat /\
  (totalErrors tally' = totalErrors tally <-> cleanLine strict line).
Proof.
  cbv zeta. unfold checkLine, cleanLine. destruct line as [entry|].
  - destruct (validateEntry entry) as [errors warnings] eqn:Hv.
    assert (Hiff : (exists e, Some entry = Some e /\ fst (validateEntry e) = [] /\
                      (strict = true -> snd (validateEntry e) = []))
                   <-> errors = [] /\ (strict = true -> warnings = [])).
    { split.
      - intros (e & [= <-] & H1 & H2). rewrite Hv in H1, H2. auto.
      - intros [H1 H2]. exists entry. rewrite Hv. auto. }
    rewrite Hiff. clear Hiff Hv.
    destruct strict; cbn [totalErrors]; (split; [lia|]); split.
    + intros H. destruct errors; [|cbn [length] in H; lia].
      destruct warnings; [|cbn [length] in H; lia]. auto.
    + intros [-> H]. rewrite (H eq_refl). cbn [length]. lia.
    + intros H. destruct errors; [|cbn [length] in H; lia]. split; [reflexivity | discriminate].
    + intros [-> _]. cbn [length]. lia.
  - cbn [totalErrors]. split; [lia|]. split; [lia|]. intros (e & H & _). discriminate.
Qed.

Lemma checkLine_ids (tally : Tally) (lineNumber : nat) (line : option KnowledgeLine) :
  let tally' := checkLine strict tally lineNumber line in
  match lineIds [line] with
  | [] => ids tally' = ids tally /\ duplicateIds tally' = duplicateIds tally
  | id :: _ =>
      if bool_decide (id ∈ ids tally) then
        ids tally' = ids tally /\
        duplicateIds tally' = (duplicateIds tally ++ [(id, lineNumber)])%list
      else
        ids tally' = (ids tally ++ [id])%list /\ duplicateIds tally' = duplicateIds tally
  end.
Proof.
  cbv zeta. unfold checkLine. destruct line as [entry|]; cbn [lineIds]; [|split; reflexivity].
  destruct (truthy (entry_id (line_entry entry))); cbn [andb].
  - destruct (bool_decide (interpolate (entry_id (line_entry entry)) ∈ ids tally));
      cbn [negb]; destruct (validateEntry entry) as [errors warnings];
      destruct strict; split; reflexivity.
  - destruct (validateEntry entry) as [errors warnings]; destruct strict; split; reflexivity.
Qed.

Lemma lineIds_cons (line : option KnowledgeLine) (rest : list (option KnowledgeLine)) :
  lineIds (line :: rest) = (lineIds [line] ++ lineIds rest)%list.
Proof.
  destruct line as [entry|]; cbn [lineIds]; [|reflexivity].
  destruct (truthy (entry_id (line_entry entry))); reflexivity.
Qed.

Lemma lineIds_single (line : option KnowledgeLine) :
  lineIds [line] = [] \/ exists id, lineIds [line] = [id].
Proof.
  destruct line as [entry|]; cbn [lineIds]; [|left; reflexivity].
  destruct (truthy (entry_id (line_entry entry))); [right; eauto | left; reflexivity].
Qed.

(** The counters after the remaining lines: no error is counted exactly
    when none was counted before, every line is clean, and no id occurs
    twice. *)
Lemma checkLines_clean (lines : list (option KnowledgeLine)) :
  forall (tally : Tally) (lineNumber : nat),
  let tally' := checkLines strict tally lineNumber lines in
  (totalErrors tally' + length (duplicateIds tally') = 0)%nat <->
  (totalErrors tally + length (duplicateIds tally) = 0)%nat /\
  Forall (cleanLine strict) lines /\
  NoDup (lineIds lines) /\
  (forall id, id ∈ lineIds lines -> id ∉ ids tally).
Proof.
  induction lines as [|line rest IH]; intros tally lineNumber; cbv zeta.
  - cbn [checkLines lineIds]. split.
    + intros H. split; [exact H|]. split; [constructor|]. split; [constructor|].
      intros id Hid. inversion Hid.
    + intros [H _]. exact H.
  - cbn [checkLines]. rewrite IH. rewrite lineIds_cons.
    pose proof (checkLine_counts tally lineNumber line) as Hc.
    pose proof (checkLine_ids tally lineNumber line) as Hi. cbv zeta in Hc, Hi.
    destruct Hc as [Hle Hclean].
    set (tally' := checkLine strict tally lineNumber line) in *.
    rewrite Forall_cons.
    destruct (lineIds_single line) as [Hnone|[id Hone]].
    + rewrite Hnone in Hi |- *. destruct Hi as [Hids Hdup]. rewrite Hids, Hdup. cbn [app].
      split.
      * intros (H0 & Hrest & Hnd & Hfresh). apply proj2 in Hclean as Hcl.
        assert (totalErrors tally' = totalErrors tally) by lia.
        split; [lia|]. split; [split; [apply Hclean; assumption | exact Hrest]|]. auto.
      * intros (H0 & [Hl Hrest] & Hnd & Hfresh). apply Hclean in Hl. split; [lia|]. auto.
    + rewrite Hone in Hi |- *. cbn [app]. rewrite NoDup_cons.
      destruct (bool_decide_reflect (id ∈ ids tally)) as [Hin|Hnin];
        destruct Hi as [Hids Hdup]; rewrite Hids, Hdup.
      * split.
        -- intros (H0 & _). rewrite length_app in H0. cbn [length] in H0. lia.
        -- intros (_ & _ & _ & Hfresh). exfalso. apply (Hfresh id); [left|exact Hin].
      * split.
        -- intros (H0 & Hrest & Hnd & Hfresh).
           assert (totalErrors tally' = totalErrors tally) by lia.
           split; [lia|]. split; [split; [apply Hclean; assumption | exact Hrest]|].
           split.
           ++ split; [|exact Hnd]. intros Hid. apply (Hfresh id Hid).
              apply elem_of_app. right. left.
           ++ intros x Hx. apply elem_of_cons in Hx as [->|Hx]; [exact Hnin|].
              intros Hx'. apply (Hfresh x Hx). apply elem_of_app. left. exact Hx'.
        -- intros (H0 & [Hl Hrest] & [Hnotin Hnd] & Hfresh). apply Hclean in Hl.
           split; [lia|]. split; [exact Hrest|]. split; [exact Hnd|].
           intros x Hx Hx'. apply elem_of_app in Hx' as [Hx'|Hx'].
           ++ apply (Hfresh x); [right; exact Hx | exact Hx'].
           ++ apply elem_of_cons in Hx' as [->|Hx']; [contradiction | inversion Hx'].
Qed.

End ValidationRun.

(** X29.  The validator exits with 0 exactly when every line parses,
    [validateEntry] reports no error for any of them (and, under
    --strict, no warning either), and no id occurs on two lines; it
    exits with 1 otherwise.  Without --strict warnings never change the
    exit code. *)
Theorem exit_code_zero_iff (strict : bool) (lines : list (option KnowledgeLine)) :
  (exitCode strict lines = 0 <->
   Forall (cleanLine strict) lines /\ NoDup (lineIds lines)) /\
  (exitCode strict lines = 0 \/ exitCode strict lines = 1).
Proof.
  unfold exitCode. cbv zeta.
  pose proof (checkLines_clean strict lines (mkTally 0 0 [] []) 1) as H. cbv zeta in H.
  cbn [totalErrors duplicateIds ids length] in H.
  destruct (Nat.ltb_spec 0
              (totalErrors (checkLines strict (mkTally 0 0 [] []) 1 lines)
               + length (duplicateIds (checkLines strict (mkTally 0 0 [] []) 1 lines))))
    as [Hpos|Hzero].
  - split; [|right; reflexivity]. split; [discriminate|].
    intros [Hclean Hnd]. exfalso.
    assert (Hz : (totalErrors (checkLines strict (mkTally 0 0 [] []) 1 lines)
                  + length (duplicateIds (checkLines strict (mkTally 0 0 [] []) 1 lines)) = 0)%nat).
    { apply H. split; [reflexivity|]. split; [exact Hclean|]. split; [exact Hnd|].
      intros id _. apply not_elem_of_nil. }
    lia.
  - split; [|left; reflexivity]. split; [|reflexivity]. intros _.
    assert (Hz : (totalErrors (checkLines strict (mkTally 0 0 [] []) 1 lines)
                  + length (duplicateIds (checkLines strict (mkTally 0 0 [] []) 1 lines)) = 0)%nat)
      by lia.
    apply H in Hz as (_ & Hclean & Hnd & _). auto.
Qed.

Example exit_code_samples :
  let good :=
    mkLine (mkEntry (Some "rag-2026-02-23-001") (Some "fact") (Some "education") None
              (Some "Jane holds a degree in computer science.") None None (Some "verified")
              (Some ["education"; "verified"]))
           (Some "resume") None None None in
  let short :=
    mkLine (mkEntry (Some "rag-2026-02-23-002") (Some "fact") (Some "education") None
              (Some "A degree.") None None (Some "verified")
              (Some ["education"; "verified"]))
           (Some "resume") None None None in
  exitCode false [Some good; Some short] = 0 /\
  exitCode true [Some good; Some short] = 1 /\
  exitCode false [Some good; Some good] = 1 /\
  exitCode false [Some good; None] = 1.
Proof. repeat split; vm_compute; reflexivity. Qed.

(** ** The generated knowledge module *)

Section LoaderFacts.




End LoaderFacts.


Example generated_module_sample :
  let generated := generateKnowledgeModule [Some test001; None; Some test002; Some test003] in
  module_totalEntries generated = 3 /\
  (exists types, module_types generated = Some types /\
                 types !! "fact" = Some 1 /\ types !! "technical" = None).
Proof. vm_compute. split; [reflexivity|]. eexists. repeat split; reflexivity. Qed.

(** ** The one call to the provider *)

Section ProviderAnswer.

Variable allowedOrigins : list string.
Variable knowledgeBase : list Entry.
Variable fetch : FetchCall -> FetchOutcome.
Variable clock : Clock.

Lemma failedOutcome_answerText (provider : Provider) (outcome : FetchOutcome) :
  failedOutcome outcome -> answerText provider outcome = None.
Proof.
  destruct outcome as [|status body]; [reflexivity|]. cbn [failedOutcome answerText].
  intros [Hok| ->]; [|reflexivity]. rewrite Hok. destruct body; reflexivity.
Qed.

(** The completion of [generateResponse] follows from the outcome of its
    call. *)
Lemma generateResponse_answer (userMessage ragContext : string) (apiKey : option string)
    (options : Options) (call : FetchCall) :
  call ∈ snd (generateResponse fetch userMessage ragContext apiKey options) ->
  exists provider,
    PROVIDERS (orLiteral (opt_provider options) "openai") = Some provider /\
    match answerText provider (fetch call) with
    | Some text => fst (generateResponse fetch userMessage ragContext apiKey options) = Normal text
    | None =>
        exists error,
          fst (generateResponse fetch userMessage ragContext apiKey options) = Throw error
    end.
Proof.
  unfold generateResponse.
  destruct (PROVIDERS (orLiteral (opt_provider options) "openai")) as [provider|].
  - cbv zeta. cbn [fst snd].
    intros Hin. apply elem_of_cons in Hin as [->|Hin]; [|inversion Hin].
    exists provider. split; [reflexivity|]. unfold answerText.
    match goal with |- context [fetch ?c] => destruct (fetch c) as [|status body] end;
      [eexists; reflexivity|].
    destruct (isOk status); cbn [negb].
    + destruct body as [data|]; [|eexists; reflexivity].
      destruct (extractResponse provider data) as [text|error];
        [reflexivity | eexists; reflexivity].
    + destruct body; eexists; reflexivity.
  - destruct (existsb _ inheritedNames); cbn [snd]; intros Hin; inversion Hin.
Qed.

(** What [handleChat] answers after a call to the provider. *)
Lemma handleChat_answer (request : Request) (env : Env) (kv : KVNamespace) (call : FetchCall) :
  let handled := handleChat allowedOrigins knowledgeBase fetch clock request env kv in
  call ∈ providerCalls handled ->
  exists provider metadata,
    PROVIDERS (chosenProvider env) = Some provider /\
    resp_status (response handled) = 200 /\
    resp_body (response handled)
    = ChatBody (match answerText provider (fetch call) with
                | Some text => text
                | None => getFallbackResponse
                end) DEFAULT_SUGGESTIONS metadata.
Proof.
  cbv zeta. destruct (acceptedMessage request) as [message|] eqn:Hacc.
  2:{ destruct (rejected_chat_outcome allowedOrigins knowledgeBase fetch clock request env kv Hacc)
        as [_ ->]. intros Hin. inversion Hin. }
  rewrite (handleChat_accepted _ _ _ _ _ _ _ _ Hacc). cbv zeta.
  destruct (checkRateLimit _ _ _ kv) as [result kv'].
  destruct (negb (allowed result)).
  { destruct (retryAfter result); intros Hin; inversion Hin. }
  destruct (length (retrieveEntries message knowledgeBase 5) =? 0)%nat;
    [intros Hin; inversion Hin|].
  destruct (formatEntriesForContext _) as [ragContext|]; [|intros Hin; inversion Hin].
  match goal with
  | |- context [generateResponse ?f ?m ?c ?k ?o] =>
      pose proof (generateResponse_answer m c k o call) as Hgen;
      destruct (generateResponse f m c k o) as [generated calls]
  end.
  cbn [fst snd opt_provider] in Hgen. rewrite chosenProvider_passed in Hgen.
  cbn [providerCalls response resp_status resp_body]. intros Hin.
  destruct (Hgen Hin) as (provider & Hp & Hanswer). exists provider. eexists.
  split; [exact Hp|]. split; [reflexivity|].
  destruct (answerText provider (fetch call)) as [text|].
  - rewrite Hanswer. reflexivity.
  - destruct Hanswer as [error ->]. reflexivity.
Qed.

End ProviderAnswer.

(** C3, as the code has it.  The worker calls the provider at most once
    per request, never retries and never sets a timeout signal on the
    call.  The answer after a call is always 200, and its message is the
    text the provider's extractor finds in a body answered inside
    200-299; in every other case it is the fallback text: when the call
    is rejected, answered outside 200-299, answered with a body that is
    not JSON, or answered with a JSON body that holds no text where the
    extractor looks. *)
Theorem provider_called_once_without_timeout
    (allowedOrigins : list string) (knowledgeBase : list Entry) (stats : Stats)
    (fetch : FetchCall -> FetchOutcome) (clock : Clock)
    (request : Request) (env : Env) (kv : KVNamespace) :
  let handled := handleRequest allowedOrigins knowledgeBase stats fetch clock request env kv in
  (length (providerCalls handled) <= 1)%nat /\
  Forall (fun call => fetch_signal call = None) (providerCalls handled) /\
  (forall call, call ∈ providerCalls handled -> failedOutcome (fetch call) ->
     resp_status (response handled) = 200 /\
     exists metadata,
       resp_body (response handled) = ChatBody getFallbackResponse DEFAULT_SUGGESTIONS metadata) /\
  (forall call, call ∈ providerCalls handled ->
     exists provider metadata,
       PROVIDERS (chosenProvider env) = Some provider /\
       resp_status (response handled) = 200 /\
       resp_body (response handled)
       = ChatBody (match answerText provider (fetch call) with
                   | Some text => text
                   | None => getFallbackResponse
                   end) DEFAULT_SUGGESTIONS metadata).
Proof.
  cbv zeta.
  assert (Hroute :
    handleRequest allowedOrigins knowledgeBase stats fetch clock request env kv
    = handleChat allowedOrigins knowledgeBase fetch clock request env kv \/
    providerCalls (handleRequest allowedOrigins knowledgeBase stats fetch clock request env kv)
    = []).
  { unfold handleRequest.
    destruct (String.eqb (req_method request) "OPTIONS"); [right; reflexivity|].
    destruct (String.eqb (req_method request) "GET"
              && String.eqb (req_pathname request) "/health"); [right; reflexivity|].
    destruct (String.eqb (req_method request) "POST"
              && String.eqb (req_pathname request) "/chat"); [left | right]; reflexivity. }
  destruct Hroute as [-> | Hnone].
  - pose proof (handleChat_calls allowedOrigins knowledgeBase fetch clock request env kv)
      as (Hlen & Hsig & Hfail).
    split; [exact Hlen|]. split; [exact Hsig|]. split; [exact Hfail|].
    intros call Hin. apply handleChat_answer. exact Hin.
  - rewrite Hnone. split; [cbn [length]; lia|]. split; [constructor|].
    split; intros call Hin; inversion Hin.
Qed.

Lemma provider_called_once_without_timeout_witness :
  let fetch := fun _ : FetchCall => Responded 200 (Some (JObj [])) in
  let handled := handleRequest ALLOWED_ORIGINS sampleKnowledgeBase sampleStats fetch
                   sampleClock sampleRequest sampleEnv kvEmpty in
  length (providerCalls handled) = 1%nat /\
  resp_status (response handled) = 200 /\
  exists metadata,
    resp_body (response handled) = ChatBody getFallbackResponse DEFAULT_SUGGESTIONS metadata.
Proof.
  cbv zeta.
  destruct (provider_called_once_without_timeout ALLOWED_ORIGINS sampleKnowledgeBase sampleStats
              (fun _ : FetchCall => Responded 200 (Some (JObj []))) sampleClock sampleRequest
              sampleEnv kvEmpty) as (_ & _ & _ & Hanswer).
  assert (Hcalls : exists call,
            providerCalls (handleRequest ALLOWED_ORIGINS sampleKnowledgeBase sampleStats
                             (fun _ : FetchCall => Responded 200 (Some (JObj []))) sampleClock
                             sampleRequest sampleEnv kvEmpty) = [call]).
  { eexists. vm_compute. reflexivity. }
  destruct Hcalls as [call Hcalls]. rewrite Hcalls in Hanswer |- *.
  destruct (Hanswer call ltac:(left)) as (provider & metadata & Hp & Hstatus & Hbody).
  split; [reflexivity|]. split; [exact Hstatus|]. exists metadata. rewrite Hbody.
  assert (Hprovider : provider = openai).
  { assert (Ho : PROVIDERS (chosenProvider sampleEnv) = Some openai) by reflexivity.
    congruence. }
  subst provider. reflexivity.
Defined.
